(** * Smart B-Roll Inserter: matcher, timeline planner and B-roll analyzer

    A shallow embedding of
      - [backend/app/services/matcher.py]        (class [SemanticMatcher]),
      - [backend/app/services/timeline.py]       (class [TimelinePlanner]),
      - [backend/app/services/broll_analysis.py] (class [BRollAnalyzer]),
    followed by the properties of the specification that were checked
    against them.

    Numbers.  Times, durations and similarity scores are Python floats.  In
    the selector and in the timeline planner they are only compared, added,
    subtracted and rounded for output, and they are modelled as rationals
    ([Q]) with exact arithmetic; [==] is numeric equality, as Python's [==]
    on floats.  The relevance matrix of [_calculate_similarity_matrix] is the
    one place where the float semantics itself (a division by a zero norm)
    decides a property, and that function is modelled on IEEE-754 binary64
    with the kernel's primitive floats.

    Insertion counts ([min_insertions], [max_insertions]) are natural
    numbers: the request model of [main.py] validates them with [ge=0] and
    [ge=1]. *)

From Stdlib Require Import List String Ascii Bool Arith ZArith QArith Qround Qabs.
From Stdlib Require DecimalString.
From Stdlib Require Import Permutation Sorted Lia Lqa.
From Stdlib Require Import PrimFloat.
Import ListNotations.

Open Scope Q_scope.

(** ** Python built-ins used by the three modules *)

Module Py.

(** [x < y] on numbers. *)
Definition ltb (x y : Q) : bool := negb (Qle_bool y x).

(** [x >= y] on numbers. *)
Definition geb (x y : Q) : bool := Qle_bool y x.

(** [list.sort(key=...)] and [sorted(..., key=...)] are stable.  The stable
    sort of a list is unique, so insertion sort is a model of it: [before y x]
    says that the key of [y] puts it strictly before [x]; [x], which stood
    before all of [l] in the input, is placed before the first element that
    is not strictly before it. *)
Section StableSort.
Context {A : Type} (before : A -> A -> bool).

Fixpoint insert (x : A) (l : list A) : list A :=
  match l with
  | [] => [x]
  | y :: ys => if before y x then y :: insert x ys else x :: y :: ys
  end.

Fixpoint sort (l : list A) : list A :=
  match l with
  | [] => []
  | x :: xs => insert x (sort xs)
  end.
End StableSort.

(** [sorted(l, key=key)]: ascending. *)
Definition sorted_by {A} (key : A -> Q) (l : list A) : list A :=
  sort (fun y x => ltb (key y) (key x)) l.

(** [l.sort(key=key, reverse=True)]: descending, equal keys keep their order. *)
Definition sorted_by_reverse {A} (key : A -> Q) (l : list A) : list A :=
  sort (fun y x => ltb (key x) (key y)) l.

(** [round(x)] to the nearest integer, ties to even. *)
Definition round_half_even (x : Q) : Z :=
  let f := Qfloor x in
  let r := x - inject_Z f in
  if ltb r (1 # 2) then f
  else if ltb (1 # 2) r then (f + 1)%Z
  else if Z.even f then f else (f + 1)%Z.

(** [round(x, ndigits)]: the nearest multiple of [10^-ndigits], ties to even
    (Python rounds the exact value of the float). *)
Definition round (x : Q) (ndigits : nat) : Q :=
  let p := Z.pow 10 (Z.of_nat ndigits) in
  inject_Z (round_half_even (x * inject_Z p)) / inject_Z p.

(** A [dict] with string keys, as the list of its items in insertion order. *)
Definition dict (V : Type) : Type := list (string * V).

Fixpoint get {V} (d : dict V) (k : string) : option V :=
  match d with
  | [] => None
  | (k', v) :: d' => if String.eqb k' k then Some v else get d' k
  end.

(** [d.get(k, default)] *)
Definition get_default {V} (d : dict V) (k : string) (default : V) : V :=
  match get d k with Some v => v | None => default end.

(** [d[k] = v]: an existing key keeps its place, a new key is appended. *)
Fixpoint set {V} (d : dict V) (k : string) (v : V) : dict V :=
  match d with
  | [] => [(k, v)]
  | (k', v') :: d' =>
      if String.eqb k' k then (k', v) :: d' else (k', v') :: set d' k v
  end.

(** [list(d.keys())] *)
Definition keys {V} (d : dict V) : list string := map fst d.

(** [enumerate(l)] *)
Definition enumerate {A} (l : list A) : list (nat * A) :=
  combine (seq 0 (List.length l)) l.

(** [x in s] for a set of indices. *)
Definition mem (x : nat) (s : list nat) : bool := existsb (Nat.eqb x) s.

(** [k in s] for strings: [k] occurs in [s] as a substring. *)
Fixpoint contains (k s : string) : bool :=
  if String.prefix k s then true
  else match s with
       | EmptyString => false
       | String _ s' => contains k s'
       end.

(** [s.lower()] on ASCII letters. *)
Definition lower_ascii (c : ascii) : ascii :=
  let n := nat_of_ascii c in
  if (65 <=? n)%nat && (n <=? 90)%nat then ascii_of_nat (n + 32) else c.

Fixpoint lower (s : string) : string :=
  match s with
  | EmptyString => EmptyString
  | String c s' => String (lower_ascii c) (lower s')
  end.

Definition upper_ascii (c : ascii) : ascii :=
  let n := nat_of_ascii c in
  if (97 <=? n)%nat && (n <=? 122)%nat then ascii_of_nat (n - 32) else c.

(** [s.capitalize()]: first character upper case, the rest lower case. *)
Definition capitalize (s : string) : string :=
  match s with
  | EmptyString => EmptyString
  | String c s' => String (upper_ascii c) (lower s')
  end.

(** Exceptions, and the outcome of a call that may raise. *)
Inductive exn : Type :=
| ValueError (msg : string)
| TypeError (msg : string)
| JSONDecodeError (msg : string).

Inductive result (A : Type) : Type :=
| Ok (value : A)
| Raise (e : exn).
Arguments Ok {A} value.
Arguments Raise {A} e.

End Py.

(** ** Narration segments: [{"start_time", "end_time", "text"}] *)

Module Segment.
Record t : Type := Build {
  start_time : Q;
  end_time : Q;
  text : string
}.
End Segment.

(** ** Potential matches: the dictionaries built by [_select_best_matches] *)

Module Candidate.
Record t : Type := Build {
  segment_idx : nat;
  broll_id : string;
  similarity : Q;
  start_time : Q;
  end_time : Q;
  aroll_text : string;
  broll_description : string
}.
End Candidate.

(** ** Formatted matches: the dictionaries returned by [match] and read by
    the timeline planner (its [broll_matches]) *)

Module Insertion.
Record t : Type := Build {
  start_sec : Q;
  duration_sec : Q;
  broll_id : string;
  confidence : Q;
  reason : string
}.
End Insertion.

(** ** matcher.py *)

Module Matcher.

(** The fields of [SemanticMatcher] that selection reads. *)
Record SemanticMatcher : Type := {
  similarity_threshold : Q;
  min_insertions : nat;
  max_insertions : nat
}.

(** The similarity matrix, read as [similarity_matrix[seg_idx, broll_idx]];
    its shape is [(n_segments, n_brolls)] and only those cells are read. *)
Definition Matrix : Type := nat -> nat -> Q.

Definition keywords_to_check : list string :=
  [ "product"; "demo"; "demonstration"; "app"; "application";
    "office"; "work"; "working"; "code"; "coding"; "programming";
    "team"; "collaboration"; "data"; "analytics"; "visualization";
    "typing"; "keyboard"; "interface"; "screen" ]%string.

Definition _generate_reason
    (aroll_text broll_description : string) (similarity : Q) : string :=
  let strength :=
    (if Py.geb similarity 0.85 then "highly relevant"
     else if Py.geb similarity 0.75 then "relevant"
     else "somewhat relevant")%string in
  let aroll_lower := Py.lower aroll_text in
  let broll_lower := Py.lower broll_description in
  let common_keywords :=
    filter (fun keyword =>
              Py.contains keyword aroll_lower && Py.contains keyword broll_lower)
           keywords_to_check in
  match common_keywords with
  | theme :: _ =>
      Py.capitalize strength ++ " match: both mention '" ++ theme ++ "'"
  | [] => Py.capitalize strength ++ " semantic match"
  end%string.

(** The two nested [enumerate] loops that collect every pair at or above the
    threshold, in enumeration order.  In [match] the ids are the keys of
    [broll_descriptions], so the lookup of the description always succeeds. *)
Definition potential_matches (self : SemanticMatcher)
    (similarity_matrix : Matrix) (aroll_segments : list Segment.t)
    (broll_ids : list string) (broll_descriptions : Py.dict string)
  : list Candidate.t :=
  flat_map (fun '(seg_idx, segment) =>
    flat_map (fun '(broll_idx, broll_id) =>
      let similarity := similarity_matrix seg_idx broll_idx in
      if Py.geb similarity (similarity_threshold self) then
        [ {| Candidate.segment_idx := seg_idx;
             Candidate.broll_id := broll_id;
             Candidate.similarity := similarity;
             Candidate.start_time := Segment.start_time segment;
             Candidate.end_time := Segment.end_time segment;
             Candidate.aroll_text := Segment.text segment;
             Candidate.broll_description :=
               Py.get_default broll_descriptions broll_id ""%string |} ]
      else [])
      (Py.enumerate broll_ids))
    (Py.enumerate aroll_segments).

(** The local variables of the selection loops. [matches] is kept in the
    order of acceptance ([matches.append]). *)
Record Selection : Type := {
  matches : list Candidate.t;
  selected_indices : list nat;
  used_brolls : Py.dict nat;
  last_insertion_time : Q
}.

Definition initial : Selection :=
  {| matches := [];
     selected_indices := [];
     used_brolls := [];
     last_insertion_time := -10.0 |}.

(** The four statements under "Add this match". *)
Definition accept (m : Candidate.t) (st : Selection) : Selection :=
  {| matches := matches st ++ [m];
     selected_indices := Candidate.segment_idx m :: selected_indices st;
     used_brolls :=
       Py.set (used_brolls st) (Candidate.broll_id m)
              (Py.get_default (used_brolls st) (Candidate.broll_id m) 0 + 1)%nat;
     last_insertion_time := Candidate.start_time m |}.

(** First loop: [break] at [max_insertions]; [continue] on a used segment,
    on a B-roll already used twice, on a gap below 5 seconds. *)
Fixpoint pass1 (self : SemanticMatcher) (potential : list Candidate.t)
    (st : Selection) : Selection :=
  match potential with
  | [] => st
  | m :: rest =>
      if (max_insertions self <=? List.length (matches st))%nat then st
      else if Py.mem (Candidate.segment_idx m) (selected_indices st)
      then pass1 self rest st
      else if (2 <=? Py.get_default (used_brolls st) (Candidate.broll_id m) 0)%nat
      then pass1 self rest st
      else if Py.ltb (Candidate.start_time m - last_insertion_time st) 5.0
      then pass1 self rest st
      else pass1 self rest (accept m st)
  end.

(** Second loop: [break] at [min_insertions]; [continue] on a used segment,
    on a gap below 3 seconds. *)
Fixpoint pass2 (self : SemanticMatcher) (potential : list Candidate.t)
    (st : Selection) : Selection :=
  match potential with
  | [] => st
  | m :: rest =>
      if (min_insertions self <=? List.length (matches st))%nat then st
      else if Py.mem (Candidate.segment_idx m) (selected_indices st)
      then pass2 self rest st
      else if Py.ltb (Candidate.start_time m - last_insertion_time st) 3.0
      then pass2 self rest st
      else pass2 self rest (accept m st)
  end.

(** The candidates, sorted by similarity, highest first. *)
Definition sorted_potential_matches (self : SemanticMatcher)
    (similarity_matrix : Matrix) (aroll_segments : list Segment.t)
    (broll_ids : list string) (broll_descriptions : Py.dict string)
  : list Candidate.t :=
  Py.sorted_by_reverse Candidate.similarity
    (potential_matches self similarity_matrix aroll_segments
                       broll_ids broll_descriptions).

(** The state after the first loop. *)
Definition selection_pass1 (self : SemanticMatcher)
    (similarity_matrix : Matrix) (aroll_segments : list Segment.t)
    (broll_ids : list string) (broll_descriptions : Py.dict string)
  : Selection :=
  pass1 self
    (sorted_potential_matches self similarity_matrix aroll_segments
                              broll_ids broll_descriptions)
    initial.

(** The state after [if len(matches) < self.min_insertions: ...]. *)
Definition selection (self : SemanticMatcher)
    (similarity_matrix : Matrix) (aroll_segments : list Segment.t)
    (broll_ids : list string) (broll_descriptions : Py.dict string)
  : Selection :=
  let st := selection_pass1 self similarity_matrix aroll_segments
                            broll_ids broll_descriptions in
  if (List.length (matches st) <? min_insertions self)%nat then
    pass2 self
      (sorted_potential_matches self similarity_matrix aroll_segments
                                broll_ids broll_descriptions)
      st
  else st.

Definition _select_best_matches (self : SemanticMatcher)
    (similarity_matrix : Matrix) (aroll_segments : list Segment.t)
    (broll_ids : list string) (broll_descriptions : Py.dict string)
  : list Candidate.t :=
  Py.sorted_by Candidate.start_time
    (matches (selection self similarity_matrix aroll_segments
                        broll_ids broll_descriptions)).

Section Match.
(** [_calculate_similarity_matrix(_get_embeddings(aroll_texts),
    _get_embeddings(broll_texts))]: the embedding provider is an external
    service, taken here as succeeding; the comparison of a cell with the
    threshold is all that selection does with it. *)
Variable relevance : list string -> list string -> Matrix.

(** The body of the "Format output" loop. [match["segment_idx"]] comes from
    [enumerate(aroll_segments)], so the index is in range. *)
Definition format_match (aroll_segments : list Segment.t) (m : Candidate.t)
  : Insertion.t :=
  let segment :=
    nth (Candidate.segment_idx m) aroll_segments
        (Segment.Build 0 0 ""%string) in
  let duration := Segment.end_time segment - Segment.start_time segment in
  {| Insertion.start_sec := Py.round (Segment.start_time segment) 2;
     Insertion.duration_sec := Py.round duration 2;
     Insertion.broll_id := Candidate.broll_id m;
     Insertion.confidence := Py.round (Candidate.similarity m) 3;
     Insertion.reason :=
       _generate_reason (Candidate.aroll_text m)
                        (Candidate.broll_description m)
                        (Candidate.similarity m) |}.

Definition match_ (self : SemanticMatcher)
    (aroll_segments : list Segment.t) (broll_descriptions : Py.dict string)
  : Py.result (list Insertion.t) :=
  match aroll_segments, broll_descriptions with
  | [], _ => Py.Raise (Py.ValueError "A-roll segments list is empty")
  | _, [] => Py.Raise (Py.ValueError "B-roll descriptions dictionary is empty")
  | _, _ =>
      let aroll_texts := map Segment.text aroll_segments in
      let broll_ids := Py.keys broll_descriptions in
      let broll_texts :=
        map (fun b_id => Py.get_default broll_descriptions b_id ""%string)
            broll_ids in
      let similarity_matrix := relevance aroll_texts broll_texts in
      let matches :=
        _select_best_matches self similarity_matrix aroll_segments
                             broll_ids broll_descriptions in
      Py.Ok (map (format_match aroll_segments) matches)
  end.

(** The matrix that [match] hands to [_select_best_matches]. *)
Definition similarity_matrix_in_match (aroll_segments : list Segment.t)
    (broll_descriptions : Py.dict string) : Matrix :=
  relevance
    (map Segment.text aroll_segments)
    (map (fun b_id => Py.get_default broll_descriptions b_id ""%string)
         (Py.keys broll_descriptions)).
End Match.

End Matcher.

(** ** timeline.py *)

Module Timeline.

(** A timeline segment: a dictionary whose ["type"] is ["a_roll"] or
    ["b_roll"], with the keys of each kind.  [matching_segment] is a
    [{"text", "start_time", "end_time"}] dictionary or [None]. *)
Inductive TimelineSegment : Type :=
| a_roll (start_time end_time duration : Q) (source transcript : string)
| b_roll (start_time end_time duration : Q) (source insertion_reason : string)
         (confidence : Q) (matching_segment : option Segment.t).

Definition start_time (s : TimelineSegment) : Q :=
  match s with
  | a_roll st _ _ _ _ => st
  | b_roll st _ _ _ _ _ _ => st
  end.

Definition end_time (s : TimelineSegment) : Q :=
  match s with
  | a_roll _ e _ _ _ => e
  | b_roll _ e _ _ _ _ _ => e
  end.

Definition is_a_roll (s : TimelineSegment) : bool :=
  match s with a_roll _ _ _ _ _ => true | b_roll _ _ _ _ _ _ _ => false end.

Definition _get_transcript_for_range (segments : list Segment.t)
    (start_time end_time : Q) : string :=
  let relevant_segments :=
    map Segment.text
      (filter (fun seg =>
                 let seg_start := Segment.start_time seg in
                 let seg_end := Segment.end_time seg in
                 negb (Py.ltb seg_end start_time || Py.ltb end_time seg_start))
              segments) in
  String.concat " " relevant_segments.

(** The body of [for insertion in insertions], on the loop's two variables. *)
Definition step (aroll_segments : list Segment.t) (insertion : Insertion.t)
    (state : Q * list TimelineSegment) : Q * list TimelineSegment :=
  let '(current_time, timeline_segments) := state in
  let insertion_start := Insertion.start_sec insertion in
  let insertion_duration := Insertion.duration_sec insertion in
  let timeline_segments :=
    if Py.ltb current_time insertion_start then
      timeline_segments ++
      [ a_roll (Py.round current_time 2)
               (Py.round insertion_start 2)
               (Py.round (insertion_start - current_time) 2)
               "a_roll_video"
               (_get_transcript_for_range aroll_segments
                                          current_time insertion_start) ]
    else timeline_segments in
  let matching_segment :=
    find (fun seg =>
            Py.ltb (Qabs (Segment.start_time seg - insertion_start)) 0.1)
         aroll_segments in
  let timeline_segments :=
    timeline_segments ++
    [ b_roll (Py.round insertion_start 2)
             (Py.round (insertion_start + insertion_duration) 2)
             (Py.round insertion_duration 2)
             (Insertion.broll_id insertion)
             (Insertion.reason insertion)
             (Insertion.confidence insertion)
             matching_segment ] in
  (insertion_start + insertion_duration, timeline_segments).

Fixpoint loop (aroll_segments : list Segment.t) (insertions : list Insertion.t)
    (state : Q * list TimelineSegment) : Q * list TimelineSegment :=
  match insertions with
  | [] => state
  | insertion :: rest =>
      loop aroll_segments rest (step aroll_segments insertion state)
  end.

Definition _create_timeline_segments (aroll_segments : list Segment.t)
    (broll_matches : list Insertion.t) : list TimelineSegment :=
  let insertions := Py.sorted_by Insertion.start_sec broll_matches in
  match aroll_segments with
  | [] => []
  | first :: _ =>
      let total_aroll_duration := Segment.end_time (last aroll_segments first) in
      let '(current_time, timeline_segments) :=
        loop aroll_segments insertions (0.0, []) in
      let timeline_segments :=
        if Py.ltb current_time total_aroll_duration then
          timeline_segments ++
          [ a_roll (Py.round current_time 2)
                   (Py.round total_aroll_duration 2)
                   (Py.round (total_aroll_duration - current_time) 2)
                   "a_roll_video"
                   (_get_transcript_for_range aroll_segments
                                              current_time total_aroll_duration) ]
        else timeline_segments in
      let timeline_segments :=
        match insertions with
        | [] =>
            timeline_segments ++
            [ a_roll 0.0
                     (Py.round total_aroll_duration 2)
                     (Py.round total_aroll_duration 2)
                     "a_roll_video"
                     (_get_transcript_for_range aroll_segments
                                                0.0 total_aroll_duration) ]
        | _ :: _ => timeline_segments
        end in
      timeline_segments
  end.

End Timeline.

(** ** broll_analysis.py *)

Module BRollAnalysis.

(** Metadata as it reaches the analyzer: any JSON value. *)
#[warnings="-register-all"]
Inductive json : Type :=
| JNull
| JBool (b : bool)
| JNumber (x : Q)
| JString (s : string)
| JList (items : list json)
| JDict (items : list (string * json)).

Section Analyzer.
(** The file system and the JSON parser: [os.path.exists], [json.load] on
    an opened file, [json.loads]. *)
Variable path_exists : string -> bool.
Variable json_load_file : string -> Py.result json.
Variable json_loads : string -> Py.result json.

(** The two text-extraction helpers, each of which may raise on metadata
    whose values have unexpected types. *)
Variable _extract_key_fields : Py.dict json -> Py.result (Py.dict json).
Variable _build_description : Py.dict json -> Py.result string.

Definition _normalize_metadata (metadata : json) : Py.result (Py.dict json) :=
  let loaded :=
    match metadata with
    | JString s =>
        if path_exists s then json_load_file s else json_loads s
    | _ => Py.Ok metadata
    end in
  match loaded with
  | Py.Raise e => Py.Raise e
  | Py.Ok (JDict d) => Py.Ok d
  | Py.Ok _ =>
      Py.Raise (Py.ValueError
                  "Metadata must be dict, JSON string, or file path.")
  end.

Definition analyze_broll (broll_id : string) (metadata : json)
  : Py.result string :=
  match _normalize_metadata metadata with
  | Py.Raise e => Py.Raise e
  | Py.Ok normalized =>
      match _extract_key_fields normalized with
      | Py.Raise e => Py.Raise e
      | Py.Ok fields => _build_description fields
      end
  end.

(** The [for] loop of [analyze_brolls] with its [try]/[except Exception]. *)
Fixpoint analyze_loop (items : list (string * json))
    (descriptions : Py.dict string) : Py.dict string :=
  match items with
  | [] => descriptions
  | (broll_id, metadata) :: rest =>
      match analyze_broll broll_id metadata with
      | Py.Ok description =>
          analyze_loop rest (Py.set descriptions broll_id description)
      | Py.Raise _ =>
          analyze_loop rest
            (Py.set descriptions broll_id ("B-roll clip " ++ broll_id)%string)
      end
  end.

Definition analyze_brolls (broll_metadata : Py.dict json) : Py.dict string :=
  analyze_loop broll_metadata [].
End Analyzer.

End BRollAnalysis.

(** ** broll_analysis.py: the fields read from the metadata *)

Module BRollFields.
Import BRollAnalysis.

(** [bool(value)] *)
Definition truthy (value : json) : bool :=
  match value with
  | JNull => false
  | JBool b => b
  | JNumber x => negb (Qeq_bool x 0)
  | JString s => negb (String.eqb s "")
  | JList items => match items with [] => false | _ :: _ => true end
  | JDict items => match items with [] => false | _ :: _ => true end
  end.

(** [isinstance(value, (str, int, float))]; a [bool] is an [int]. *)
Definition is_scalar (value : json) : bool :=
  match value with
  | JBool _ | JNumber _ | JString _ => true
  | JNull | JList _ | JDict _ => false
  end.

Definition field_mapping : list (string * list string) :=
  [ ("title", ["title"; "name"; "clip_name"; "video_title"]);
    ("description", ["description"; "desc"; "summary"; "content"]);
    ("category", ["category"; "type"; "genre"; "tag"]);
    ("subject", ["subject"; "topic"; "theme"; "focus"]);
    ("action", ["action"; "activity"; "what"; "shows"]);
    ("location", ["location"; "place"; "setting"; "where"]);
    ("objects", ["objects"; "items"; "products"; "things"]);
    ("mood", ["mood"; "tone"; "atmosphere"; "feeling"]);
    ("tags", ["tags"; "keywords"; "labels"]) ]%string.

(** [{k.lower(): v for k, v in metadata.items()}] *)
Definition lower_step (d : Py.dict json) (item : string * json)
  : Py.dict json :=
  Py.set d (Py.lower (fst item)) (snd item).

Definition metadata_lower (metadata : Py.dict json) : Py.dict json :=
  fold_left lower_step metadata [].

(** The loop over [possible_keys]: it stops at the first key that is present
    with a truthy value. *)
Fixpoint first_value (metadata_lower : Py.dict json)
    (possible_keys : list string) : option json :=
  match possible_keys with
  | [] => None
  | key :: rest =>
      match Py.get metadata_lower (Py.lower key) with
      | Some value =>
          if truthy value then Some value
          else first_value metadata_lower rest
      | None => first_value metadata_lower rest
      end
  end.

Definition standard_step (metadata_lower : Py.dict json)
    (extracted : Py.dict json) (entry : string * list string)
  : Py.dict json :=
  match first_value metadata_lower (snd entry) with
  | Some value => Py.set extracted (fst entry) value
  | None => extracted
  end.

(** [[k.lower() for keys in field_mapping.values() for k in keys]] *)
Definition known_keys : list string :=
  flat_map (fun entry => map Py.lower (snd entry)) field_mapping.

(** The loop over the remaining fields. *)
Definition remaining_step (extracted : Py.dict json) (item : string * json)
  : Py.dict json :=
  let '(key, value) := item in
  if negb (existsb (String.eqb (Py.lower key)) known_keys) then
    if is_scalar value && truthy value then Py.set extracted key value
    else extracted
  else extracted.

Definition _extract_key_fields (metadata : Py.dict json) : Py.dict json :=
  let metadata_lower := metadata_lower metadata in
  let extracted :=
    fold_left (standard_step metadata_lower) field_mapping [] in
  fold_left remaining_step metadata extracted.

(** Where an extracted field comes from. *)
Definition standard_field (metadata : Py.dict json) (key : string)
    (value : json) : Prop :=
  exists possible_keys k,
    In (key, possible_keys) field_mapping /\
    In (k, value) metadata /\
    In (Py.lower k) possible_keys.

Definition remaining_field (metadata : Py.dict json) (key : string)
    (value : json) : Prop :=
  In (key, value) metadata /\ is_scalar value = true /\
  ~ In (Py.lower key) known_keys.

End BRollFields.

(** ** The similarity computations of matcher.py on binary64 floats

    Vectors are rows of floats.  [np.dot] and [np.linalg.norm] are summed
    left to right here; the order of summation does not matter to what is
    proved below (which cells are zero or NaN). *)

Module Relevance.

Definition dot (u v : list float) : float :=
  fold_left (fun acc xy => (acc + fst xy * snd xy)%float) (combine u v) 0%float.

(** [np.linalg.norm(v)] *)
Definition norm (v : list float) : float := PrimFloat.sqrt (dot v v).

Definition _cosine_similarity (vec1 vec2 : list float) : float :=
  let dot_product := dot vec1 vec2 in
  let norm1 := norm vec1 in
  let norm2 := norm vec2 in
  if (PrimFloat.eqb norm1 0 || PrimFloat.eqb norm2 0)%bool then 0%float
  else (dot_product / (norm1 * norm2))%float.

(** [embeddings / np.linalg.norm(embeddings, axis=1, keepdims=True)] *)
Definition normalize_rows (embeddings : list (list float)) : list (list float) :=
  map (fun row => let n := norm row in map (fun x => (x / n)%float) row)
      embeddings.

(** [np.dot(aroll_norm, broll_norm.T)] *)
Definition _calculate_similarity_matrix
    (aroll_embeddings broll_embeddings : list (list float))
  : list (list float) :=
  let aroll_norm := normalize_rows aroll_embeddings in
  let broll_norm := normalize_rows broll_embeddings in
  map (fun a => map (fun b => dot a b) broll_norm) aroll_norm.

End Relevance.

(** ** timeline.py: statistics *)

Module TimelineStatistics.
Import Timeline.

(** [seg["duration"]], [seg["source"]] *)
Definition duration (s : TimelineSegment) : Q :=
  match s with
  | a_roll _ _ d _ _ => d
  | b_roll _ _ d _ _ _ _ => d
  end.

Definition source (s : TimelineSegment) : string :=
  match s with
  | a_roll _ _ _ src _ => src
  | b_roll _ _ _ src _ _ _ => src
  end.

(** The five accumulators of the loop of [_calculate_statistics]. *)
Record Totals : Type := {
  total_duration : Q;
  aroll_duration : Q;
  broll_duration : Q;
  aroll_count : nat;
  broll_count : nat
}.

Definition zero : Totals :=
  {| total_duration := 0.0;
     aroll_duration := 0.0;
     broll_duration := 0.0;
     aroll_count := 0;
     broll_count := 0 |}.

(** The body of [for seg in timeline_segments]. *)
Definition count (acc : Totals) (seg : TimelineSegment) : Totals :=
  let duration := duration seg in
  let total := total_duration acc + duration in
  match seg with
  | a_roll _ _ _ _ _ =>
      {| total_duration := total;
         aroll_duration := aroll_duration acc + duration;
         broll_duration := broll_duration acc;
         aroll_count := aroll_count acc + 1;
         broll_count := broll_count acc |}
  | b_roll _ _ _ _ _ _ _ =>
      {| total_duration := total;
         aroll_duration := aroll_duration acc;
         broll_duration := broll_duration acc + duration;
         aroll_count := aroll_count acc;
         broll_count := broll_count acc + 1 |}
  end.

Definition totals (timeline_segments : list TimelineSegment) : Totals :=
  fold_left count timeline_segments zero.

(** [sum(m["confidence"] for m in broll_matches)] *)
Definition total_confidence (broll_matches : list Insertion.t) : Q :=
  fold_left Qplus (map Insertion.confidence broll_matches) 0.

(** [len(l)] as a number. *)
Definition len {A} (l : list A) : Q := inject_Z (Z.of_nat (List.length l)).

(** The dictionary that [_calculate_statistics] returns. *)
Record Statistics : Type := {
  stat_total_duration : Q;
  stat_original_aroll_duration : Q;
  stat_aroll_duration : Q;
  stat_broll_duration : Q;
  stat_aroll_segments : nat;
  stat_broll_insertions : nat;
  stat_broll_coverage_percent : Q;
  stat_average_confidence : Q;
  stat_total_segments : nat
}.

Definition _calculate_statistics (timeline_segments : list TimelineSegment)
    (aroll_segments : list Segment.t) (broll_matches : list Insertion.t)
  : Statistics :=
  let t := totals timeline_segments in
  let original_aroll_duration :=
    match aroll_segments with
    | [] => 0.0
    | first :: _ => Segment.end_time (last aroll_segments first)
    end in
  let avg_confidence :=
    match broll_matches with
    | [] => 0.0
    | _ :: _ => total_confidence broll_matches / len broll_matches
    end in
  {| stat_total_duration := Py.round (total_duration t) 2;
     stat_original_aroll_duration := Py.round original_aroll_duration 2;
     stat_aroll_duration := Py.round (aroll_duration t) 2;
     stat_broll_duration := Py.round (broll_duration t) 2;
     stat_aroll_segments := aroll_count t;
     stat_broll_insertions := broll_count t;
     stat_broll_coverage_percent :=
       if Py.ltb 0 (total_duration t)
       then Py.round (broll_duration t / total_duration t * 100) 1
       else 0.0;
     stat_average_confidence := Py.round avg_confidence 3;
     stat_total_segments := List.length timeline_segments |}.

(** The [statistics] of [create_timeline]: the statistics of the segments it
    has just created. *)
Definition create_timeline_statistics (aroll_segments : list Segment.t)
    (broll_matches : list Insertion.t) : Statistics :=
  _calculate_statistics
    (_create_timeline_segments aroll_segments broll_matches)
    aroll_segments broll_matches.

(** The cutaway intervals of a timeline, in order: start, end, duration,
    source, reason, confidence. *)
Definition cutaways (timeline_segments : list TimelineSegment)
  : list (Q * Q * Q * string * string * Q) :=
  flat_map (fun s =>
              match s with
              | a_roll _ _ _ _ _ => []
              | b_roll st e d src reason c _ => [(st, e, d, src, reason, c)]
              end)
           timeline_segments.

(** The cutaway that the loop of [_create_timeline_segments] builds for an
    insertion. *)
Definition cutaway_of (i : Insertion.t) : Q * Q * Q * string * string * Q :=
  (Py.round (Insertion.start_sec i) 2,
   Py.round (Insertion.start_sec i + Insertion.duration_sec i) 2,
   Py.round (Insertion.duration_sec i) 2,
   Insertion.broll_id i,
   Insertion.reason i,
   Insertion.confidence i).

(** A narration interval that does not run backwards. *)
Definition forward (s : TimelineSegment) : Prop :=
  match s with
  | a_roll st e d _ _ => st <= e /\ 0 <= d
  | b_roll _ _ _ _ _ _ _ => True
  end.

(** A cutaway interval whose [matching_segment] is one of the narration
    segments (not [None]). *)
Definition linked (aroll_segments : list Segment.t) (s : TimelineSegment)
  : Prop :=
  match s with
  | a_roll _ _ _ _ _ => True
  | b_roll _ _ _ _ _ _ matching_segment =>
      exists seg, matching_segment = Some seg /\ In seg aroll_segments
  end.

End TimelineStatistics.

(** ** transcribe.py *)

Module Transcribe.

(** A segment of the Whisper response: a dictionary (or object) whose
    ["start"], ["end"] and ["text"] may be missing. *)
Record RawSegment : Type := {
  start : option Q;
  end_ : option Q;
  text : option string
}.

(** [d.get(key, default)] on an optional field. *)
Definition get {A} (field : option A) (default : A) : A :=
  match field with Some v => v | None => default end.

Section ProcessSegments.
(** [str.strip()] *)
Variable strip : string -> string.

(** [process_segments]: [transcript_data] is the response's ["segments"]
    entry, [None] when the response has none. *)
Definition process_segments (transcript_data : option (list RawSegment))
  : list Segment.t :=
  let segments_data := get transcript_data [] in
  flat_map (fun segment =>
              let start := get (start segment) 0.0 in
              let end_ := get (end_ segment) 0.0 in
              let text := strip (get (text segment) ""%string) in
              match text with
              | EmptyString => []
              | String _ _ =>
                  [ {| Segment.start_time := Py.round start 2;
                       Segment.end_time := Py.round end_ 2;
                       Segment.text := text |} ]
              end)
           segments_data.
End ProcessSegments.

End Transcribe.

(** ** render.py: the ffmpeg command *)

Module Render.
Import Timeline.

(** [f"{n}"] for a non-negative [int]. *)
Definition int_str (n : nat) : string :=
  DecimalString.NilZero.string_of_uint (Nat.to_uint n).

(** [x in s] for a set of strings. *)
Definition mem (x : string) (s : list string) : bool :=
  existsb (String.eqb x) s.

(** [s.replace(c, "")] for a one-character [c]. *)
Fixpoint remove (c : ascii) (s : string) : string :=
  match s with
  | EmptyString => EmptyString
  | String a s' => if Ascii.eqb a c then remove c s' else String a (remove c s')
  end.

(** [f"[v{output_index}]"] *)
Definition output_label (output_index : nat) : string :=
  ("[v" ++ int_str output_index ++ "]")%string.

Section Renderer.
(** [self.ffmpeg_path], and [f"{x}"] for a [float]. *)
Variable ffmpeg_path : string.
Variable float_str : Q -> string.

(** The loop variables of [_build_overlay_filters]: [current_overlay],
    [output_index], [overlay_filters]. *)
Definition OverlayState : Type := (string * nat * list string)%type.

(** The body of its loop: A-roll segments and B-roll segments whose clip is
    not in the input map are passed over. *)
Definition overlay_step (broll_input_map : Py.dict nat)
    (state : OverlayState) (segment : TimelineSegment) : OverlayState :=
  let '(current_overlay, output_index, overlay_filters) := state in
  match segment with
  | a_roll _ _ _ _ _ => state
  | b_roll start_time _ duration broll_id _ _ _ =>
      match Py.get broll_input_map broll_id with
      | None => state
      | Some input_index =>
          let output_label := output_label output_index in
          let enable_expr :=
            ("between(t," ++ float_str start_time ++ ","
               ++ float_str (start_time + duration) ++ ")")%string in
          let overlay_filter :=
            (current_overlay ++ "[" ++ int_str input_index ++ ":v]overlay=0:0:"
               ++ "enable='" ++ enable_expr ++ "'" ++ output_label)%string in
          (output_label, (output_index + 1)%nat,
           (overlay_filters ++ [overlay_filter])%list)
      end
  end.

Definition _build_overlay_filters (timeline_segments : list TimelineSegment)
    (broll_input_map : Py.dict nat) : string * list string :=
  let '(current_overlay, _, overlay_filters) :=
    fold_left (overlay_step broll_input_map) timeline_segments
              ("[0:v]"%string, 1%nat, []) in
  (current_overlay, overlay_filters).

(** [[s for s in timeline_segments if s["type"] == "b_roll"]] *)
Definition broll_segments (timeline_segments : list TimelineSegment)
  : list TimelineSegment :=
  filter (fun s => negb (is_a_roll s)) timeline_segments.

(** The loop variables of the input loop of [_build_ffmpeg_command]: [cmd],
    [used_brolls], [broll_inputs]. *)
Definition InputState : Type :=
  (list string * list string * list string)%type.

(** Its body, on a B-roll segment: a clip with a path that was not seen
    before becomes an input. *)
Definition input_step (broll_paths : Py.dict string)
    (state : InputState) (segment : TimelineSegment) : InputState :=
  let '(cmd, used_brolls, broll_inputs) := state in
  let broll_id := TimelineStatistics.source segment in
  match Py.get broll_paths broll_id with
  | Some path =>
      if mem broll_id used_brolls then state
      else ((cmd ++ ["-i"%string; path])%list,
            broll_id :: used_brolls,
            (broll_inputs ++ [broll_id])%list)
  | None => state
  end.

(** The loop that numbers the inputs from 1. *)
Definition index_step (state : Py.dict nat * nat) (broll_id : string)
  : Py.dict nat * nat :=
  let '(broll_input_map, input_index) := state in
  (Py.set broll_input_map broll_id input_index, (input_index + 1)%nat).

Definition input_map (broll_inputs : list string) : Py.dict nat :=
  fst (fold_left index_step broll_inputs ([], 1%nat)).

(** [cmd], [used_brolls] and [broll_inputs] after the input loop. *)
Definition inputs (aroll_video_path : string) (broll_paths : Py.dict string)
    (timeline_segments : list TimelineSegment) : InputState :=
  fold_left (input_step broll_paths) (broll_segments timeline_segments)
            ([ffmpeg_path; "-i"%string; aroll_video_path], [], []).

Definition _build_ffmpeg_command (aroll_video_path : string)
    (broll_paths : Py.dict string)
    (timeline_segments : list TimelineSegment) (output_path : string)
  : list string :=
  let '(cmd, _, broll_inputs) :=
    inputs aroll_video_path broll_paths timeline_segments in
  let broll_input_map := input_map broll_inputs in
  let '(final_video_label, overlay_filters) :=
    _build_overlay_filters timeline_segments broll_input_map in
  match overlay_filters with
  | [] =>
      (cmd ++ [ "-c:v"; "libx264"; "-c:a"; "copy";
                "-map"; "0:v:0"; "-map"; "0:a:0"; "-y"; output_path ]%string)%list
  | _ :: _ =>
      let filter_complex := String.concat ";" overlay_filters in
      (cmd ++ [ "-filter_complex"; filter_complex;
                "-map"; remove "]" (remove "[" final_video_label);
                "-map"; "0:a:0";
                "-c:v"; "libx264"; "-preset"; "medium"; "-crf"; "23";
                "-c:a"; "copy"; "-y"; output_path ]%string)%list
  end.

(** The B-roll validation loop of [render]: the first B-roll segment whose
    clip has no path, or whose path does not exist, stops it. *)
Variable path_exists : string -> bool.

Inductive RenderError : Type :=
| ValueError (msg : string)
| FileNotFoundError (msg : string).

Fixpoint validate_brolls (broll_paths : Py.dict string)
    (broll_segments : list TimelineSegment) : option RenderError :=
  match broll_segments with
  | [] => None
  | segment :: rest =>
      let broll_id := TimelineStatistics.source segment in
      match Py.get broll_paths broll_id with
      | None =>
          Some (ValueError ("B-roll path not provided for " ++ broll_id)%string)
      | Some path =>
          if path_exists path then validate_brolls broll_paths rest
          else Some (FileNotFoundError ("B-roll video not found: " ++ path)%string)
      end
  end.
End Renderer.

(** The video label that the [k]-th overlay filter writes, and that the next
    one reads: the A-roll video before the first filter. *)
Definition label (k : nat) : string :=
  match k with
  | O => "[0:v]"%string
  | S _ => output_label k
  end.

(** A B-roll segment whose clip is in the input map: the segments that get
    an overlay filter. *)
Definition overlaid (broll_input_map : Py.dict nat) (s : TimelineSegment)
  : bool :=
  match s with
  | a_roll _ _ _ _ _ => false
  | b_roll _ _ _ broll_id _ _ _ =>
      match Py.get broll_input_map broll_id with
      | Some _ => true
      | None => false
      end
  end.

(** The ["-i", path] arguments of a list of clips. *)
Definition input_arguments (broll_paths : Py.dict string)
    (broll_inputs : list string) : list string :=
  flat_map (fun broll_id =>
              ["-i"%string; Py.get_default broll_paths broll_id ""%string])
           broll_inputs.

(** A B-roll segment whose clip has a file path. *)
Definition with_path (broll_paths : Py.dict string) (s : TimelineSegment)
  : bool :=
  negb (is_a_roll s) &&
  match Py.get broll_paths (TimelineStatistics.source s) with
  | Some _ => true
  | None => false
  end.

(** What the input loop keeps: [used_brolls] and [broll_inputs] hold the same
    clips, none twice, each with a path, and [cmd] is [base] followed by
    their ["-i", path] arguments. *)
Definition input_invariant (broll_paths : Py.dict string)
    (base : list string) (state : InputState) : Prop :=
  let '(cmd, used_brolls, broll_inputs) := state in
  (forall id, In id used_brolls <-> In id broll_inputs) /\
  NoDup broll_inputs /\
  Forall (fun id => Py.get broll_paths id <> None) broll_inputs /\
  cmd = (base ++ input_arguments broll_paths broll_inputs)%list.

(** What the overlay loop keeps: [output_index] is one more than the number
    of filters, [current_overlay] is the label the last filter wrote, and
    the [k]-th filter reads label [k] and writes label [k + 1]. *)
Definition overlay_invariant (state : OverlayState) : Prop :=
  let '(current_overlay, output_index, overlay_filters) := state in
  output_index = S (List.length overlay_filters) /\
  current_overlay = label (List.length overlay_filters) /\
  forall k, (k < List.length overlay_filters)%nat ->
    exists body,
      nth_error overlay_filters k
      = Some (label k ++ body ++ output_label (S k))%string.

End Render.

(** * Vocabulary of the specification *)

Module Spec.

(** The number of accepted insertions that show clip [clip_id]. *)
Definition uses (clip_id : string) (accepted : list Candidate.t) : nat :=
  count_occ string_dec (map Candidate.broll_id accepted) clip_id.

(** The running "last insertion time" once [accepted] have been accepted, in
    that order: the start of the most recent one, [-10.0] before the first. *)
Definition last_insertion_time_after (accepted : list Candidate.t) : Q :=
  last (map Candidate.start_time accepted) (-10.0).

(** Each acceptance of [added], in order, starts at least [gap] after the
    running last-insertion time, which is [t] before the first of them. *)
Fixpoint gaps_from (t gap : Q) (added : list Candidate.t) : Prop :=
  match added with
  | [] => True
  | m :: rest =>
      gap <= Candidate.start_time m - t /\
      gaps_from (Candidate.start_time m) gap rest
  end.

(** Each interval starts where the one before it ends. *)
Fixpoint contiguous (l : list Timeline.TimelineSegment) : Prop :=
  match l with
  | [] => True
  | a :: rest =>
      match rest with
      | [] => True
      | b :: _ => Timeline.start_time b == Timeline.end_time a
      end /\ contiguous rest
  end.

(** The intervals tile [[0, total]]: the first starts at 0, they are
    contiguous, and the last ends at [total]. *)
Definition tiles (total : Q) (l : list Timeline.TimelineSegment) : Prop :=
  match l with
  | [] => False
  | first :: _ =>
      Timeline.start_time first == 0 /\
      contiguous l /\
      Timeline.end_time (last l first) == total
  end.

Definition insertion_end (i : Insertion.t) : Q :=
  Insertion.start_sec i + Insertion.duration_sec i.

(** In the given order each insertion ends no later than the next starts. *)
Fixpoint chronological (l : list Insertion.t) : Prop :=
  match l with
  | [] => True
  | a :: rest =>
      match rest with
      | [] => True
      | b :: _ => insertion_end a <= Insertion.start_sec b
      end /\ chronological rest
  end.

(** Non-overlapping insertions: taken by start time, each one ends no later
    than the next one starts. *)
Definition non_overlapping (l : list Insertion.t) : Prop :=
  chronological (Py.sorted_by Insertion.start_sec l).

(** Two insertions do not overlap: one ends no later than the other
    starts. *)
Definition disjoint (a b : Insertion.t) : Prop :=
  insertion_end a <= Insertion.start_sec b \/
  insertion_end b <= Insertion.start_sec a.

(** Every insertion lies within [[0, total]]. *)
Definition contained (total : Q) (l : list Insertion.t) : Prop :=
  Forall (fun i => 0 <= Insertion.start_sec i /\ insertion_end i <= total) l.

(** The end time of the last narration segment. *)
Definition total_duration (aroll_segments : list Segment.t) : Q :=
  Segment.end_time (last aroll_segments (Segment.Build 0 0 ""%string)).

End Spec.

(** * Concrete inputs *)

Module Examples.

(** The default configuration of [SemanticMatcher]. *)
Definition default_matcher : Matcher.SemanticMatcher :=
  {| Matcher.similarity_threshold := 0.72;
     Matcher.min_insertions := 3;
     Matcher.max_insertions := 6 |}.

(** Three narration segments of ten seconds each. *)
Definition three_segments : list Segment.t :=
  [ Segment.Build 0.0 10.0 "our product";
    Segment.Build 10.0 20.0 "a short demo";
    Segment.Build 20.0 30.0 "the new interface" ]%string.

(** One clip, matching the three segments with decreasing similarity. *)
Definition one_clip : Py.dict string :=
  [ ("broll_1", "Product demo of the interface") ]%string.

Definition one_clip_matrix : Matcher.Matrix :=
  fun seg_idx _ =>
    match seg_idx with
    | 0%nat => 0.9
    | 1%nat => 0.8
    | _ => 0.75
    end.

(** A relevance matrix with every cell at 0.5. *)
Definition low_matrix : Matcher.Matrix := fun _ _ => 0.5.

(** The ten narration segments of [example_timeline_usage.py], spanning
    0.0 to 40.2 seconds. *)
Definition ten_segments : list Segment.t :=
  [ Segment.Build 0.0 3.5 "Welcome to today's tutorial on smart video editing.";
    Segment.Build 3.5 7.2 "We'll be exploring how AI can help.";
    Segment.Build 7.2 11.8 "First, let's understand what makes a good B-roll clip.";
    Segment.Build 11.8 15.4 "B-roll should complement your main content.";
    Segment.Build 15.4 19.1 "Now, let's see how our system analyzes your A-roll content.";
    Segment.Build 19.1 23.7 "The AI identifies natural pause points.";
    Segment.Build 23.7 27.3 "This allows for seamless B-roll insertion.";
    Segment.Build 27.3 31.0 "Let's take a look at the product demonstration.";
    Segment.Build 31.0 35.6 "As you can see, the interface is intuitive.";
    Segment.Build 35.6 40.2 "The timeline view shows each B-roll clip." ]%string.

(** Its three insertions. *)
Definition three_insertions : list Insertion.t :=
  [ Insertion.Build 27.3 3.7 "broll_1" 0.856
      "Highly relevant match: both mention 'product'";
    Insertion.Build 31.0 4.6 "broll_1" 0.823
      "Highly relevant match: both mention 'interface'";
    Insertion.Build 35.6 4.6 "broll_4" 0.791
      "Relevant match: both mention 'analytics'" ]%string.

(** One segment that ends at 1.234 seconds, and one insertion inside it. *)
Definition fine_segment : list Segment.t :=
  [ Segment.Build 0.0 1.234 "a short remark" ]%string.

Definition fine_insertion : list Insertion.t :=
  [ Insertion.Build 0.5 0.2 "broll_1" 0.9 "Highly relevant semantic match" ]%string.

(** A batch of three clips: a metadata dictionary, a JSON list (not a
    dictionary), and a string that is neither a path nor JSON. *)
Definition batch : Py.dict BRollAnalysis.json :=
  [ ("broll_1",
     BRollAnalysis.JDict
       [ ("title", BRollAnalysis.JString "Product Close-up") ]);
    ("broll_2", BRollAnalysis.JList []);
    ("broll_3", BRollAnalysis.JString "not json") ]%string.

(** A file system without files, a parser that rejects its input, and
    helpers that keep the fields and read the title. *)
Definition no_file (path : string) : bool := false.

Definition rejecting_parser (text : string) : Py.result BRollAnalysis.json :=
  Py.Raise (Py.JSONDecodeError "Expecting value").

Definition keep_fields (metadata : Py.dict BRollAnalysis.json)
  : Py.result (Py.dict BRollAnalysis.json) :=
  Py.Ok metadata.

Definition title_only (fields : Py.dict BRollAnalysis.json) : Py.result string :=
  match Py.get fields "title" with
  | Some (BRollAnalysis.JString title) => Py.Ok title
  | _ => Py.Ok "B-roll video clip"%string
  end.

(** Two narration embeddings, the first of them the zero vector, and two
    clip embeddings, the second of them the zero vector. *)
Definition aroll_embeddings : list (list float) :=
  [ [0; 0]; [3; 4] ]%float.

Definition broll_embeddings : list (list float) :=
  [ [1; 0]; [0; 0] ]%float.

(** A configuration that asks for at least two insertions. *)
Definition two_to_six : Matcher.SemanticMatcher :=
  {| Matcher.similarity_threshold := 0.72;
     Matcher.min_insertions := 2;
     Matcher.max_insertions := 6 |}.

(** [strip] on the ASCII space: enough for the examples below. *)
Fixpoint lstrip (s : string) : string :=
  match s with
  | String " " s' => lstrip s'
  | _ => s
  end.

Fixpoint rstrip (s : string) : string :=
  match s with
  | EmptyString => EmptyString
  | String c s' =>
      match rstrip s' with
      | EmptyString => if Ascii.eqb c " " then EmptyString else String c EmptyString
      | rest => String c rest
      end
  end.

Definition strip_spaces (s : string) : string := rstrip (lstrip s).

(** A Whisper response with a blank segment between two spoken ones. *)
Definition whisper_response : option (list Transcribe.RawSegment) :=
  Some [ {| Transcribe.start := Some 0.0;
            Transcribe.end_ := Some 3.4800000000000004;
            Transcribe.text := Some " Welcome to the tutorial. "%string |};
         {| Transcribe.start := Some 3.48;
            Transcribe.end_ := Some 4.0;
            Transcribe.text := Some "   "%string |};
         {| Transcribe.start := Some 4.0;
            Transcribe.end_ := Some 9.126;
            Transcribe.text := Some " Here is the product."%string |} ].

(** One insertion inside the first transcribed segment. *)
Definition early_insertion : list Insertion.t :=
  [ Insertion.Build 0.0 3.48 "broll_1" 0.9 "Highly relevant semantic match" ]%string.

(** A timeline with one cutaway, the file of its clip, and [f"{x}"] on whole
    numbers of seconds. *)
Definition cutaway_timeline : list Timeline.TimelineSegment :=
  [ Timeline.a_roll 0.0 10.0 10.0 "a_roll_video" "our product";
    Timeline.b_roll 10.0 20.0 10.0 "broll_1" "Highly relevant semantic match"
                    0.8 None;
    Timeline.a_roll 20.0 30.0 10.0 "a_roll_video" "the new interface" ]%string.

Definition clip_files : Py.dict string :=
  [ ("broll_1", "brolls/broll_1.mp4") ]%string.

Definition whole_seconds (x : Q) : string :=
  (Render.int_str (Z.to_nat (Qfloor x)) ++ ".0")%string.

(** The metadata of a clip, with a name in capitals, a free field and an
    empty mood. *)
Definition office_metadata : Py.dict BRollAnalysis.json :=
  [ ("Name", BRollAnalysis.JString "Office Environment");
    ("location", BRollAnalysis.JString "office");
    ("mood", BRollAnalysis.JString "");
    ("fps", BRollAnalysis.JNumber 30) ]%string.

End Examples.

(** * Invariants of the loops *)

Module Invariants.
Import Matcher Timeline.

(** What a loop adds: candidates of the list it walks, appended to the
    earlier acceptances, each at least [gap] after the running
    last-insertion time. *)
Definition adds (gap : Q) (potential : list Candidate.t)
    (st st' : Selection) (added : list Candidate.t) : Prop :=
  matches st' = matches st ++ added /\
  incl added potential /\
  Spec.gaps_from (last_insertion_time st) gap added /\
  last_insertion_time st' =
    last (map Candidate.start_time added) (last_insertion_time st).

(** [used_brolls] counts the accepted uses of each clip. *)
Definition counted (st : Selection) : Prop :=
  forall clip_id,
    Py.get_default (used_brolls st) clip_id 0%nat
    = Spec.uses clip_id (matches st).

(** [covers a b l]: [l] is a non-empty contiguous run of intervals from [a]
    to [b]. *)
Definition covers (a b : Q) (l : list TimelineSegment) : Prop :=
  match l with
  | [] => False
  | first :: _ =>
      start_time first == a /\
      Spec.contiguous l /\
      end_time (last l first) == b
  end.

(** The loop invariant: nothing emitted yet with the cursor at 0, or the
    emitted intervals run from 0 to the (rounded) cursor. *)
Definition invariant (state : Q * list TimelineSegment) : Prop :=
  (snd state = [] /\ fst state == 0) \/
  covers 0 (Py.round (fst state) 2) (snd state).

(** The cursor does not pass the start of the next insertion. *)
Definition ready (current_time : Q) (insertions : list Insertion.t) : Prop :=
  match insertions with
  | [] => True
  | i :: _ => current_time <= Insertion.start_sec i
  end.

(** What one turn of the loop of [analyze_brolls] stores for a clip: the
    description, or the placeholder when the analysis raises. *)
Definition stored (path_exists : string -> bool)
    (json_load_file json_loads : string -> Py.result BRollAnalysis.json)
    (_extract_key_fields :
       Py.dict BRollAnalysis.json -> Py.result (Py.dict BRollAnalysis.json))
    (_build_description : Py.dict BRollAnalysis.json -> Py.result string)
    (broll_id : string) (metadata : BRollAnalysis.json) : string :=
  match
    BRollAnalysis.analyze_broll path_exists json_load_file json_loads
      _extract_key_fields _build_description broll_id metadata
  with
  | Py.Ok description => description
  | Py.Raise _ => ("B-roll clip " ++ broll_id)%string
  end.

End Invariants.

(** * Further invariants of the selection loops *)

Module SelectionInvariants.
Import Matcher.

(** [selected_indices] holds exactly the segment indices of the accepted
    candidates, and no index is accepted twice. *)
Definition indexed (st : Selection) : Prop :=
  NoDup (map Candidate.segment_idx (matches st)) /\
  (forall i : nat,
      Py.mem i (selected_indices st) = true
      <-> In i (map Candidate.segment_idx (matches st))).

End SelectionInvariants.

(** * Invariants of the timeline on times in whole hundredths *)

Module TimelineInvariants.

(** A time that is a whole number of hundredths of a second, as
    [round(x, 2)] returns it. *)
Definition hundredths (x : Q) : Prop := exists k : Z, x == k # 100.

(** An insertion whose start and duration are whole hundredths, as [match]
    returns them. *)
Definition rounded (i : Insertion.t) : Prop :=
  hundredths (Insertion.start_sec i) /\ hundredths (Insertion.duration_sec i).

(** The invariant of the loop of [_create_timeline_segments] on times in
    whole hundredths: the durations emitted so far add up to the cursor. *)
Definition measured (state : Q * list Timeline.TimelineSegment) : Prop :=
  hundredths (fst state) /\
  TimelineStatistics.total_duration (TimelineStatistics.totals (snd state))
  == fst state.

(** A narration as Whisper segments it: times in whole hundredths, no
    segment starting before 0, each of positive length and ending no later
    than the segments after it start. *)
Definition narration (aroll_segments : list Segment.t) : Prop :=
  Forall (fun s => hundredths (Segment.start_time s) /\
                   hundredths (Segment.end_time s) /\
                   0 <= Segment.start_time s /\
                   Segment.start_time s < Segment.end_time s)
         aroll_segments /\
  StronglySorted (fun a b => Segment.end_time a <= Segment.start_time b)
                 aroll_segments.

End TimelineInvariants.

(** * Properties *)

(** ** Facts about the Python layer *)

Module PyFacts.

Lemma ltb_lt (x y : Q) : Py.ltb x y = true <-> x < y.
Proof.
  unfold Py.ltb. rewrite negb_true_iff.
  split; intro H.
  - apply Qnot_le_lt. intro Hle. apply Qle_bool_iff in Hle. congruence.
  - destruct (Qle_bool y x) eqn:E; [|reflexivity].
    apply Qle_bool_iff in E. lra.
Qed.

Lemma ltb_ge (x y : Q) : Py.ltb x y = false <-> y <= x.
Proof.
  unfold Py.ltb. rewrite negb_false_iff. apply Qle_bool_iff.
Qed.

Lemma geb_le (x y : Q) : Py.geb x y = true <-> y <= x.
Proof. apply Qle_bool_iff. Qed.

Lemma geb_lt (x y : Q) : Py.geb x y = false <-> x < y.
Proof.
  unfold Py.geb. split; intro H.
  - apply Qnot_le_lt. intro Hle. apply Qle_bool_iff in Hle. congruence.
  - destruct (Qle_bool y x) eqn:E; [|reflexivity].
    apply Qle_bool_iff in E. lra.
Qed.

Section Sort.
Context {A : Type} (before : A -> A -> bool).

Lemma insert_perm (x : A) (l : list A) :
  Permutation (Py.insert before x l) (x :: l).
Proof.
  induction l as [|y ys IH]; simpl.
  - apply Permutation_refl.
  - destruct (before y x).
    + eapply perm_trans; [apply perm_skip, IH | apply perm_swap].
    + apply Permutation_refl.
Qed.

Lemma sort_perm (l : list A) : Permutation (Py.sort before l) l.
Proof.
  induction l as [|x xs IH]; simpl.
  - apply perm_nil.
  - eapply perm_trans; [apply insert_perm | apply perm_skip, IH].
Qed.

Lemma sort_length (l : list A) :
  List.length (Py.sort before l) = List.length l.
Proof. apply Permutation_length, sort_perm. Qed.

Lemma sort_In (x : A) (l : list A) : In x (Py.sort before l) <-> In x l.
Proof.
  split; apply Permutation_in;
    [apply sort_perm | apply Permutation_sym, sort_perm].
Qed.

Lemma sort_nil (l : list A) : Py.sort before l = [] <-> l = [].
Proof.
  split; intro H.
  - apply length_zero_iff_nil. rewrite <- sort_length, H. reflexivity.
  - subst. reflexivity.
Qed.
End Sort.

(** *** Rounding *)

Lemma round_half_even_error (x : Q) :
  Qabs (inject_Z (Py.round_half_even x) - x) <= 1 # 2.
Proof.
  unfold Py.round_half_even.
  pose proof (Qfloor_le x) as Hlo.
  pose proof (Qlt_floor x) as Hhi.
  rewrite inject_Z_plus in Hhi. change (inject_Z 1) with 1 in Hhi.
  apply Qabs_Qle_condition.
  destruct (Py.ltb (x - inject_Z (Qfloor x)) (1 # 2)) eqn:E1.
  - apply ltb_lt in E1. lra.
  - apply ltb_ge in E1.
    destruct (Py.ltb (1 # 2) (x - inject_Z (Qfloor x))) eqn:E2.
    + rewrite inject_Z_plus. change (inject_Z 1) with 1. lra.
    + apply ltb_ge in E2.
      destruct (Z.even (Qfloor x)).
      * lra.
      * rewrite inject_Z_plus. change (inject_Z 1) with 1. lra.
Qed.

Lemma round_half_even_mono (x y : Q) :
  x <= y -> (Py.round_half_even x <= Py.round_half_even y)%Z.
Proof.
  intro Hxy.
  pose proof (Qfloor_resp_le x y Hxy) as Hfl.
  assert (Hx : (Qfloor x <= Py.round_half_even x <= Qfloor x + 1)%Z).
  { unfold Py.round_half_even.
    destruct (Py.ltb _ _); [lia|].
    destruct (Py.ltb _ _); [lia|].
    destruct (Z.even _); lia. }
  assert (Hy : (Qfloor y <= Py.round_half_even y <= Qfloor y + 1)%Z).
  { unfold Py.round_half_even.
    destruct (Py.ltb _ _); [lia|].
    destruct (Py.ltb _ _); [lia|].
    destruct (Z.even _); lia. }
  destruct (Z.eq_dec (Qfloor x) (Qfloor y)) as [Heq|Hne]; [|lia].
  clear Hx Hy Hfl.
  unfold Py.round_half_even. rewrite <- Heq.
  destruct (Py.ltb (x - inject_Z (Qfloor x)) (1 # 2)) eqn:X1.
  - destruct (Py.ltb (y - _) _); [lia|].
    destruct (Py.ltb _ (y - _)); [lia|].
    destruct (Z.even _); lia.
  - apply ltb_ge in X1.
    destruct (Py.ltb (y - inject_Z (Qfloor x)) (1 # 2)) eqn:Y1.
    { apply ltb_lt in Y1. lra. }
    destruct (Py.ltb (1 # 2) (x - inject_Z (Qfloor x))) eqn:X2.
    + apply ltb_lt in X2.
      destruct (Py.ltb (1 # 2) (y - inject_Z (Qfloor x))) eqn:Y2; [lia|].
      apply ltb_ge in Y2. lra.
    + destruct (Py.ltb (1 # 2) (y - inject_Z (Qfloor x))) eqn:Y2.
      * destruct (Z.even _); lia.
      * lia.
Qed.

Lemma pow10_pos (n : nat) : 0 < inject_Z (10 ^ Z.of_nat n).
Proof.
  change 0 with (inject_Z 0). rewrite <- Zlt_Qlt.
  apply Z.pow_pos_nonneg; lia.
Qed.

(** The result of [round(x, n)] is a whole number of units [10^-n]. *)
Lemma round_decimal (x : Q) (n : nat) :
  Py.round x n * inject_Z (10 ^ Z.of_nat n)
  == inject_Z (Py.round_half_even (x * inject_Z (10 ^ Z.of_nat n))).
Proof.
  unfold Py.round. cbv zeta.
  pose proof (pow10_pos n) as Hp.
  field. lra.
Qed.

(** [round(x, n)] is within half a unit of [x]. *)
Lemma round_error (x : Q) (n : nat) :
  Qabs (Py.round x n - x) <= (1 # 2) / inject_Z (10 ^ Z.of_nat n).
Proof.
  pose proof (pow10_pos n) as Hp.
  pose proof (round_half_even_error (x * inject_Z (10 ^ Z.of_nat n))) as He.
  pose proof (round_decimal x n) as Hd.
  set (p := inject_Z (10 ^ Z.of_nat n)) in *.
  rewrite <- Hd in He.
  apply Qle_shift_div_l; [exact Hp|].
  assert (Hm : Qabs (Py.round x n - x) * p == Qabs (Py.round x n * p - x * p)).
  { rewrite <- (Qabs_pos p) at 1 by lra.
    rewrite <- Qabs_Qmult. apply Qabs_wd. ring. }
  rewrite Hm. exact He.
Qed.

Lemma round_mono (x y : Q) (n : nat) :
  x <= y -> Py.round x n <= Py.round y n.
Proof.
  intro Hxy. unfold Py.round. cbv zeta.
  pose proof (pow10_pos n) as Hp.
  set (p := inject_Z (10 ^ Z.of_nat n)) in *.
  apply Qle_shift_div_l; [exact Hp|].
  assert (Hc : inject_Z (Py.round_half_even (x * p)) / p * p
               == inject_Z (Py.round_half_even (x * p))) by (field; lra).
  rewrite Hc. rewrite <- Zle_Qle.
  apply round_half_even_mono.
  apply Qmult_le_compat_r; lra.
Qed.

Lemma round_comp (x y : Q) (n : nat) :
  x == y -> Py.round x n == Py.round y n.
Proof.
  intro H. apply Qle_antisym; apply round_mono; lra.
Qed.

Lemma round_2 (x : Q) :
  Qabs (Py.round x 2 - x) <= 0.005 /\
  exists k : Z, Py.round x 2 == k # 100.
Proof.
  split.
  - pose proof (round_error x 2) as H.
    assert (E : (1 # 2) / inject_Z (10 ^ Z.of_nat 2) == 0.005) by reflexivity.
    rewrite E in H. exact H.
  - exists (Py.round_half_even (x * inject_Z (10 ^ Z.of_nat 2))).
    unfold Py.round. cbv zeta.
    generalize (Py.round_half_even (x * inject_Z (10 ^ Z.of_nat 2))). intro k.
    change (inject_Z (10 ^ Z.of_nat 2)) with (100 # 1).
    unfold Qeq, Qdiv, Qmult, Qinv, inject_Z. simpl. lia.
Qed.

Lemma round_3 (x : Q) :
  Qabs (Py.round x 3 - x) <= 0.0005 /\
  exists k : Z, Py.round x 3 == k # 1000.
Proof.
  split.
  - pose proof (round_error x 3) as H.
    assert (E : (1 # 2) / inject_Z (10 ^ Z.of_nat 3) == 0.0005) by reflexivity.
    rewrite E in H. exact H.
  - exists (Py.round_half_even (x * inject_Z (10 ^ Z.of_nat 3))).
    unfold Py.round. cbv zeta.
    generalize (Py.round_half_even (x * inject_Z (10 ^ Z.of_nat 3))). intro k.
    change (inject_Z (10 ^ Z.of_nat 3)) with (1000 # 1).
    unfold Qeq, Qdiv, Qmult, Qinv, inject_Z. simpl. lia.
Qed.

Lemma Qfloor_shift (x : Q) (z : Z) :
  Qfloor (x + inject_Z z) = (Qfloor x + z)%Z.
Proof.
  pose proof (Qfloor_le x) as Hlo.
  pose proof (Qlt_floor x) as Hhi.
  pose proof (Qfloor_le (x + inject_Z z)) as Hlo'.
  pose proof (Qlt_floor (x + inject_Z z)) as Hhi'.
  rewrite inject_Z_plus in Hhi, Hhi'. change (inject_Z 1) with 1 in Hhi, Hhi'.
  assert (H1 : inject_Z (Qfloor (x + inject_Z z)) < inject_Z (Qfloor x + z + 1)).
  { rewrite !inject_Z_plus. change (inject_Z 1) with 1. lra. }
  assert (H2 : inject_Z (Qfloor x + z) < inject_Z (Qfloor (x + inject_Z z) + 1)).
  { rewrite !inject_Z_plus. change (inject_Z 1) with 1. lra. }
  rewrite <- Zlt_Qlt in H1, H2. lia.
Qed.

(** Rounding to the nearest integer, ties to even, commutes with adding an
    even integer. *)
Lemma round_half_even_shift (x : Q) (k : Z) :
  Py.round_half_even (x + inject_Z (2 * k))
  = (Py.round_half_even x + 2 * k)%Z.
Proof.
  unfold Py.round_half_even. rewrite Qfloor_shift.
  assert (E : x + inject_Z (2 * k) - inject_Z (Qfloor x + 2 * k)
              == x - inject_Z (Qfloor x)).
  { rewrite inject_Z_plus. ring. }
  unfold Py.ltb. rewrite !E.
  replace (Z.even (Qfloor x + 2 * k)) with (Z.even (Qfloor x))
    by (rewrite Z.even_add_mul_2; reflexivity).
  destruct (Qle_bool (1 # 2) (x - inject_Z (Qfloor x))); simpl; [|reflexivity].
  destruct (Qle_bool (x - inject_Z (Qfloor x)) (1 # 2)); simpl; [|lia].
  destruct (Z.even (Qfloor x)); lia.
Qed.

(** A gap that is an even number of units [10^-n] survives rounding to [n]
    decimals. *)
Lemma round_gap (a b gap : Q) (n : nat) (k : Z) :
  gap * inject_Z (10 ^ Z.of_nat n) == inject_Z (2 * k) ->
  gap <= a - b ->
  gap <= Py.round a n - Py.round b n.
Proof.
  intros Hk Hgap.
  assert (Hm : Py.round (b + gap) n <= Py.round a n)
    by (apply round_mono; lra).
  assert (Hs : Py.round (b + gap) n == Py.round b n + gap).
  { pose proof (pow10_pos n) as Hp.
    unfold Py.round. cbv zeta.
    set (p := inject_Z (10 ^ Z.of_nat n)) in *.
    assert (E : (b + gap) * p == b * p + inject_Z (2 * k))
      by (rewrite <- Hk; ring).
    assert (E' : Py.round_half_even ((b + gap) * p)
                 = Py.round_half_even (b * p + inject_Z (2 * k))).
    { apply Z.le_antisymm; apply round_half_even_mono; lra. }
    rewrite E', round_half_even_shift, inject_Z_plus, <- Hk.
    field. lra. }
  lra.
Qed.

Lemma round_2_gap_5 (a b : Q) :
  5.0 <= a - b -> 5.0 <= Py.round a 2 - Py.round b 2.
Proof. apply (round_gap a b 5.0 2 250). reflexivity. Qed.

Lemma round_2_gap_3 (a b : Q) :
  3.0 <= a - b -> 3.0 <= Py.round a 2 - Py.round b 2.
Proof. apply (round_gap a b 3.0 2 150). reflexivity. Qed.

(** *** Dictionaries *)

Lemma get_set_same {V} (d : Py.dict V) (k : string) (v : V) :
  Py.get (Py.set d k v) k = Some v.
Proof.
  induction d as [|[k' v'] d IH]; simpl.
  - rewrite String.eqb_refl. reflexivity.
  - destruct (String.eqb k' k) eqn:E; simpl; rewrite E; [reflexivity | exact IH].
Qed.

Lemma get_set_other {V} (d : Py.dict V) (k k' : string) (v : V) :
  k <> k' -> Py.get (Py.set d k v) k' = Py.get d k'.
Proof.
  intro Hne. induction d as [|[k0 v0] d IH]; simpl.
  - destruct (String.eqb k k') eqn:E; [|reflexivity].
    apply String.eqb_eq in E. contradiction.
  - destruct (String.eqb k0 k) eqn:E; simpl.
    + apply String.eqb_eq in E. subst k0.
      destruct (String.eqb k k') eqn:E'; [|reflexivity].
      apply String.eqb_eq in E'. contradiction.
    + destruct (String.eqb k0 k'); [reflexivity | exact IH].
Qed.

Lemma get_None {V} (d : Py.dict V) (k : string) :
  Py.get d k = None <-> ~ In k (Py.keys d).
Proof.
  induction d as [|[k' v'] d IH]; simpl.
  - tauto.
  - destruct (String.eqb k' k) eqn:E.
    + apply String.eqb_eq in E. split; [discriminate | intro H; tauto].
    + apply String.eqb_neq in E. rewrite IH. tauto.
Qed.

Lemma keys_set_new {V} (d : Py.dict V) (k : string) (v : V) :
  ~ In k (Py.keys d) -> Py.keys (Py.set d k v) = Py.keys d ++ [k].
Proof.
  induction d as [|[k' v'] d IH]; simpl; intro H.
  - reflexivity.
  - destruct (String.eqb k' k) eqn:E.
    + apply String.eqb_eq in E. tauto.
    + simpl. f_equal. apply IH. tauto.
Qed.

End PyFacts.

(** ** Facts about the selection loops *)

Module MatcherFacts.
Import Matcher Invariants.

Lemma last_cons {A} (a d : A) (l : list A) : last (a :: l) d = last l a.
Proof.
  revert a d. induction l as [|b l IH]; intros a d.
  - reflexivity.
  - change (last (a :: b :: l) d) with (last (b :: l) d).
    rewrite (IH b d), (IH b a). reflexivity.
Qed.

Lemma last_app_cons {A} (l1 l2 : list A) (a d : A) :
  last (l1 ++ a :: l2) d = last l2 a.
Proof.
  revert d. induction l1 as [|b l1 IH]; intro d.
  - apply last_cons.
  - simpl app. rewrite last_cons. apply IH.
Qed.

Section Loops.
Variable self : SemanticMatcher.

(** A loop that has stopped at its bound stays stopped: walking a list is
    walking its two halves one after the other. *)
Lemma pass1_app (pre rest : list Candidate.t) (st : Selection) :
  pass1 self (pre ++ rest) st = pass1 self rest (pass1 self pre st).
Proof.
  revert st. induction pre as [|m pre IH]; intro st; simpl.
  - reflexivity.
  - destruct (max_insertions self <=? List.length (matches st))%nat eqn:E.
    + destruct rest; simpl; [reflexivity | rewrite E; reflexivity].
    + repeat match goal with
             | |- context [if ?c then _ else _] => destruct c
             end; apply IH.
Qed.

Lemma pass2_app (pre rest : list Candidate.t) (st : Selection) :
  pass2 self (pre ++ rest) st = pass2 self rest (pass2 self pre st).
Proof.
  revert st. induction pre as [|m pre IH]; intro st; simpl.
  - reflexivity.
  - destruct (min_insertions self <=? List.length (matches st))%nat eqn:E.
    + destruct rest; simpl; [reflexivity | rewrite E; reflexivity].
    + repeat match goal with
             | |- context [if ?c then _ else _] => destruct c
             end; apply IH.
Qed.


Lemma adds_nothing (gap : Q) (potential : list Candidate.t) (st : Selection) :
  adds gap potential st st [].
Proof.
  repeat split; simpl.
  - symmetry. apply app_nil_r.
  - apply incl_nil_l.
Qed.

Lemma adds_skip (gap : Q) (m : Candidate.t) (rest : list Candidate.t)
    (st st' : Selection) (added : list Candidate.t) :
  adds gap rest st st' added -> adds gap (m :: rest) st st' added.
Proof.
  intros (Hm & Hi & Hg & Hl). repeat split; auto.
  apply incl_tl, Hi.
Qed.

Lemma adds_accept (gap : Q) (m : Candidate.t) (rest : list Candidate.t)
    (st st' : Selection) (added : list Candidate.t) :
  gap <= Candidate.start_time m - last_insertion_time st ->
  adds gap rest (accept m st) st' added ->
  adds gap (m :: rest) st st' (m :: added).
Proof.
  intros Hgap (Hm & Hi & Hg & Hl). simpl in *. repeat split.
  - rewrite Hm, <- app_assoc. reflexivity.
  - apply incl_cons; [left; reflexivity | apply incl_tl, Hi].
  - exact Hgap.
  - exact Hg.
  - rewrite Hl. symmetry. apply last_cons.
Qed.

Lemma pass1_adds (potential : list Candidate.t) (st : Selection) :
  exists added, adds 5.0 potential st (pass1 self potential st) added.
Proof.
  revert st. induction potential as [|m rest IH]; intro st; cbn [pass1].
  - exists []. apply adds_nothing.
  - destruct (max_insertions self <=? _)%nat.
    { exists []. apply adds_nothing. }
    destruct (Py.mem _ _).
    { destruct (IH st) as [added H]. exists added. apply adds_skip, H. }
    destruct (2 <=? _)%nat.
    { destruct (IH st) as [added H]. exists added. apply adds_skip, H. }
    destruct (Py.ltb _ _) eqn:G.
    { destruct (IH st) as [added H]. exists added. apply adds_skip, H. }
    destruct (IH (accept m st)) as [added H].
    exists (m :: added). apply adds_accept; [|exact H].
    apply PyFacts.ltb_ge in G. exact G.
Qed.

Lemma pass2_adds (potential : list Candidate.t) (st : Selection) :
  exists added, adds 3.0 potential st (pass2 self potential st) added.
Proof.
  revert st. induction potential as [|m rest IH]; intro st; simpl.
  - exists []. apply adds_nothing.
  - destruct (min_insertions self <=? _)%nat.
    { exists []. apply adds_nothing. }
    destruct (Py.mem _ _).
    { destruct (IH st) as [added H]. exists added. apply adds_skip, H. }
    destruct (Py.ltb _ _) eqn:G.
    { destruct (IH st) as [added H]. exists added. apply adds_skip, H. }
    destruct (IH (accept m st)) as [added H].
    exists (m :: added). apply adds_accept; [|exact H].
    apply PyFacts.ltb_ge in G. exact G.
Qed.

Lemma pass1_length (potential : list Candidate.t) (st : Selection) :
  (List.length (matches st) <= max_insertions self)%nat ->
  (List.length (matches (pass1 self potential st)) <= max_insertions self)%nat.
Proof.
  revert st. induction potential as [|m rest IH]; intros st Hst; simpl.
  - exact Hst.
  - destruct (max_insertions self <=? _)%nat eqn:E; [exact Hst|].
    apply Nat.leb_gt in E.
    repeat match goal with
           | |- context [if ?c then _ else _] => destruct c
           end; apply IH; try exact Hst.
    simpl. rewrite length_app. simpl. lia.
Qed.

Lemma pass2_length (potential : list Candidate.t) (st : Selection) :
  (List.length (matches (pass2 self potential st))
   <= Nat.max (List.length (matches st)) (min_insertions self))%nat.
Proof.
  revert st. induction potential as [|m rest IH]; intro st; simpl.
  - lia.
  - destruct (min_insertions self <=? _)%nat eqn:E; [lia|].
    apply Nat.leb_gt in E.
    repeat match goal with
           | |- context [if ?c then _ else _] => destruct c
           end; try apply IH.
    eapply Nat.le_trans; [apply IH|].
    simpl. rewrite length_app. simpl. lia.
Qed.

End Loops.

Lemma enumerate_from_In {A} (l : list A) (s i : nat) (x : A) :
  In (i, x) (combine (seq s (List.length l)) l) <->
  (s <= i)%nat /\ nth_error l (i - s) = Some x.
Proof.
  revert s. induction l as [|a l IH]; intro s; simpl.
  - split; [intros [] | intros [_ H]]. destruct (i - s)%nat; discriminate.
  - rewrite IH. split.
    + intros [E | [Hle Hn]].
      * inversion E; subst. rewrite Nat.sub_diag. split; [lia | reflexivity].
      * split; [lia|]. replace (i - s)%nat with (S (i - S s)) by lia. exact Hn.
    + intros [Hle Hn]. destruct (Nat.eq_dec i s) as [->|Hne].
      * rewrite Nat.sub_diag in Hn. simpl in Hn. inversion Hn. left; reflexivity.
      * right. split; [lia|].
        replace (i - s)%nat with (S (i - S s)) in Hn by lia. exact Hn.
Qed.

Lemma enumerate_In {A} (l : list A) (i : nat) (x : A) :
  In (i, x) (Py.enumerate l) <-> nth_error l i = Some x.
Proof.
  unfold Py.enumerate. rewrite enumerate_from_In, Nat.sub_0_r.
  split; [intros [_ H]; exact H | intro H; split; [lia | exact H]].
Qed.

(** Every potential match was built from a segment and a clip id at their
    indices, with the matrix cell of the pair at or above the threshold. *)
Lemma potential_matches_In (self : SemanticMatcher) (similarity_matrix : Matrix)
    (aroll_segments : list Segment.t) (broll_ids : list string)
    (broll_descriptions : Py.dict string) (m : Candidate.t) :
  In m (potential_matches self similarity_matrix aroll_segments
                          broll_ids broll_descriptions) ->
  exists segment broll_idx,
    nth_error aroll_segments (Candidate.segment_idx m) = Some segment /\
    nth_error broll_ids broll_idx = Some (Candidate.broll_id m) /\
    Candidate.similarity m
      = similarity_matrix (Candidate.segment_idx m) broll_idx /\
    similarity_threshold self <= Candidate.similarity m /\
    Candidate.start_time m = Segment.start_time segment /\
    Candidate.end_time m = Segment.end_time segment.
Proof.
  unfold potential_matches. intro H.
  apply in_flat_map in H. destruct H as [[seg_idx segment] [Hseg H]].
  apply in_flat_map in H. destruct H as [[broll_idx broll_id] [Hid H]].
  apply enumerate_In in Hseg. apply enumerate_In in Hid.
  destruct (Py.geb _ _) eqn:G; simpl in H; [|contradiction].
  destruct H as [<- | []]. simpl.
  exists segment, broll_idx.
  apply PyFacts.geb_le in G. repeat split; auto.
Qed.

Lemma last_app_default {A} (l1 l2 : list A) (d : A) :
  last (l1 ++ l2) d = last l2 (last l1 d).
Proof.
  revert d. induction l1 as [|a l1 IH]; intro d.
  - reflexivity.
  - simpl app. rewrite !last_cons. apply IH.
Qed.

Lemma app_eq_app_split {A} (p1 p2 pre rest : list A) :
  p1 ++ p2 = pre ++ rest -> (List.length p1 <= List.length pre)%nat ->
  exists pre2, pre = p1 ++ pre2 /\ p2 = pre2 ++ rest.
Proof.
  revert pre. induction p1 as [|a p1 IH]; intros pre E L.
  - exists pre. split; [reflexivity | exact E].
  - destruct pre as [|b pre]; simpl in L; [lia|].
    simpl in E. inversion E; subst b.
    destruct (IH pre H1 ltac:(lia)) as [pre2 [-> ->]].
    exists pre2. split; reflexivity.
Qed.

Lemma gaps_from_all (t gap : Q) (added : list Candidate.t) :
  0 <= gap -> Spec.gaps_from t gap added ->
  forall m, In m added -> gap <= Candidate.start_time m - t.
Proof.
  intro Hgap. revert t.
  induction added as [|a rest IH]; intros t H m Hin; simpl in *.
  - contradiction.
  - destruct H as [Ha Hrest]. destruct Hin as [<- | Hin].
    + exact Ha.
    + pose proof (IH _ Hrest m Hin). lra.
Qed.

(** With a non-negative gap the acceptances are in increasing order of start
    time, so any two of them are at least [gap] apart. *)
Lemma gaps_from_pairwise (t gap : Q) (added : list Candidate.t)
    (i j : nat) (a b : Candidate.t) :
  0 <= gap -> Spec.gaps_from t gap added -> (i < j)%nat ->
  nth_error added i = Some a -> nth_error added j = Some b ->
  gap <= Candidate.start_time b - Candidate.start_time a.
Proof.
  intro Hgap. revert t i j.
  induction added as [|x rest IH]; intros t i j H Hij Ha Hb.
  - destruct i; discriminate.
  - destruct H as [_ Hrest].
    destruct j as [|j]; [lia|]. simpl in Hb.
    destruct i as [|i]; simpl in Ha.
    + inversion Ha; subst x.
      apply (gaps_from_all _ _ rest Hgap Hrest).
      eapply nth_error_In, Hb.
    + apply (IH _ i j Hrest); [lia | exact Ha | exact Hb].
Qed.

Lemma gaps_from_split (t gap : Q) (pre : list Candidate.t)
    (m : Candidate.t) (post : list Candidate.t) :
  Spec.gaps_from t gap (pre ++ m :: post) ->
  gap <= Candidate.start_time m - last (map Candidate.start_time pre) t.
Proof.
  revert t. induction pre as [|a pre IH]; intros t H.
  - destruct H as [H _]. exact H.
  - destruct H as [_ H]. simpl map. rewrite last_cons. apply IH, H.
Qed.

(** *** The reuse cap in the first loop *)


Lemma uses_snoc (clip_id : string) (l : list Candidate.t) (m : Candidate.t) :
  Spec.uses clip_id (l ++ [m])
  = (Spec.uses clip_id l
     + if string_dec (Candidate.broll_id m) clip_id then 1 else 0)%nat.
Proof.
  unfold Spec.uses. rewrite map_app, count_occ_app. simpl.
  destruct (string_dec _ _); reflexivity.
Qed.

Lemma counted_initial : counted initial.
Proof. intro clip_id. reflexivity. Qed.

Lemma counted_accept (m : Candidate.t) (st : Selection) :
  counted st -> counted (accept m st).
Proof.
  intros H clip_id. simpl. rewrite uses_snoc, <- H.
  unfold Py.get_default at 1.
  destruct (string_dec (Candidate.broll_id m) clip_id) as [->|Hne].
  - rewrite PyFacts.get_set_same. reflexivity.
  - rewrite PyFacts.get_set_other by exact Hne.
    unfold Py.get_default. lia.
Qed.

(** The first loop never accepts a third use of a clip. *)
Lemma pass1_reuse_cap (self : SemanticMatcher) (potential : list Candidate.t)
    (st : Selection) :
  counted st ->
  (forall clip_id, Spec.uses clip_id (matches st) <= 2)%nat ->
  counted (pass1 self potential st) /\
  (forall clip_id,
      Spec.uses clip_id (matches (pass1 self potential st)) <= 2)%nat.
Proof.
  revert st. induction potential as [|m rest IH]; intros st Hc Hcap;
    cbn [pass1].
  - split; assumption.
  - destruct (max_insertions self <=? _)%nat; [split; assumption|].
    destruct (Py.mem _ _); [apply IH; assumption|].
    destruct (2 <=? _)%nat eqn:E; [apply IH; assumption|].
    destruct (Py.ltb _ _); [apply IH; assumption|].
    apply Nat.leb_gt in E. rewrite (Hc (Candidate.broll_id m)) in E.
    apply IH; [apply counted_accept, Hc|].
    intro clip_id. simpl. rewrite uses_snoc.
    destruct (string_dec _ _) as [<-|_]; [lia|].
    specialize (Hcap clip_id). lia.
Qed.

Section Selected.
Variable self : SemanticMatcher.
Variable similarity_matrix : Matrix.
Variable aroll_segments : list Segment.t.
Variable broll_ids : list string.
Variable broll_descriptions : Py.dict string.

Local Abbreviation potential :=
  (sorted_potential_matches self similarity_matrix aroll_segments
                            broll_ids broll_descriptions).
Local Abbreviation st1 :=
  (selection_pass1 self similarity_matrix aroll_segments
                   broll_ids broll_descriptions).
Local Abbreviation st2 :=
  (selection self similarity_matrix aroll_segments
             broll_ids broll_descriptions).

Lemma selection_pass1_adds :
  exists added, adds 5.0 potential initial st1 added.
Proof. apply pass1_adds. Qed.

Lemma selection_adds :
  exists added, adds 3.0 potential st1 st2 added.
Proof.
  unfold st2, selection. fold st1. fold potential.
  destruct (List.length (matches st1) <? min_insertions self)%nat.
  - apply pass2_adds.
  - exists []. apply adds_nothing.
Qed.

(** The output is the accepted candidates, reordered. *)
Lemma output_perm :
  Permutation
    (_select_best_matches self similarity_matrix aroll_segments
                          broll_ids broll_descriptions)
    (matches st2).
Proof. unfold _select_best_matches, Py.sorted_by. apply PyFacts.sort_perm. Qed.

(** Every accepted candidate is a potential match. *)
Lemma selected_potential (m : Candidate.t) :
  In m (matches st2) ->
  In m (potential_matches self similarity_matrix aroll_segments
                          broll_ids broll_descriptions).
Proof.
  destruct selection_pass1_adds as [a1 (M1 & I1 & _)].
  destruct selection_adds as [a2 (M2 & I2 & _)].
  rewrite M2, M1. simpl. intro H.
  assert (Hin : In m potential).
  { apply in_app_or in H. destruct H; [apply I1 | apply I2]; assumption. }
  unfold potential, sorted_potential_matches, Py.sorted_by_reverse in Hin.
  apply PyFacts.sort_In in Hin. exact Hin.
Qed.
End Selected.

End MatcherFacts.

(** * The Constrained Selector *)

(** The accepted candidates are those of the first loop followed by those
    the second loop adds, and the output is these, reordered.  Any two candidates accepted by the first loop start at least
    5.0 seconds apart.  Every candidate added by the second loop starts at
    least 3.0 seconds after the running last-insertion time at the moment it
    is accepted, that is, after the start of the candidate accepted
    immediately before it. *)
Lemma selection_gaps (self : Matcher.SemanticMatcher)
    (similarity_matrix : Matcher.Matrix) (aroll_segments : list Segment.t)
    (broll_ids : list string) (broll_descriptions : Py.dict string) :
  let pass1_accepted :=
    Matcher.matches
      (Matcher.selection_pass1 self similarity_matrix aroll_segments
                               broll_ids broll_descriptions) in
  let accepted :=
    Matcher.matches
      (Matcher.selection self similarity_matrix aroll_segments
                         broll_ids broll_descriptions) in
  Permutation
    (Matcher._select_best_matches self similarity_matrix aroll_segments
                                  broll_ids broll_descriptions)
    accepted /\
  (exists pass2_added, accepted = pass1_accepted ++ pass2_added) /\
  (forall i j a b,
      i <> j ->
      nth_error pass1_accepted i = Some a ->
      nth_error pass1_accepted j = Some b ->
      5.0 <= Qabs (Candidate.start_time a - Candidate.start_time b)) /\
  (forall pre m post,
      accepted = pre ++ m :: post ->
      (List.length pass1_accepted <= List.length pre)%nat ->
      3.0 <= Candidate.start_time m - Spec.last_insertion_time_after pre).
Proof.
  intros pass1_accepted accepted.
  destruct (MatcherFacts.selection_pass1_adds self similarity_matrix
              aroll_segments broll_ids broll_descriptions)
    as [a1 (M1 & _ & G1 & L1)].
  destruct (MatcherFacts.selection_adds self similarity_matrix
              aroll_segments broll_ids broll_descriptions)
    as [a2 (M2 & _ & G2 & L2)].
  fold pass1_accepted in M1, M2. fold accepted in M2.
  simpl in M1, G1, L1.
  split; [apply MatcherFacts.output_perm|].
  split; [exists a2; exact M2|].
  split.
  - intros i j a b Hij Ha Hb. rewrite M1 in Ha, Hb.
    assert (H5 : 0 <= 5.0) by (unfold Qle; simpl; lia).
    destruct (Nat.lt_total i j) as [Hlt | [Heq | Hgt]]; [|contradiction|].
    + pose proof (MatcherFacts.gaps_from_pairwise _ _ _ i j a b H5 G1 Hlt Ha Hb)
        as H.
      rewrite Qabs_Qminus. eapply Qle_trans; [exact H | apply Qle_Qabs].
    + pose proof (MatcherFacts.gaps_from_pairwise _ _ _ j i b a H5 G1 Hgt Hb Ha)
        as H.
      eapply Qle_trans; [exact H | apply Qle_Qabs].
  - intros pre m post E Hlen. rewrite M2 in E.
    destruct (MatcherFacts.app_eq_app_split _ _ _ _ E Hlen) as [pre2 [-> ->]].
    apply MatcherFacts.gaps_from_split in G2.
    unfold Spec.last_insertion_time_after.
    rewrite map_app, MatcherFacts.last_app_default.
    rewrite L1 in G2. rewrite M1. exact G2.
Qed.

(** The formatted [start_sec] of an accepted candidate is its [start_time],
    rounded. *)
Lemma accepted_start_sec (self : Matcher.SemanticMatcher)
    (similarity_matrix : Matcher.Matrix) (aroll_segments : list Segment.t)
    (broll_ids : list string) (broll_descriptions : Py.dict string)
    (m : Candidate.t) :
  In m (Matcher.matches
          (Matcher.selection self similarity_matrix aroll_segments
                             broll_ids broll_descriptions)) ->
  Insertion.start_sec (Matcher.format_match aroll_segments m)
  = Py.round (Candidate.start_time m) 2.
Proof.
  intro H. apply MatcherFacts.selected_potential in H.
  apply MatcherFacts.potential_matches_In in H.
  destruct H as (segment & _ & Hseg & _ & _ & _ & Hs & _).
  unfold Matcher.format_match. simpl.
  rewrite (nth_error_nth _ _ _ Hseg), Hs. reflexivity.
Qed.




(** The first loop keeps the reuse cap: after it no clip has more than 2
    accepted uses. *)
Lemma selector_pass1_reuse_cap (self : Matcher.SemanticMatcher)
    (similarity_matrix : Matcher.Matrix) (aroll_segments : list Segment.t)
    (broll_ids : list string) (broll_descriptions : Py.dict string)
    (clip_id : string) :
  (Spec.uses clip_id
     (Matcher.matches
        (Matcher.selection_pass1 self similarity_matrix aroll_segments
                                 broll_ids broll_descriptions)) <= 2)%nat.
Proof.
  apply MatcherFacts.pass1_reuse_cap.
  - apply MatcherFacts.counted_initial.
  - intro c. unfold Spec.uses. simpl. lia.
Qed.

(** C1 (reuse cap).  The second loop does not test the per-clip count.  With
    the default configuration, three segments at 0, 10 and 20 seconds and one
    clip above the threshold for each of them, the first loop accepts two
    uses of the clip and the second loop adds a third: the output shows
    [broll_1] three times. *)
Theorem selector_reuse_cap_exceeded :
  let output :=
    Matcher._select_best_matches Examples.default_matcher
      Examples.one_clip_matrix Examples.three_segments
      (Py.keys Examples.one_clip) Examples.one_clip in
  Spec.uses "broll_1" output = 3%nat /\
  Spec.uses "broll_1"
    (Matcher.matches
       (Matcher.selection_pass1 Examples.default_matcher
          Examples.one_clip_matrix Examples.three_segments
          (Py.keys Examples.one_clip) Examples.one_clip)) = 2%nat /\
  match
    Matcher.match_ (fun _ _ => Examples.one_clip_matrix)
      Examples.default_matcher Examples.three_segments Examples.one_clip
  with
  | Py.Ok insertions =>
      map Insertion.broll_id insertions
      = [ "broll_1"; "broll_1"; "broll_1" ]%string
  | Py.Raise _ => False
  end.
Proof. vm_compute. repeat split. Qed.

(** * [SemanticMatcher.match] *)

Section MatchProperties.
Variable relevance : list string -> list string -> Matcher.Matrix.
Variable self : Matcher.SemanticMatcher.
Variable aroll_segments : list Segment.t.
Variable broll_descriptions : Py.dict string.

Local Abbreviation similarity_matrix :=
  (Matcher.similarity_matrix_in_match relevance aroll_segments
                                      broll_descriptions).

(** When [match] returns, both inputs are non-empty and the result is the
    selector's output, formatted. *)
Lemma match_returns (output : list Insertion.t) :
  Matcher.match_ relevance self aroll_segments broll_descriptions
    = Py.Ok output ->
  aroll_segments <> [] /\ broll_descriptions <> [] /\
  output =
    map (Matcher.format_match aroll_segments)
        (Matcher._select_best_matches self similarity_matrix aroll_segments
           (Py.keys broll_descriptions) broll_descriptions).
Proof.
  unfold Matcher.match_.
  destruct aroll_segments as [|s segs]; [discriminate|].
  destruct broll_descriptions as [|d descs]; [discriminate|].
  intro H. inversion H.
  repeat split; discriminate.
Qed.

(** Every returned insertion is the formatting of a potential match. *)
Lemma match_insertion_origin (output : list Insertion.t) (ins : Insertion.t) :
  Matcher.match_ relevance self aroll_segments broll_descriptions
    = Py.Ok output ->
  In ins output ->
  exists m,
    In m (Matcher.potential_matches self similarity_matrix aroll_segments
            (Py.keys broll_descriptions) broll_descriptions) /\
    ins = Matcher.format_match aroll_segments m.
Proof.
  intros H Hin. apply match_returns in H. destruct H as (_ & _ & ->).
  apply in_map_iff in Hin. destruct Hin as [m [<- Hm]].
  exists m. split; [|reflexivity].
  apply MatcherFacts.selected_potential.
  eapply Permutation_in; [apply MatcherFacts.output_perm | exact Hm].
Qed.
End MatchProperties.

(** C6 (insertion span).  Every insertion returned by [match] comes from a
    narration segment and a clip whose cell of the similarity matrix reached
    the threshold; its [start_sec] is that segment's [start_time] rounded to
    2 decimals and its [duration_sec] is that segment's
    [end_time - start_time] rounded to 2 decimals, each within 0.005 of the
    exact value. *)
Theorem match_insertion_span
    (relevance : list string -> list string -> Matcher.Matrix)
    (self : Matcher.SemanticMatcher) (aroll_segments : list Segment.t)
    (broll_descriptions : Py.dict string)
    (output : list Insertion.t) (ins : Insertion.t) :
  Matcher.match_ relevance self aroll_segments broll_descriptions
    = Py.Ok output ->
  In ins output ->
  exists seg_idx segment broll_idx,
    nth_error aroll_segments seg_idx = Some segment /\
    nth_error (Py.keys broll_descriptions) broll_idx
      = Some (Insertion.broll_id ins) /\
    Matcher.similarity_threshold self
      <= Matcher.similarity_matrix_in_match relevance aroll_segments
           broll_descriptions seg_idx broll_idx /\
    Insertion.start_sec ins = Py.round (Segment.start_time segment) 2 /\
    Insertion.duration_sec ins
      = Py.round (Segment.end_time segment - Segment.start_time segment) 2 /\
    Qabs (Insertion.start_sec ins - Segment.start_time segment) <= 0.005 /\
    Qabs (Insertion.duration_sec ins
          - (Segment.end_time segment - Segment.start_time segment)) <= 0.005.
Proof.
  intros H Hin.
  destruct (match_insertion_origin _ _ _ _ _ _ H Hin) as [m [Hm ->]].
  apply MatcherFacts.potential_matches_In in Hm.
  destruct Hm as (segment & broll_idx & Hseg & Hid & Hsim & Hthr & _).
  exists (Candidate.segment_idx m), segment, broll_idx.
  unfold Matcher.format_match. simpl.
  rewrite (nth_error_nth _ _ _ Hseg).
  rewrite <- Hsim.
  repeat split; auto; apply PyFacts.round_2.
Qed.

Lemma match_insertion_span_witness :
  exists output ins,
    Matcher.match_ (fun _ _ => Examples.one_clip_matrix)
      Examples.default_matcher Examples.three_segments Examples.one_clip
      = Py.Ok output /\
    In ins output /\
    exists segment,
      In segment Examples.three_segments /\
      Insertion.start_sec ins = Py.round (Segment.start_time segment) 2 /\
      Insertion.duration_sec ins
      = Py.round (Segment.end_time segment - Segment.start_time segment) 2.
Proof.
  eexists. eexists.
  split; [vm_compute; reflexivity|].
  split; [left; reflexivity|].
  destruct (match_insertion_span (fun _ _ => Examples.one_clip_matrix)
              Examples.default_matcher Examples.three_segments
              Examples.one_clip _ _ eq_refl (or_introl eq_refl))
    as (seg_idx & segment & broll_idx & Hseg & _ & _ & Hs & Hd & _).
  exists segment.
  split; [eapply nth_error_In, Hseg|].
  split; [exact Hs | exact Hd].
Defined.

(** C10 (output precision).  Every insertion returned by [match] has
    [start_sec] and [duration_sec] equal to a whole number of hundredths and
    [confidence] equal to a whole number of thousandths; [confidence] is the
    rounding of a similarity at or above the threshold, so it is at least the
    threshold rounded to 3 decimals, and at least the threshold less
    0.0005. *)
Theorem match_output_precision
    (relevance : list string -> list string -> Matcher.Matrix)
    (self : Matcher.SemanticMatcher) (aroll_segments : list Segment.t)
    (broll_descriptions : Py.dict string)
    (output : list Insertion.t) (ins : Insertion.t) :
  Matcher.match_ relevance self aroll_segments broll_descriptions
    = Py.Ok output ->
  In ins output ->
  (exists k : Z, Insertion.start_sec ins == k # 100) /\
  (exists k : Z, Insertion.duration_sec ins == k # 100) /\
  (exists k : Z, Insertion.confidence ins == k # 1000) /\
  Py.round (Matcher.similarity_threshold self) 3 <= Insertion.confidence ins /\
  Matcher.similarity_threshold self - 0.0005 <= Insertion.confidence ins.
Proof.
  intros H Hin.
  destruct (match_insertion_origin _ _ _ _ _ _ H Hin) as [m [Hm ->]].
  apply MatcherFacts.potential_matches_In in Hm.
  destruct Hm as (segment & broll_idx & _ & _ & _ & Hthr & _).
  unfold Matcher.format_match. simpl.
  repeat split; try apply PyFacts.round_2; try apply PyFacts.round_3.
  - apply PyFacts.round_mono, Hthr.
  - destruct (PyFacts.round_3 (Candidate.similarity m)) as [He _].
    apply Qabs_Qle_condition in He. lra.
Qed.

Lemma match_output_precision_witness :
  exists output ins,
    Matcher.match_ (fun _ _ => Examples.one_clip_matrix)
      Examples.default_matcher Examples.three_segments Examples.one_clip
      = Py.Ok output /\
    In ins output /\
    Py.round 0.72 3 <= Insertion.confidence ins.
Proof.
  eexists. eexists.
  split; [vm_compute; reflexivity|].
  split; [left; reflexivity|].
  apply (match_output_precision (fun _ _ => Examples.one_clip_matrix)
           Examples.default_matcher Examples.three_segments
           Examples.one_clip _ _ eq_refl (or_introl eq_refl)).
Defined.

(** C8 (errors).  With an embedding provider that succeeds, [match] raises
    exactly when the segment list or the description dictionary is empty.
    When both are non-empty and no cell of the similarity matrix reaches the
    threshold, it returns the empty list. *)
Theorem match_errors
    (relevance : list string -> list string -> Matcher.Matrix)
    (self : Matcher.SemanticMatcher) (aroll_segments : list Segment.t)
    (broll_descriptions : Py.dict string) :
  ((exists e,
       Matcher.match_ relevance self aroll_segments broll_descriptions
       = Py.Raise e)
   <-> aroll_segments = [] \/ broll_descriptions = []) /\
  (aroll_segments <> [] ->
   broll_descriptions <> [] ->
   (forall seg_idx broll_idx,
       (seg_idx < List.length aroll_segments)%nat ->
       (broll_idx < List.length broll_descriptions)%nat ->
       Matcher.similarity_matrix_in_match relevance aroll_segments
         broll_descriptions seg_idx broll_idx
       < Matcher.similarity_threshold self) ->
   Matcher.match_ relevance self aroll_segments broll_descriptions
   = Py.Ok []).
Proof.
  split.
  - unfold Matcher.match_.
    destruct aroll_segments as [|s segs].
    { split; [intros _; left; reflexivity | intros _; eexists; reflexivity]. }
    destruct broll_descriptions as [|d descs].
    { split; [intros _; right; reflexivity | intros _; eexists; reflexivity]. }
    split; [intros [e H]; discriminate | intros [H | H]; discriminate].
  - intros Hsegs Hdescs Hlow.
    assert (Hnone :
      Matcher.potential_matches self
        (Matcher.similarity_matrix_in_match relevance aroll_segments
                                            broll_descriptions)
        aroll_segments (Py.keys broll_descriptions) broll_descriptions = []).
    { destruct (Matcher.potential_matches _ _ _ _ _) as [|m l] eqn:E;
        [reflexivity | exfalso].
      assert (Hin : In m (m :: l)) by (left; reflexivity).
      rewrite <- E in Hin.
      apply MatcherFacts.potential_matches_In in Hin.
      destruct Hin as (segment & broll_idx & Hseg & Hid & Hsim & Hthr & _).
      assert (Hi : (Candidate.segment_idx m < List.length aroll_segments)%nat).
      { apply nth_error_Some. congruence. }
      assert (Hj : (broll_idx < List.length broll_descriptions)%nat).
      { rewrite <- (length_map fst broll_descriptions).
        apply nth_error_Some. unfold Py.keys in Hid. congruence. }
      specialize (Hlow _ _ Hi Hj). rewrite <- Hsim in Hlow. lra. }
    unfold Matcher.match_.
    destruct aroll_segments as [|s segs]; [contradiction|].
    destruct broll_descriptions as [|d descs]; [contradiction|].
    unfold Matcher._select_best_matches, Matcher.selection,
      Matcher.selection_pass1, Matcher.sorted_potential_matches.
    unfold Matcher.similarity_matrix_in_match in Hnone.
    rewrite Hnone. simpl.
    destruct (0 <? Matcher.min_insertions self)%nat; reflexivity.
Qed.

(** The two branches of C8 on concrete inputs: an empty segment list raises,
    and a matrix with every cell at 0.5 under the default threshold gives the
    empty list. *)
Example match_errors_examples :
  Matcher.match_ (fun _ _ => Examples.low_matrix) Examples.default_matcher
    [] Examples.one_clip
  = Py.Raise (Py.ValueError "A-roll segments list is empty") /\
  Matcher.match_ (fun _ _ => Examples.low_matrix) Examples.default_matcher
    Examples.three_segments []
  = Py.Raise (Py.ValueError "B-roll descriptions dictionary is empty") /\
  Matcher.match_ (fun _ _ => Examples.low_matrix) Examples.default_matcher
    Examples.three_segments Examples.one_clip
  = Py.Ok [].
Proof. vm_compute. repeat split. Qed.

(** * The Timeline Assembler *)

Module TimelineFacts.
Import Timeline Invariants.


Lemma tiles_covers (total : Q) (l : list TimelineSegment) :
  Spec.tiles total l <-> covers 0 total l.
Proof. destruct l; simpl; tauto. Qed.

Lemma covers_single (a : Q) (x : TimelineSegment) :
  start_time x == a -> covers a (end_time x) [x].
Proof. intro H. simpl. repeat split; try reflexivity; exact H. Qed.

Lemma contiguous_snoc (l : list TimelineSegment) (d x : TimelineSegment) :
  l <> [] -> Spec.contiguous l ->
  start_time x == end_time (last l d) ->
  Spec.contiguous (l ++ [x]).
Proof.
  induction l as [|a l IH]; intros Hne Hc Hx; [contradiction|].
  destruct l as [|b l].
  - simpl in *. repeat split; auto.
  - destruct Hc as [Hab Hc].
    change ((a :: b :: l) ++ [x]) with (a :: (b :: l) ++ [x]).
    split; [exact Hab|].
    apply IH; [discriminate | exact Hc | exact Hx].
Qed.

Lemma covers_snoc (a b : Q) (l : list TimelineSegment) (x : TimelineSegment) :
  covers a b l -> start_time x == b -> covers a (end_time x) (l ++ [x]).
Proof.
  destruct l as [|first l]; [contradiction|].
  intros (Hs & Hc & He) Hx.
  change ((first :: l) ++ [x]) with (first :: l ++ [x]).
  split; [exact Hs|]. split.
  - change (first :: l ++ [x]) with ((first :: l) ++ [x]).
    apply contiguous_snoc with (d := first);
      [discriminate | exact Hc | rewrite He; exact Hx].
  - change (first :: l ++ [x]) with ((first :: l) ++ [x]).
    rewrite MatcherFacts.last_app_cons. reflexivity.
Qed.

Lemma covers_comp (a b b' : Q) (l : list TimelineSegment) :
  b == b' -> covers a b l -> covers a b' l.
Proof.
  destruct l; [tauto|]. intros E (Hs & Hc & He).
  split; [exact Hs|]. split; [exact Hc|].
  eapply Qeq_trans; [exact He | exact E].
Qed.


Lemma round_zero : Py.round 0 2 == 0.
Proof. reflexivity. Qed.

Lemma step_covers (aroll_segments : list Segment.t) (i : Insertion.t)
    (state : Q * list TimelineSegment) :
  invariant state ->
  fst state <= Insertion.start_sec i ->
  fst (step aroll_segments i state) = Spec.insertion_end i /\
  covers 0 (Py.round (Spec.insertion_end i) 2)
         (snd (step aroll_segments i state)).
Proof.
  destruct state as [cur acc]. unfold invariant, step. simpl fst. simpl snd.
  intros Hinv Hle.
  destruct (Py.ltb cur (Insertion.start_sec i)) eqn:E; simpl fst; simpl snd.
  - split; [reflexivity|].
    match goal with
    | |- covers _ _ (_ ++ [?b]) => refine (covers_snoc 0 _ _ b _ _)
    end; [|reflexivity].
    destruct Hinv as [[-> H0] | Hc].
    + simpl app.
      match goal with
      | |- covers _ _ [?a] => apply (covers_single 0 a)
      end.
      simpl. rewrite (PyFacts.round_comp _ _ 2 H0). apply round_zero.
    + match goal with
      | |- covers _ _ (_ ++ [?a]) => refine (covers_snoc 0 _ _ a Hc _)
      end.
      reflexivity.
  - apply PyFacts.ltb_ge in E.
    assert (Heq : Insertion.start_sec i == cur) by (apply Qle_antisym; assumption).
    split; [reflexivity|].
    destruct Hinv as [[-> H0] | Hc].
    + simpl app.
      match goal with
      | |- covers _ _ [?b] => apply (covers_single 0 b)
      end.
      simpl. rewrite (PyFacts.round_comp _ 0 2); [apply round_zero|].
      rewrite Heq. exact H0.
    + match goal with
      | |- covers _ _ (_ ++ [?b]) => refine (covers_snoc 0 _ _ b Hc _)
      end.
      simpl. apply PyFacts.round_comp, Heq.
Qed.

Lemma loop_covers (aroll_segments : list Segment.t) (total : Q)
    (insertions : list Insertion.t) (state : Q * list TimelineSegment) :
  insertions <> [] ->
  Spec.chronological insertions ->
  Forall (fun i => Spec.insertion_end i <= total) insertions ->
  ready (fst state) insertions ->
  invariant state ->
  fst (loop aroll_segments insertions state) <= total /\
  covers 0 (Py.round (fst (loop aroll_segments insertions state)) 2)
         (snd (loop aroll_segments insertions state)).
Proof.
  revert state.
  induction insertions as [|i rest IH]; intros state Hne Hch Hin Hr Hinv;
    [contradiction|].
  cbn [loop].
  destruct (step_covers aroll_segments i state Hinv Hr) as [Hcur Hcov].
  destruct Hch as [Hnext Hch]. inversion Hin as [|? ? Hi Hrest]; subst.
  destruct rest as [|j rest].
  - cbn [loop]. rewrite Hcur. split; [exact Hi | exact Hcov].
  - apply IH; [discriminate | exact Hch | exact Hrest | |].
    + simpl. rewrite Hcur. exact Hnext.
    + right. rewrite Hcur. exact Hcov.
Qed.

(** *** Non-overlapping insertions

    Insertions of positive duration that are pairwise disjoint are
    non-overlapping in the sense of [Spec.non_overlapping], in whatever order
    they are given. *)

Lemma insert_chronological (x : Insertion.t) (s : list Insertion.t) :
  Forall (fun y => 0 < Insertion.duration_sec y /\ Spec.disjoint x y) s ->
  0 < Insertion.duration_sec x ->
  Spec.chronological s ->
  Spec.chronological
    (Py.insert (fun y x => Py.ltb (Insertion.start_sec y) (Insertion.start_sec x))
               x s).
Proof.
  intros Hall Hx. induction s as [|y ys IH]; intro Hch.
  - simpl. auto.
  - inversion Hall as [|? ? [Hy Hxy] Hall']; subst.
    destruct Hch as [Hnext Hch]. cbn [Py.insert].
    unfold Spec.disjoint, Spec.insertion_end in Hxy.
    destruct (Py.ltb (Insertion.start_sec y) (Insertion.start_sec x)) eqn:E.
    + apply PyFacts.ltb_lt in E.
      split; [|apply IH; assumption].
      destruct ys as [|z zs]; cbn [Py.insert].
      * unfold Spec.insertion_end. lra.
      * destruct (Py.ltb (Insertion.start_sec z) (Insertion.start_sec x));
          [exact Hnext | unfold Spec.insertion_end; lra].
    + apply PyFacts.ltb_ge in E.
      split; [unfold Spec.insertion_end; lra|].
      split; assumption.
Qed.

Lemma pairwise_disjoint_non_overlapping (l : list Insertion.t) :
  Forall (fun i => 0 < Insertion.duration_sec i) l ->
  ForallOrdPairs Spec.disjoint l ->
  Spec.non_overlapping l.
Proof.
  unfold Spec.non_overlapping, Py.sorted_by.
  induction l as [|x l IH]; intros Hpos Hpair.
  - exact I.
  - inversion Hpos as [|? ? Hx Hpos']; subst.
    inversion Hpair as [|? ? Hxl Hpair']; subst.
    cbn [Py.sort]. apply insert_chronological.
    + eapply Permutation_Forall;
        [apply Permutation_sym, PyFacts.sort_perm|].
      apply Forall_forall. intros y Hy. split.
      * exact (proj1 (Forall_forall _ _) Hpos' y Hy).
      * exact (proj1 (Forall_forall _ _) Hxl y Hy).
    + exact Hx.
    + apply IH; assumption.
Qed.

End TimelineFacts.

Lemma last_first_default {A} (first d : A) (rest : list A) :
  last (first :: rest) first = last (first :: rest) d.
Proof. rewrite !MatcherFacts.last_cons. reflexivity. Qed.

(** With no insertion and a narration that ends after 0, both the branch
    for the remaining A-roll and the branch for "no insertions" append an
    interval: the result has two. *)
Lemma timeline_without_insertions (aroll_segments : list Segment.t) :
  aroll_segments <> [] ->
  0 < Spec.total_duration aroll_segments ->
  exists transcript1 transcript2,
    Timeline._create_timeline_segments aroll_segments [] =
    [ Timeline.a_roll (Py.round 0.0 2)
        (Py.round (Spec.total_duration aroll_segments) 2)
        (Py.round (Spec.total_duration aroll_segments - 0.0) 2)
        "a_roll_video" transcript1;
      Timeline.a_roll 0.0
        (Py.round (Spec.total_duration aroll_segments) 2)
        (Py.round (Spec.total_duration aroll_segments) 2)
        "a_roll_video" transcript2 ].
Proof.
  intros Hne Hpos. destruct aroll_segments as [|first rest]; [contradiction|].
  unfold Timeline._create_timeline_segments, Spec.total_duration in *.
  rewrite (last_first_default first (Segment.Build 0 0 "")).
  cbn [Py.sorted_by Py.sort Timeline.loop].
  assert (E : Py.ltb 0.0
                (Segment.end_time
                   (last (first :: rest) (Segment.Build 0 0 ""))) = true).
  { apply PyFacts.ltb_lt. lra. }
  rewrite E. simpl app. eexists. eexists. reflexivity.
Qed.

(** C2 (no insertions).  On the ten segments of the usage example (0.0 to
    40.2 seconds) and an empty insertion list the planner returns two
    intervals, not one: each is an A-roll interval from 0.0 to 40.2. *)
Theorem timeline_no_insertions_two_intervals :
  let output :=
    Timeline._create_timeline_segments Examples.ten_segments [] in
  List.length output = 2%nat /\
  Forall (fun s => Timeline.is_a_roll s = true /\
                   Timeline.start_time s == 0.0 /\
                   Timeline.end_time s == 40.2) output.
Proof.
  vm_compute. split; [reflexivity|].
  repeat constructor.
Qed.




(** * The B-roll analyzer *)

Section AnalyzerProperties.
Variable path_exists : string -> bool.
Variable json_load_file : string -> Py.result BRollAnalysis.json.
Variable json_loads : string -> Py.result BRollAnalysis.json.
Variable _extract_key_fields :
  Py.dict BRollAnalysis.json -> Py.result (Py.dict BRollAnalysis.json).
Variable _build_description : Py.dict BRollAnalysis.json -> Py.result string.

Local Abbreviation analyze_broll :=
  (BRollAnalysis.analyze_broll path_exists json_load_file json_loads
     _extract_key_fields _build_description).
Local Abbreviation analyze_loop :=
  (BRollAnalysis.analyze_loop path_exists json_load_file json_loads
     _extract_key_fields _build_description).
Local Abbreviation stored :=
  (Invariants.stored path_exists json_load_file json_loads
     _extract_key_fields _build_description).

Lemma analyze_loop_cons (broll_id : string) (metadata : BRollAnalysis.json)
    (rest : list (string * BRollAnalysis.json)) (descriptions : Py.dict string) :
  analyze_loop ((broll_id, metadata) :: rest) descriptions
  = analyze_loop rest (Py.set descriptions broll_id (stored broll_id metadata)).
Proof.
  unfold Invariants.stored. simpl.
  destruct (BRollAnalysis.analyze_broll _ _ _ _ _ _ _); reflexivity.
Qed.

Lemma analyze_loop_spec (items : list (string * BRollAnalysis.json))
    (descriptions : Py.dict string) :
  NoDup (Py.keys descriptions ++ Py.keys items) ->
  Py.keys (analyze_loop items descriptions)
    = Py.keys descriptions ++ Py.keys items /\
  (forall broll_id metadata,
      In (broll_id, metadata) items ->
      Py.get (analyze_loop items descriptions) broll_id
      = Some (stored broll_id metadata)) /\
  (forall broll_id,
      ~ In broll_id (Py.keys items) ->
      Py.get (analyze_loop items descriptions) broll_id
      = Py.get descriptions broll_id).
Proof.
  revert descriptions.
  induction items as [|[k md] rest IH]; intros descriptions Hnd.
  - simpl. rewrite app_nil_r. repeat split; auto. intros ? ? [].
  - rewrite analyze_loop_cons.
    assert (Hk : ~ In k (Py.keys descriptions)).
    { intro H. apply NoDup_remove_2 in Hnd. apply Hnd.
      apply in_or_app. left. exact H. }
    assert (Hk' : ~ In k (Py.keys rest)).
    { intro H. apply NoDup_remove_2 in Hnd. apply Hnd.
      apply in_or_app. right. exact H. }
    pose proof (PyFacts.keys_set_new descriptions k (stored k md) Hk) as Hkeys.
    destruct (IH (Py.set descriptions k (stored k md))) as (K & G & O).
    { rewrite Hkeys, <- app_assoc. exact Hnd. }
    split; [|split].
    + rewrite K, Hkeys, <- app_assoc. reflexivity.
    + intros broll_id metadata [E | Hin].
      * inversion E; subst. rewrite (O _ Hk'). apply PyFacts.get_set_same.
      * apply G, Hin.
    + intros broll_id Hnot. simpl in Hnot.
      rewrite O by tauto. apply PyFacts.get_set_other. tauto.
Qed.
End AnalyzerProperties.



(** * The relevance matrix *)

(** C3 (zero-norm vectors).  [_calculate_similarity_matrix] divides every row
    by its norm without testing the norm.  With a zero narration vector and
    a zero clip vector, every cell of their row and column is NaN, not 0.0;
    the one cell between the two non-zero vectors is their cosine
    similarity.  [_cosine_similarity], which tests the norms, gives 0.0 for
    the same pairs; [match] does not call it. *)
Theorem similarity_matrix_zero_norm_is_nan :
  let matrix :=
    Relevance._calculate_similarity_matrix Examples.aroll_embeddings
                                           Examples.broll_embeddings in
  map (map PrimFloat.is_nan) matrix = [ [true; true]; [false; true] ] /\
  map (map (fun cell => PrimFloat.eqb cell 0)) matrix
    = [ [false; false]; [false; false] ] /\
  Relevance._cosine_similarity [0; 0]%float [1; 0]%float = 0%float /\
  Relevance._cosine_similarity [3; 4]%float [0; 0]%float = 0%float /\
  Relevance._cosine_similarity [0; 0]%float [0; 0]%float = 0%float.
Proof. vm_compute. repeat split. Qed.


(** * More on the Constrained Selector *)

Module SelectorFacts.
Import Matcher SelectionInvariants.

(** Insertion sort puts the elements in the order of the comparison. *)
Lemma insert_Sorted {A} (before : A -> A -> bool) (R : A -> A -> Prop)
    (x : A) (l : list A) :
  (forall a b, before a b = true -> R a b) ->
  (forall a b, before a b = false -> R b a) ->
  Sorted R l -> Sorted R (Py.insert before x l).
Proof.
  intros Ht Hf. induction l as [|y ys IH]; intro Hs; simpl.
  - repeat constructor.
  - destruct (before y x) eqn:E.
    + inversion Hs as [|? ? Hys Hhd]; subst.
      constructor; [apply IH, Hys|].
      destruct ys as [|z zs]; simpl.
      * constructor. apply Ht, E.
      * destruct (before z x); constructor.
        -- inversion Hhd; assumption.
        -- apply Ht, E.
    + constructor; [exact Hs|]. constructor. apply Hf, E.
Qed.

Lemma sort_Sorted {A} (before : A -> A -> bool) (R : A -> A -> Prop)
    (l : list A) :
  (forall a b, before a b = true -> R a b) ->
  (forall a b, before a b = false -> R b a) ->
  Sorted R (Py.sort before l).
Proof.
  intros Ht Hf. induction l as [|x xs IH]; simpl.
  - constructor.
  - apply insert_Sorted; assumption.
Qed.

Lemma sorted_by_Sorted {A} (key : A -> Q) (l : list A) :
  Sorted (fun a b => key a <= key b) (Py.sorted_by key l).
Proof.
  apply sort_Sorted; intros a b H.
  - apply PyFacts.ltb_lt in H. lra.
  - apply PyFacts.ltb_ge in H. exact H.
Qed.

Lemma sorted_by_reverse_Sorted {A} (key : A -> Q) (l : list A) :
  Sorted (fun a b => key b <= key a) (Py.sorted_by_reverse key l).
Proof.
  apply sort_Sorted; intros a b H.
  - apply PyFacts.ltb_lt in H. lra.
  - apply PyFacts.ltb_ge in H. exact H.
Qed.

Lemma mem_In (i : nat) (s : list nat) : Py.mem i s = true <-> In i s.
Proof.
  unfold Py.mem. rewrite existsb_exists. split.
  - intros [x [Hx E]]. apply Nat.eqb_eq in E. subst. exact Hx.
  - intro H. exists i. split; [exact H | apply Nat.eqb_refl].
Qed.

Lemma indexed_initial : indexed initial.
Proof. split; [constructor|]. intro i. simpl. split; [discriminate | tauto]. Qed.

Lemma indexed_accept (m : Candidate.t) (st : Selection) :
  indexed st ->
  Py.mem (Candidate.segment_idx m) (selected_indices st) = false ->
  indexed (accept m st).
Proof.
  intros [Hnd Hmem] Hnew. split; simpl.
  - rewrite map_app. simpl.
    apply Permutation_NoDup with (l := Candidate.segment_idx m
                                       :: map Candidate.segment_idx (matches st)).
    + apply Permutation_cons_append.
    + constructor; [|exact Hnd].
      intro H. apply Hmem in H. congruence.
  - intro i. rewrite map_app, in_app_iff. simpl.
    destruct (Nat.eqb i (Candidate.segment_idx m)) eqn:E; simpl.
    + apply Nat.eqb_eq in E. subst. tauto.
    + apply Nat.eqb_neq in E. rewrite Hmem. intuition congruence.
Qed.

Lemma pass1_indexed (self : SemanticMatcher) (potential : list Candidate.t)
    (st : Selection) :
  indexed st -> indexed (pass1 self potential st).
Proof.
  revert st. induction potential as [|m rest IH]; intros st H; cbn [pass1].
  - exact H.
  - destruct (max_insertions self <=? _)%nat; [exact H|].
    destruct (Py.mem _ _) eqn:E; [apply IH, H|].
    destruct (2 <=? _)%nat; [apply IH, H|].
    destruct (Py.ltb _ _); [apply IH, H|].
    apply IH, indexed_accept; assumption.
Qed.

Lemma pass2_indexed (self : SemanticMatcher) (potential : list Candidate.t)
    (st : Selection) :
  indexed st -> indexed (pass2 self potential st).
Proof.
  revert st. induction potential as [|m rest IH]; intros st H; cbn [pass2].
  - exact H.
  - destruct (min_insertions self <=? _)%nat; [exact H|].
    destruct (Py.mem _ _) eqn:E; [apply IH, H|].
    destruct (Py.ltb _ _); [apply IH, H|].
    apply IH, indexed_accept; assumption.
Qed.

Lemma selection_indexed (self : SemanticMatcher) (similarity_matrix : Matrix)
    (aroll_segments : list Segment.t) (broll_ids : list string)
    (broll_descriptions : Py.dict string) :
  indexed (selection self similarity_matrix aroll_segments
                     broll_ids broll_descriptions).
Proof.
  unfold selection, selection_pass1.
  destruct (_ <? _)%nat.
  - apply pass2_indexed, pass1_indexed, indexed_initial.
  - apply pass1_indexed, indexed_initial.
Qed.

(** From the initial state the first loop accepts the first candidate, when
    [max_insertions] allows one insertion and the candidate starts at least
    5 seconds after -10. *)
Lemma pass1_accepts_first (self : SemanticMatcher) (m : Candidate.t)
    (rest : list Candidate.t) :
  (1 <= max_insertions self)%nat ->
  5.0 <= Candidate.start_time m - last_insertion_time initial ->
  pass1 self (m :: rest) initial = pass1 self rest (accept m initial).
Proof.
  intros Hmax Hgap. cbn [pass1].
  assert (E1 : (max_insertions self <=? List.length (matches initial))%nat
               = false) by (apply Nat.leb_gt; simpl; lia).
  assert (E2 : Py.mem (Candidate.segment_idx m) (selected_indices initial)
               = false) by reflexivity.
  assert (E3 : (2 <=? Py.get_default (used_brolls initial)
                        (Candidate.broll_id m) 0)%nat = false)
    by reflexivity.
  assert (E4 : Py.ltb (Candidate.start_time m - last_insertion_time initial)
                 5.0 = false) by (apply PyFacts.ltb_ge; exact Hgap).
  rewrite E1, E2, E3, E4. reflexivity.
Qed.

End SelectorFacts.

Lemma Sorted_map {A B} (R : A -> A -> Prop) (R' : B -> B -> Prop)
    (f : A -> B) (l : list A) :
  (forall a b, In a l -> In b l -> R a b -> R' (f a) (f b)) ->
  Sorted R l -> Sorted R' (map f l).
Proof.
  induction l as [|x xs IH]; intros Hf Hs; simpl.
  - constructor.
  - inversion Hs as [|? ? Hxs Hhd]; subst. constructor.
    + apply IH; [|exact Hxs].
      intros a b Ha Hb. apply Hf; right; assumption.
    + destruct xs as [|y ys]; simpl; constructor.
      inversion Hhd; subst.
      apply Hf; [left; reflexivity | right; left; reflexivity | assumption].
Qed.

(** X1 (chronological output).  The insertions that [match] returns are in
    order of [start_sec], whatever the order in which the two loops accepted
    them. *)
Theorem match_output_chronological
    (relevance : list string -> list string -> Matcher.Matrix)
    (self : Matcher.SemanticMatcher) (aroll_segments : list Segment.t)
    (broll_descriptions : Py.dict string) (output : list Insertion.t) :
  Matcher.match_ relevance self aroll_segments broll_descriptions
    = Py.Ok output ->
  Sorted (fun a b => Insertion.start_sec a <= Insertion.start_sec b) output.
Proof.
  intro H. apply match_returns in H. destruct H as (_ & _ & ->).
  eapply Sorted_map;
    [|apply (SelectorFacts.sorted_by_Sorted Candidate.start_time)].
  intros a b Ha Hb Hab.
  assert (Hacc : forall m,
            In m (Matcher._select_best_matches self
                    (Matcher.similarity_matrix_in_match relevance
                       aroll_segments broll_descriptions)
                    aroll_segments (Py.keys broll_descriptions)
                    broll_descriptions) ->
            Insertion.start_sec (Matcher.format_match aroll_segments m)
            = Py.round (Candidate.start_time m) 2).
  { intros m Hm. eapply accepted_start_sec.
    eapply Permutation_in; [apply MatcherFacts.output_perm | exact Hm]. }
  rewrite (Hacc a Ha), (Hacc b Hb). apply PyFacts.round_mono, Hab.
Qed.

Lemma match_output_chronological_witness :
  exists output,
    Matcher.match_ (fun _ _ => Examples.one_clip_matrix)
      Examples.default_matcher Examples.three_segments Examples.one_clip
      = Py.Ok output /\
    Sorted (fun a b => Insertion.start_sec a <= Insertion.start_sec b) output.
Proof.
  eexists. split; [vm_compute; reflexivity|].
  apply (match_output_chronological (fun _ _ => Examples.one_clip_matrix)
           Examples.default_matcher Examples.three_segments
           Examples.one_clip _ eq_refl).
Defined.

(** X2 (one insertion per segment).  No narration segment is matched twice:
    the accepted candidates, Pass 2 included, have pairwise different
    [segment_idx]. *)
Theorem selector_one_insertion_per_segment (self : Matcher.SemanticMatcher)
    (similarity_matrix : Matcher.Matrix) (aroll_segments : list Segment.t)
    (broll_ids : list string) (broll_descriptions : Py.dict string) :
  NoDup (map Candidate.segment_idx
           (Matcher._select_best_matches self similarity_matrix
              aroll_segments broll_ids broll_descriptions)).
Proof.
  eapply Permutation_NoDup.
  - apply Permutation_map, Permutation_sym, MatcherFacts.output_perm.
  - apply SelectorFacts.selection_indexed.
Qed.

(** X3 (no more insertions than segments).  [match] never returns more
    insertions than there are narration segments, whatever
    [min_insertions] and [max_insertions] are. *)
Theorem match_output_at_most_segments
    (relevance : list string -> list string -> Matcher.Matrix)
    (self : Matcher.SemanticMatcher) (aroll_segments : list Segment.t)
    (broll_descriptions : Py.dict string) (output : list Insertion.t) :
  Matcher.match_ relevance self aroll_segments broll_descriptions
    = Py.Ok output ->
  (List.length output <= List.length aroll_segments)%nat.
Proof.
  intro H. apply match_returns in H. destruct H as (_ & _ & ->).
  rewrite length_map.
  set (out := Matcher._select_best_matches _ _ _ _ _).
  rewrite <- (length_map Candidate.segment_idx out).
  rewrite <- (length_seq (List.length aroll_segments) 0%nat).
  apply NoDup_incl_length.
  - apply selector_one_insertion_per_segment.
  - intros i Hi. apply in_map_iff in Hi. destruct Hi as [m [<- Hm]].
    assert (Hp : In m (Matcher.matches
                         (Matcher.selection self
                            (Matcher.similarity_matrix_in_match relevance
                               aroll_segments broll_descriptions)
                            aroll_segments (Py.keys broll_descriptions)
                            broll_descriptions))).
    { eapply Permutation_in; [apply MatcherFacts.output_perm | exact Hm]. }
    apply MatcherFacts.selected_potential in Hp.
    apply MatcherFacts.potential_matches_In in Hp.
    destruct Hp as (segment & _ & Hseg & _).
    apply in_seq. split; [lia|]. simpl.
    apply nth_error_Some. congruence.
Qed.

Lemma match_output_at_most_segments_witness :
  exists output,
    Matcher.match_ (fun _ _ => Examples.one_clip_matrix)
      Examples.default_matcher Examples.three_segments Examples.one_clip
      = Py.Ok output /\
    (List.length output <= List.length Examples.three_segments)%nat.
Proof.
  eexists. split; [vm_compute; reflexivity|].
  apply (match_output_at_most_segments (fun _ _ => Examples.one_clip_matrix)
           Examples.default_matcher Examples.three_segments
           Examples.one_clip _ eq_refl).
Defined.



(** X5 (reuse cap without relaxation).  When the first loop alone reaches
    [min_insertions], so that the second loop does not run, no clip is used
    by more than 2 insertions of the output. *)
Theorem selector_reuse_cap_without_pass2 (self : Matcher.SemanticMatcher)
    (similarity_matrix : Matcher.Matrix) (aroll_segments : list Segment.t)
    (broll_ids : list string) (broll_descriptions : Py.dict string)
    (clip_id : string) :
  (Matcher.min_insertions self
   <= List.length
        (Matcher.matches
           (Matcher.selection_pass1 self similarity_matrix aroll_segments
                                    broll_ids broll_descriptions)))%nat ->
  (Spec.uses clip_id
     (Matcher._select_best_matches self similarity_matrix aroll_segments
                                   broll_ids broll_descriptions) <= 2)%nat.
Proof.
  intro Hmin.
  pose proof (MatcherFacts.output_perm self similarity_matrix aroll_segments
                broll_ids broll_descriptions) as Hperm.
  unfold Matcher.selection in Hperm.
  replace (List.length _ <? Matcher.min_insertions self)%nat with false
    in Hperm by (symmetry; apply Nat.ltb_ge; exact Hmin).
  unfold Spec.uses.
  rewrite (proj1 (Permutation_count_occ string_dec _ _)
             (Permutation_map Candidate.broll_id Hperm) clip_id).
  apply selector_pass1_reuse_cap.
Qed.

Lemma selector_reuse_cap_without_pass2_witness :
  (Spec.uses "broll_1"
     (Matcher._select_best_matches Examples.two_to_six
        Examples.one_clip_matrix Examples.three_segments
        (Py.keys Examples.one_clip) Examples.one_clip) <= 2)%nat.
Proof.
  apply (selector_reuse_cap_without_pass2 Examples.two_to_six
           Examples.one_clip_matrix Examples.three_segments
           (Py.keys Examples.one_clip) Examples.one_clip).
  vm_compute. apply le_n.
Defined.


(** * More on the Timeline Assembler *)

Module TimelineMoreFacts.
Import Timeline TimelineStatistics.

Lemma cutaways_app (l1 l2 : list TimelineSegment) :
  cutaways (l1 ++ l2) = cutaways l1 ++ cutaways l2.
Proof. apply flat_map_app. Qed.

Lemma step_cutaways (aroll_segments : list Segment.t) (i : Insertion.t)
    (state : Q * list TimelineSegment) :
  cutaways (snd (step aroll_segments i state))
  = cutaways (snd state) ++ [cutaway_of i].
Proof.
  destruct state as [cur acc]. unfold step.
  destruct (Py.ltb cur (Insertion.start_sec i)); simpl snd;
    rewrite ?cutaways_app; simpl; rewrite ?app_nil_r; reflexivity.
Qed.

Lemma loop_cutaways (aroll_segments : list Segment.t)
    (insertions : list Insertion.t) (state : Q * list TimelineSegment) :
  cutaways (snd (loop aroll_segments insertions state))
  = cutaways (snd state) ++ map cutaway_of insertions.
Proof.
  revert state. induction insertions as [|i rest IH]; intro state; cbn [loop].
  - simpl. symmetry. apply app_nil_r.
  - rewrite IH, step_cutaways, <- app_assoc. reflexivity.
Qed.

Lemma totals_counts_from (l : list TimelineSegment) (acc : Totals) :
  broll_count (fold_left count l acc)
  = (broll_count acc + List.length (cutaways l))%nat /\
  (aroll_count (fold_left count l acc) + broll_count (fold_left count l acc)
   = aroll_count acc + broll_count acc + List.length l)%nat.
Proof.
  revert acc. induction l as [|s l IH]; intro acc; simpl.
  - split; lia.
  - destruct (IH (count acc s)) as [Hb Hab].
    split; [rewrite Hb | rewrite Hab]; destruct s; simpl; lia.
Qed.

Lemma create_cutaways (aroll_segments : list Segment.t)
    (broll_matches : list Insertion.t) :
  aroll_segments <> [] ->
  cutaways (_create_timeline_segments aroll_segments broll_matches)
  = map cutaway_of (Py.sorted_by Insertion.start_sec broll_matches).
Proof.
  intro Hne. destruct aroll_segments as [|first rest]; [contradiction|].
  unfold _create_timeline_segments.
  pose proof (loop_cutaways (first :: rest)
                (Py.sorted_by Insertion.start_sec broll_matches) (0.0, []))
    as H.
  destruct (loop _ _ _) as [cur acc]. simpl in H.
  destruct (Py.ltb cur _);
    destruct (Py.sorted_by Insertion.start_sec broll_matches);
    rewrite ?cutaways_app, H; simpl;
    rewrite ?app_nil_r; reflexivity.
Qed.

Lemma totals_durations_from (l : list TimelineSegment) (acc : Totals) :
  Forall (fun s => 0 <= duration s) l ->
  0 <= aroll_duration acc -> 0 <= broll_duration acc ->
  total_duration acc == aroll_duration acc + broll_duration acc ->
  0 <= aroll_duration (fold_left count l acc) /\
  0 <= broll_duration (fold_left count l acc) /\
  total_duration (fold_left count l acc)
  == aroll_duration (fold_left count l acc)
     + broll_duration (fold_left count l acc).
Proof.
  revert acc. induction l as [|s l IH]; intros acc Hl Ha Hb Ht; simpl.
  - repeat split; assumption.
  - inversion Hl as [|? ? Hs Hl']; subst.
    apply IH; [exact Hl' | | |]; destruct s; simpl in *; lra.
Qed.

Lemma total_confidence_from (l : list Q) (acc lo hi : Q) :
  Forall (fun c => lo <= c <= hi) l ->
  acc + inject_Z (Z.of_nat (List.length l)) * lo <= fold_left Qplus l acc /\
  fold_left Qplus l acc <= acc + inject_Z (Z.of_nat (List.length l)) * hi.
Proof.
  revert acc. induction l as [|c l IH]; intros acc Hl.
  - simpl. change (inject_Z 0) with 0. split; lra.
  - inversion Hl as [|? ? Hc Hl']; subst.
    destruct (IH (acc + c) Hl') as [H1 H2].
    cbn [fold_left List.length].
    rewrite Nat2Z.inj_succ, <- Z.add_1_r, inject_Z_plus.
    change (inject_Z 1) with 1.
    split; lra.
Qed.

Lemma step_forward (aroll_segments : list Segment.t) (i : Insertion.t)
    (state : Q * list TimelineSegment) :
  Forall forward (snd state) ->
  Forall forward (snd (step aroll_segments i state)).
Proof.
  destruct state as [cur acc]. unfold step. simpl snd. intro H.
  destruct (Py.ltb cur (Insertion.start_sec i)) eqn:E; simpl snd.
  - apply PyFacts.ltb_lt in E.
    repeat (apply Forall_app; split); try exact H;
      repeat constructor; simpl.
    + apply PyFacts.round_mono. lra.
    + rewrite <- TimelineFacts.round_zero. apply PyFacts.round_mono. lra.
  - apply Forall_app. split; [exact H|]. repeat constructor.
Qed.

Lemma loop_forward (aroll_segments : list Segment.t)
    (insertions : list Insertion.t) (state : Q * list TimelineSegment) :
  Forall forward (snd state) ->
  Forall forward (snd (loop aroll_segments insertions state)).
Proof.
  revert state. induction insertions as [|i rest IH]; intros state H;
    cbn [loop]; [exact H|].
  apply IH, step_forward, H.
Qed.

Lemma step_linked (aroll_segments : list Segment.t) (i : Insertion.t)
    (state : Q * list TimelineSegment) :
  find (fun seg =>
          Py.ltb (Qabs (Segment.start_time seg - Insertion.start_sec i)) 0.1)
       aroll_segments <> None ->
  Forall (linked aroll_segments) (snd state) ->
  Forall (linked aroll_segments) (snd (step aroll_segments i state)).
Proof.
  destruct state as [cur acc]. unfold step. simpl snd. intros Hfind H.
  destruct (find _ aroll_segments) as [seg|] eqn:F; [|congruence].
  apply find_some in F. destruct F as [Hin _].
  destruct (Py.ltb cur (Insertion.start_sec i)); simpl snd;
    repeat (apply Forall_app; split); try exact H;
    repeat constructor; simpl; exists seg; split; auto.
Qed.

Lemma loop_linked (aroll_segments : list Segment.t)
    (insertions : list Insertion.t) (state : Q * list TimelineSegment) :
  Forall (fun i =>
            find (fun seg =>
                    Py.ltb (Qabs (Segment.start_time seg
                                  - Insertion.start_sec i)) 0.1)
                 aroll_segments <> None) insertions ->
  Forall (linked aroll_segments) (snd state) ->
  Forall (linked aroll_segments)
         (snd (loop aroll_segments insertions state)).
Proof.
  revert state. induction insertions as [|i rest IH]; intros state Hl H;
    cbn [loop]; [exact H|].
  inversion Hl; subst. apply IH; [assumption|].
  apply step_linked; assumption.
Qed.

End TimelineMoreFacts.

(** X7 (one cutaway per insertion).  For a non-empty segment list the
    timeline has exactly one B-roll interval per insertion, in order of
    [start_sec], whether or not the insertions overlap; each carries the
    insertion's clip id, reason and confidence unchanged, and its start, end
    and duration rounded to 2 decimals. *)
Theorem timeline_cutaways (aroll_segments : list Segment.t)
    (broll_matches : list Insertion.t) :
  aroll_segments <> [] ->
  TimelineStatistics.cutaways
    (Timeline._create_timeline_segments aroll_segments broll_matches)
  = map TimelineStatistics.cutaway_of
        (Py.sorted_by Insertion.start_sec broll_matches).
Proof.
  apply TimelineMoreFacts.create_cutaways.
Qed.

Lemma timeline_cutaways_witness :
  map (fun c => snd (fst (fst c)))
      (TimelineStatistics.cutaways
         (Timeline._create_timeline_segments Examples.ten_segments
            Examples.three_insertions))
  = map Insertion.broll_id
        (Py.sorted_by Insertion.start_sec Examples.three_insertions).
Proof.
  rewrite (timeline_cutaways Examples.ten_segments Examples.three_insertions)
    by discriminate.
  rewrite map_map. reflexivity.
Defined.

(** X8 (statistics count the segments).  In the statistics of
    [create_timeline] for a non-empty segment list, [broll_insertions] is
    the number of insertions given, and [aroll_segments] and
    [broll_insertions] add up to [total_segments]. *)
Theorem statistics_counts (aroll_segments : list Segment.t)
    (broll_matches : list Insertion.t) :
  aroll_segments <> [] ->
  let stats :=
    TimelineStatistics.create_timeline_statistics aroll_segments
                                                  broll_matches in
  TimelineStatistics.stat_broll_insertions stats
    = List.length broll_matches /\
  (TimelineStatistics.stat_aroll_segments stats
   + TimelineStatistics.stat_broll_insertions stats
   = TimelineStatistics.stat_total_segments stats)%nat.
Proof.
  intros Hne stats. unfold stats,
    TimelineStatistics.create_timeline_statistics,
    TimelineStatistics._calculate_statistics, TimelineStatistics.totals.
  simpl.
  destruct (TimelineMoreFacts.totals_counts_from
              (Timeline._create_timeline_segments aroll_segments
                                                  broll_matches)
              TimelineStatistics.zero) as [Hb Hab].
  split.
  - rewrite Hb. simpl.
    rewrite (TimelineMoreFacts.create_cutaways aroll_segments broll_matches Hne).
    rewrite length_map. apply PyFacts.sort_length.
  - rewrite Hab. reflexivity.
Qed.

Lemma statistics_counts_witness :
  TimelineStatistics.stat_broll_insertions
    (TimelineStatistics.create_timeline_statistics Examples.ten_segments
       Examples.three_insertions)
  = List.length Examples.three_insertions.
Proof.
  apply (statistics_counts Examples.ten_segments Examples.three_insertions).
  discriminate.
Defined.

(** X9 (coverage is a percentage).  When no timeline segment has a negative
    duration, [broll_coverage_percent] lies between 0 and 100. *)
Theorem statistics_coverage_bounds
    (timeline_segments : list Timeline.TimelineSegment)
    (aroll_segments : list Segment.t) (broll_matches : list Insertion.t) :
  Forall (fun s => 0 <= TimelineStatistics.duration s) timeline_segments ->
  let stats :=
    TimelineStatistics._calculate_statistics timeline_segments
      aroll_segments broll_matches in
  0 <= TimelineStatistics.stat_broll_coverage_percent stats /\
  TimelineStatistics.stat_broll_coverage_percent stats <= 100.
Proof.
  intros Hd stats. unfold stats, TimelineStatistics._calculate_statistics.
  simpl.
  destruct (TimelineMoreFacts.totals_durations_from timeline_segments
              TimelineStatistics.zero Hd) as (Ha & Hb & Ht);
    try (simpl; lra).
  fold (TimelineStatistics.totals timeline_segments) in Ha, Hb, Ht.
  destruct (Py.ltb 0 _) eqn:E.
  - apply PyFacts.ltb_lt in E.
    set (t := TimelineStatistics.totals timeline_segments) in *.
    assert (H0 : 0 <= TimelineStatistics.broll_duration t
                      / TimelineStatistics.total_duration t)
      by (apply Qle_shift_div_l; [exact E | lra]).
    assert (H1 : TimelineStatistics.broll_duration t
                 / TimelineStatistics.total_duration t <= 1)
      by (apply Qle_shift_div_r; [exact E | lra]).
    assert (R0 : Py.round 0 1 == 0) by reflexivity.
    assert (R100 : Py.round 100 1 == 100) by reflexivity.
    pose proof (PyFacts.round_mono 0
                  (TimelineStatistics.broll_duration t
                   / TimelineStatistics.total_duration t * 100) 1
                  ltac:(lra)) as Hlo.
    pose proof (PyFacts.round_mono
                  (TimelineStatistics.broll_duration t
                   / TimelineStatistics.total_duration t * 100) 100 1
                  ltac:(lra)) as Hhi.
    split; lra.
  - split; [unfold Qle; simpl; lia | unfold Qle; simpl; lia].
Qed.

Lemma statistics_coverage_bounds_witness :
  let stats :=
    TimelineStatistics.create_timeline_statistics Examples.ten_segments
      Examples.three_insertions in
  0 <= TimelineStatistics.stat_broll_coverage_percent stats /\
  TimelineStatistics.stat_broll_coverage_percent stats <= 100.
Proof.
  apply (statistics_coverage_bounds
           (Timeline._create_timeline_segments Examples.ten_segments
              Examples.three_insertions)
           Examples.ten_segments Examples.three_insertions).
  repeat constructor; vm_compute; discriminate.
Defined.


(** X11 (narration intervals run forwards).  For a narration that does not
    end before 0, every A-roll interval of the timeline has
    [start_time <= end_time] and a non-negative [duration], also when the
    insertions overlap or are out of range. *)
Theorem timeline_narration_forward (aroll_segments : list Segment.t)
    (broll_matches : list Insertion.t) :
  0 <= Spec.total_duration aroll_segments ->
  Forall TimelineStatistics.forward
    (Timeline._create_timeline_segments aroll_segments broll_matches).
Proof.
  intro Htotal. unfold Timeline._create_timeline_segments.
  destruct aroll_segments as [|first rest]; [constructor|].
  unfold Spec.total_duration in Htotal.
  rewrite <- (last_first_default first (Segment.Build 0 0 "")) in Htotal.
  pose proof (TimelineMoreFacts.loop_forward (first :: rest)
                (Py.sorted_by Insertion.start_sec broll_matches)
                (0.0, []) (Forall_nil _)) as H.
  destruct (Timeline.loop _ _ _) as [cur acc]. simpl snd in H.
  assert (Htail : forall l, Forall TimelineStatistics.forward l ->
            Forall TimelineStatistics.forward
              (match Py.sorted_by Insertion.start_sec broll_matches with
               | [] => l ++ [Timeline.a_roll 0.0
                   (Py.round (Segment.end_time (last (first :: rest) first)) 2)
                   (Py.round (Segment.end_time (last (first :: rest) first)) 2)
                   "a_roll_video"
                   (Timeline._get_transcript_for_range (first :: rest) 0.0
                      (Segment.end_time (last (first :: rest) first)))]
               | _ :: _ => l
               end)).
  { intros l Hl. destruct (Py.sorted_by _ _); [|exact Hl].
    apply Forall_app. split; [exact Hl|]. repeat constructor; simpl.
    - assert (R : 0.0 == Py.round 0 2) by reflexivity.
      rewrite R. apply PyFacts.round_mono, Htotal.
    - rewrite <- TimelineFacts.round_zero.
      apply PyFacts.round_mono, Htotal. }
  apply Htail.
  destruct (Py.ltb cur _) eqn:E; [|exact H].
  apply PyFacts.ltb_lt in E.
  apply Forall_app. split; [exact H|]. repeat constructor.
  - apply PyFacts.round_mono. lra.
  - rewrite <- TimelineFacts.round_zero. apply PyFacts.round_mono. lra.
Qed.

Lemma timeline_narration_forward_witness :
  Forall TimelineStatistics.forward
    (Timeline._create_timeline_segments Examples.ten_segments
       Examples.three_insertions).
Proof.
  apply (timeline_narration_forward Examples.ten_segments
           Examples.three_insertions).
  vm_compute. discriminate.
Defined.

(** An insertion that [match] returns starts, up to rounding, where one of the
    narration segments starts, so the planner's search for a segment within
    0.1 seconds of it succeeds. *)
Lemma match_insertion_has_segment
    (relevance : list string -> list string -> Matcher.Matrix)
    (self : Matcher.SemanticMatcher) (aroll_segments : list Segment.t)
    (broll_descriptions : Py.dict string)
    (output : list Insertion.t) (ins : Insertion.t) :
  Matcher.match_ relevance self aroll_segments broll_descriptions
    = Py.Ok output ->
  In ins output ->
  find (fun seg =>
          Py.ltb (Qabs (Segment.start_time seg - Insertion.start_sec ins)) 0.1)
       aroll_segments <> None.
Proof.
  intros H Hin Hnone.
  destruct (match_insertion_origin _ _ _ _ _ _ H Hin) as [m [Hm ->]].
  apply MatcherFacts.potential_matches_In in Hm.
  destruct Hm as (segment & _ & Hseg & _).
  pose proof (find_none _ _ Hnone segment (nth_error_In _ _ Hseg)) as Hfalse.
  cbv beta in Hfalse. apply PyFacts.ltb_ge in Hfalse.
  unfold Matcher.format_match in Hfalse.
  cbn [Insertion.start_sec] in Hfalse.
  rewrite (nth_error_nth _ _ _ Hseg) in Hfalse.
  destruct (PyFacts.round_2 (Segment.start_time segment)) as [He _].
  rewrite Qabs_Qminus in He. lra.
Qed.

(** X12 (cutaways of the matcher's output are linked).  When the timeline is
    built from the insertions that [match] returned for the same segments,
    as the [/generate] pipeline does, every B-roll interval has a
    [matching_segment], and it is one of the narration segments. *)
Theorem pipeline_cutaways_linked
    (relevance : list string -> list string -> Matcher.Matrix)
    (self : Matcher.SemanticMatcher) (aroll_segments : list Segment.t)
    (broll_descriptions : Py.dict string) (broll_matches : list Insertion.t) :
  Matcher.match_ relevance self aroll_segments broll_descriptions
    = Py.Ok broll_matches ->
  Forall (TimelineStatistics.linked aroll_segments)
    (Timeline._create_timeline_segments aroll_segments broll_matches).
Proof.
  intro H. unfold Timeline._create_timeline_segments.
  destruct aroll_segments as [|first rest] eqn:E; [constructor|].
  rewrite <- E in *.
  assert (Hall : Forall (fun i =>
            find (fun seg =>
                    Py.ltb (Qabs (Segment.start_time seg
                                  - Insertion.start_sec i)) 0.1)
                 aroll_segments <> None)
            (Py.sorted_by Insertion.start_sec broll_matches)).
  { apply Forall_forall. intros i Hi.
    apply (proj1 (PyFacts.sort_In
                    (fun y x => Py.ltb (Insertion.start_sec y)
                                       (Insertion.start_sec x)) i _))
      in Hi.
    eapply match_insertion_has_segment; eassumption. }
  pose proof (TimelineMoreFacts.loop_linked aroll_segments _ (0.0, [])
                Hall (Forall_nil _)) as Hloop.
  destruct (Timeline.loop _ _ _) as [cur acc]. simpl snd in Hloop.
  destruct (Py.ltb cur _);
    destruct (Py.sorted_by Insertion.start_sec broll_matches);
    repeat (apply Forall_app; split); try exact Hloop;
    repeat constructor.
Qed.

Lemma pipeline_cutaways_linked_witness :
  exists broll_matches,
    Matcher.match_ (fun _ _ => Examples.one_clip_matrix)
      Examples.default_matcher Examples.three_segments Examples.one_clip
      = Py.Ok broll_matches /\
    Forall (TimelineStatistics.linked Examples.three_segments)
      (Timeline._create_timeline_segments Examples.three_segments
                                          broll_matches).
Proof.
  eexists. split; [vm_compute; reflexivity|].
  apply (pipeline_cutaways_linked (fun _ _ => Examples.one_clip_matrix)
           Examples.default_matcher Examples.three_segments
           Examples.one_clip _ eq_refl).
Defined.

(** * The transcript segments *)

Module TranscribeFacts.
Import Transcribe.

Section Facts.
Variable strip : string -> string.

(** Every processed segment is the rounding of a raw segment whose stripped
    text is not empty. *)
Lemma process_segments_In (data : option (list RawSegment)) (s : Segment.t) :
  In s (process_segments strip data) <->
  exists raw,
    In raw (get data []) /\
    strip (get (text raw) ""%string) <> ""%string /\
    s = {| Segment.start_time := Py.round (get (start raw) 0.0) 2;
           Segment.end_time := Py.round (get (end_ raw) 0.0) 2;
           Segment.text := strip (get (text raw) ""%string) |}.
Proof.
  unfold process_segments. rewrite in_flat_map. split.
  - intros [raw [Hraw Hs]]. exists raw. split; [exact Hraw|].
    destruct (strip (get (text raw) ""%string)) eqn:E; simpl in Hs; [contradiction|].
    destruct Hs as [<- | []]. split; [discriminate | reflexivity].
  - intros [raw (Hraw & Hne & ->)]. exists raw. split; [exact Hraw|].
    destruct (strip (get (text raw) ""%string)) eqn:E; [contradiction|].
    left. reflexivity.
Qed.

Lemma process_segments_cons (raw : RawSegment) (rest : list RawSegment) :
  process_segments strip (Some (raw :: rest))
  = process_segments strip (Some [raw]) ++ process_segments strip (Some rest).
Proof.
  unfold process_segments. simpl. rewrite app_nil_r. reflexivity.
Qed.

Lemma process_segments_length (data : option (list RawSegment)) :
  (List.length (process_segments strip data) <= List.length (get data []))%nat.
Proof.
  unfold process_segments.
  induction (get data []) as [|raw rest IH]; simpl; [lia|].
  rewrite length_app.
  destruct (strip (get (text raw) ""%string)); simpl; lia.
Qed.

Lemma process_segments_sorted (raws : list RawSegment) :
  StronglySorted (fun a b => get (start a) 0.0 <= get (start b) 0.0) raws ->
  StronglySorted (fun a b => Segment.start_time a <= Segment.start_time b)
                 (process_segments strip (Some raws)).
Proof.
  induction raws as [|raw rest IH]; intro Hs.
  - constructor.
  - inversion Hs as [|? ? Hrest Hall]; subst.
    rewrite process_segments_cons.
    unfold process_segments at 1. simpl. rewrite app_nil_r.
    destruct (strip (get (text raw) ""%string)); simpl; [apply IH, Hrest|].
    constructor; [apply IH, Hrest|].
    apply Forall_forall. intros seg Hin.
    apply process_segments_In in Hin.
    destruct Hin as [r (Hr & _ & ->)]. simpl in Hr |- *.
    apply PyFacts.round_mono.
    exact (proj1 (Forall_forall _ _) Hall r Hr).
Qed.

End Facts.
End TranscribeFacts.

(** X13 (transcript segments are clean).  [process_segments] keeps at most
    one segment per raw segment; every segment it returns has a non-empty
    text (the stripped text of a raw segment) and start and end times that
    are whole hundredths of a second. *)
Theorem process_segments_clean (strip : string -> string)
    (transcript_data : option (list Transcribe.RawSegment)) :
  let segments := Transcribe.process_segments strip transcript_data in
  (List.length segments
   <= List.length (Transcribe.get transcript_data []))%nat /\
  Forall (fun s =>
            Segment.text s <> ""%string /\
            (exists raw, In raw (Transcribe.get transcript_data []) /\
                         Segment.text s
                         = strip (Transcribe.get (Transcribe.text raw) ""%string)) /\
            (exists k : Z, Segment.start_time s == k # 100) /\
            (exists k : Z, Segment.end_time s == k # 100))
         segments.
Proof.
  intro segments. split; [apply TranscribeFacts.process_segments_length|].
  apply Forall_forall. intros s Hs.
  apply TranscribeFacts.process_segments_In in Hs.
  destruct Hs as [raw (Hraw & Hne & ->)]. simpl.
  split; [exact Hne|]. split; [exists raw; split; [exact Hraw | reflexivity]|].
  split; apply PyFacts.round_2.
Qed.

(** X14 (transcript order).  [process_segments] keeps the order of the raw
    segments: when the raw start times never decrease, neither do the
    [start_time]s returned; and a raw segment that does not end before it
    starts gives a segment with [start_time <= end_time]. *)
Theorem process_segments_ordered (strip : string -> string)
    (raws : list Transcribe.RawSegment) :
  let raw_start := fun r => Transcribe.get (Transcribe.start r) 0.0 in
  let raw_end := fun r => Transcribe.get (Transcribe.end_ r) 0.0 in
  let segments := Transcribe.process_segments strip (Some raws) in
  (Sorted (fun a b => raw_start a <= raw_start b) raws ->
   Sorted (fun a b => Segment.start_time a <= Segment.start_time b)
          segments) /\
  (Forall (fun r => raw_start r <= raw_end r) raws ->
   Forall (fun s => Segment.start_time s <= Segment.end_time s) segments).
Proof.
  intros raw_start raw_end segments. split.
  - intro Hs. apply StronglySorted_Sorted.
    apply TranscribeFacts.process_segments_sorted.
    apply Sorted_StronglySorted; [|exact Hs].
    intros x y z Hxy Hyz. lra.
  - intro Hall. apply Forall_forall. intros s Hs.
    apply TranscribeFacts.process_segments_In in Hs.
    destruct Hs as [raw (Hraw & _ & ->)]. simpl in Hraw |- *.
    apply PyFacts.round_mono.
    exact (proj1 (Forall_forall _ _) Hall raw Hraw).
Qed.

(** * Rounding twice, and timelines over transcribed segments *)

Module RoundFacts.

Lemma round_half_even_integer (z : Z) : Py.round_half_even (inject_Z z) = z.
Proof.
  unfold Py.round_half_even. rewrite Qfloor_Z.
  replace (Py.ltb (inject_Z z - inject_Z z) (1 # 2)) with true;
    [reflexivity|].
  symmetry. apply PyFacts.ltb_lt. lra.
Qed.

(** A number that is already a whole number of units [10^-n] is left
    unchanged by [round(., n)]. *)
Lemma round_of_decimal (x : Q) (n : nat) (z : Z) :
  x * inject_Z (10 ^ Z.of_nat n) == inject_Z z -> Py.round x n == x.
Proof.
  intro H. pose proof (PyFacts.pow10_pos n) as Hp.
  unfold Py.round. cbv zeta.
  set (p := inject_Z (10 ^ Z.of_nat n)) in *.
  assert (E : Py.round_half_even (x * p) = z).
  { rewrite <- (round_half_even_integer z).
    apply Z.le_antisymm; apply PyFacts.round_half_even_mono; lra. }
  rewrite E, <- H. field. lra.
Qed.

Lemma round_idempotent (x : Q) (n : nat) :
  Py.round (Py.round x n) n == Py.round x n.
Proof. eapply round_of_decimal, PyFacts.round_decimal. Qed.

Lemma last_In {A} (a d : A) (l : list A) : In (last (a :: l) d) (a :: l).
Proof.
  revert a. induction l as [|b l IH]; intro a.
  - left. reflexivity.
  - right. change (last (a :: b :: l) d) with (last (b :: l) d). apply IH.
Qed.

(** The covering that [_create_timeline_segments] builds for insertions
    that are non-overlapping and contained in the narration span. *)
Lemma create_covers (aroll_segments : list Segment.t)
    (broll_matches : list Insertion.t) :
  aroll_segments <> [] ->
  broll_matches <> [] ->
  Spec.non_overlapping broll_matches ->
  Spec.contained (Spec.total_duration aroll_segments) broll_matches ->
  Invariants.covers 0 (Py.round (Spec.total_duration aroll_segments) 2)
    (Timeline._create_timeline_segments aroll_segments broll_matches).
Proof.
  intros Hsegs Hins Hno Hin.
  destruct aroll_segments as [|first rest]; [contradiction|].
  unfold Timeline._create_timeline_segments, Spec.total_duration in *.
  rewrite (last_first_default first (Segment.Build 0 0 "")).
  set (total := Segment.end_time (last (first :: rest) (Segment.Build 0 0 "")))
    in *.
  unfold Spec.non_overlapping in Hno.
  assert (Hne : Py.sorted_by Insertion.start_sec broll_matches <> []).
  { intro E. apply PyFacts.sort_nil in E. contradiction. }
  assert (Hin' : Spec.contained total
                   (Py.sorted_by Insertion.start_sec broll_matches)).
  { eapply Permutation_Forall; [|exact Hin].
    apply Permutation_sym, PyFacts.sort_perm. }
  set (insertions := Py.sorted_by Insertion.start_sec broll_matches) in *.
  assert (Hend : Forall (fun i => Spec.insertion_end i <= total) insertions).
  { eapply Forall_impl; [|exact Hin']. intros j [_ H]. exact H. }
  assert (Hready : Invariants.ready 0.0 insertions).
  { destruct insertions as [|i l]; [exact I|].
    inversion Hin' as [|? ? [H0 _] _]; subst. simpl. lra. }
  destruct (TimelineFacts.loop_covers (first :: rest) total insertions
              (0.0, []) Hne Hno Hend Hready) as [Hcur Hcov].
  { left. split; reflexivity. }
  destruct (Timeline.loop (first :: rest) insertions (0.0, []))
    as [current_time timeline_segments].
  simpl fst in *. simpl snd in *.
  destruct insertions as [|i l]; [contradiction Hne; reflexivity|].
  destruct (Py.ltb current_time total) eqn:L.
  - match goal with
    | |- Invariants.covers _ _ (_ ++ [?a]) =>
        refine (TimelineFacts.covers_snoc 0 _ _ a Hcov _)
    end.
    reflexivity.
  - apply PyFacts.ltb_ge in L.
    eapply TimelineFacts.covers_comp; [|exact Hcov].
    apply PyFacts.round_comp, Qle_antisym; assumption.
Qed.

End RoundFacts.



(** * The ffmpeg command *)

Module RenderFacts.
Import Timeline Render.

Lemma mem_string_In (x : string) (s : list string) : mem x s = true <-> In x s.
Proof.
  unfold mem. rewrite existsb_exists. split.
  - intros [y [Hy E]]. apply String.eqb_eq in E. subst. exact Hy.
  - intro H. exists x. split; [exact H | apply String.eqb_refl].
Qed.

Section Inputs.
Variable broll_paths : Py.dict string.

Lemma input_step_invariant (base : list string) (state : InputState)
    (segment : TimelineSegment) :
  input_invariant broll_paths base state ->
  input_invariant broll_paths base (input_step broll_paths state segment).
Proof.
  destruct state as [[cmd used] inputs]. unfold input_step, input_invariant.
  intros (Hu & Hnd & Hp & Hc).
  destruct (Py.get broll_paths (TimelineStatistics.source segment))
    as [path|] eqn:G; [|repeat split; auto; apply Hu].
  destruct (mem _ used) eqn:M; [repeat split; auto; apply Hu|].
  assert (Hnew : ~ In (TimelineStatistics.source segment) inputs).
  { intro H. apply Hu, mem_string_In in H. congruence. }
  split; [|split; [|split]].
  - intro id. simpl. rewrite in_app_iff, Hu. simpl. tauto.
  - apply Permutation_NoDup
      with (l := TimelineStatistics.source segment :: inputs).
    + apply Permutation_cons_append.
    + constructor; assumption.
  - apply Forall_app. split; [exact Hp|].
    constructor; [congruence | constructor].
  - rewrite Hc. unfold input_arguments. rewrite flat_map_app. simpl.
    unfold Py.get_default. rewrite G, <- app_assoc. reflexivity.
Qed.

Lemma input_fold_invariant (base : list string) (l : list TimelineSegment)
    (state : InputState) :
  input_invariant broll_paths base state ->
  input_invariant broll_paths base
    (fold_left (input_step broll_paths) l state).
Proof.
  revert state. induction l as [|s l IH]; intros state H; simpl.
  - exact H.
  - apply IH, input_step_invariant, H.
Qed.

(** Which clips end up among the inputs. *)
Lemma input_step_members (state : InputState) (s : TimelineSegment) :
  (forall x, In x (snd (fst state)) <-> In x (snd state)) ->
  (forall x, In x (snd (fst (input_step broll_paths state s)))
             <-> In x (snd (input_step broll_paths state s))) /\
  (forall id,
      In id (snd (input_step broll_paths state s)) <->
      In id (snd state) \/
      (TimelineStatistics.source s = id /\ Py.get broll_paths id <> None)).
Proof.
  destruct state as [[cmd used] inputs]. unfold input_step. simpl.
  intro Hu.
  destruct (Py.get broll_paths (TimelineStatistics.source s)) as [path|] eqn:G.
  - destruct (mem (TimelineStatistics.source s) used) eqn:M; simpl.
    + apply mem_string_In, Hu in M. split; [exact Hu|].
      intro id. split; [tauto|]. intros [H | [<- _]]; assumption.
    + split.
      * intro x. rewrite in_app_iff, Hu. simpl. tauto.
      * intro id. rewrite in_app_iff. simpl. split.
        -- intros [H | [<- | []]]; [tauto|]. right. split; congruence.
        -- intros [H | [<- _]]; tauto.
  - simpl. split; [exact Hu|].
    intro id. split; [tauto|]. intros [H | [<- Hp]]; [exact H | congruence].
Qed.

Lemma input_fold_members (l : list TimelineSegment) (state : InputState)
    (id : string) :
  (forall x, In x (snd (fst state)) <-> In x (snd state)) ->
  In id (snd (fold_left (input_step broll_paths) l state)) <->
  In id (snd state) \/
  (In id (map TimelineStatistics.source l) /\ Py.get broll_paths id <> None).
Proof.
  revert state. induction l as [|s l IH]; intros state Hu; simpl.
  - tauto.
  - destruct (input_step_members state s Hu) as [Hu' Hm].
    rewrite (IH _ Hu'), Hm. clear. intuition congruence.
Qed.
End Inputs.

(** The index loop numbers the clips of a duplicate-free list from [n]. *)
Lemma index_fold_other (l : list string) (m : Py.dict nat) (n : nat)
    (id : string) :
  ~ In id l ->
  Py.get (fst (fold_left index_step l (m, n))) id = Py.get m id.
Proof.
  revert m n. induction l as [|x l IH]; intros m n Hnot; simpl.
  - reflexivity.
  - rewrite IH by (simpl in Hnot; tauto).
    apply PyFacts.get_set_other. simpl in Hnot. tauto.
Qed.

Lemma index_fold_nth (l : list string) (m : Py.dict nat) (n k : nat)
    (id : string) :
  NoDup l -> nth_error l k = Some id ->
  Py.get (fst (fold_left index_step l (m, n))) id = Some (n + k)%nat.
Proof.
  revert m n k. induction l as [|x l IH]; intros m n k Hnd Hk.
  - destruct k; discriminate.
  - inversion Hnd as [|? ? Hx Hnd']; subst. simpl.
    destruct k as [|k]; simpl in Hk.
    + inversion Hk; subst.
      rewrite index_fold_other by exact Hx.
      rewrite PyFacts.get_set_same. f_equal. lia.
    + rewrite (IH _ _ k Hnd' Hk). f_equal. lia.
Qed.

Lemma append_assoc (a b c : string) :
  ((a ++ b) ++ c = a ++ (b ++ c))%string.
Proof. induction a as [|x a IH]; simpl; [reflexivity | rewrite IH; reflexivity]. Qed.

Section Overlays.
Variable float_str : Q -> string.
Variable broll_input_map : Py.dict nat.

Lemma overlay_step_invariant (state : OverlayState) (s : TimelineSegment) :
  overlay_invariant state ->
  overlay_invariant (overlay_step float_str broll_input_map state s) /\
  List.length (snd (overlay_step float_str broll_input_map state s))
  = (List.length (snd state)
     + if overlaid broll_input_map s then 1 else 0)%nat.
Proof.
  destruct state as [[cur idx] filters]. unfold overlay_step, overlaid.
  intros (Hidx & Hcur & Hchain).
  destruct s as [? ? ? ? ?|start_time ? duration broll_id ? ? ?];
    [split; [repeat split; assumption | simpl; lia]|].
  destruct (Py.get broll_input_map broll_id) as [input_index|];
    [|split; [repeat split; assumption | simpl; lia]].
  split; [|simpl; rewrite length_app; simpl; lia].
  cbn [overlay_invariant]. rewrite length_app. simpl List.length.
  replace (List.length filters + 1)%nat with (S (List.length filters)) by lia.
  split; [lia|]. split; [rewrite Hidx; reflexivity|].
  intros k Hk.
  destruct (Nat.eq_dec k (List.length filters)) as [->|Hne].
  - rewrite nth_error_app2 by lia. rewrite Nat.sub_diag.
    cbn [nth_error]. rewrite Hcur, Hidx.
    exists ("[" ++ int_str input_index ++ ":v]overlay=0:0:" ++ "enable='"
              ++ ("between(t," ++ float_str start_time ++ ","
                    ++ float_str (start_time + duration) ++ ")")
              ++ "'")%string.
    rewrite !append_assoc. reflexivity.
  - rewrite nth_error_app1 by lia. apply Hchain. lia.
Qed.

Lemma overlay_fold_invariant (l : list TimelineSegment) (state : OverlayState) :
  overlay_invariant state ->
  overlay_invariant
    (fold_left (overlay_step float_str broll_input_map) l state) /\
  List.length
    (snd (fold_left (overlay_step float_str broll_input_map) l state))
  = (List.length (snd state)
     + List.length (filter (overlaid broll_input_map) l))%nat.
Proof.
  revert state. induction l as [|s l IH]; intros state H; simpl.
  - split; [exact H | lia].
  - destruct (overlay_step_invariant state s H) as [H' Hlen].
    destruct (IH _ H') as [H'' Hlen'].
    split; [exact H''|]. rewrite Hlen', Hlen.
    destruct (overlaid broll_input_map s); simpl; lia.
Qed.
End Overlays.

(** The arguments of the [k]-th clip. *)
Lemma input_arguments_nth (broll_paths : Py.dict string) (l : list string)
    (k : nat) (id : string) :
  nth_error l k = Some id ->
  nth_error (input_arguments broll_paths l) (2 * k) = Some "-i"%string /\
  nth_error (input_arguments broll_paths l) (2 * k + 1)
  = Some (Py.get_default broll_paths id ""%string).
Proof.
  revert k. induction l as [|x l IH]; intros k Hk.
  - destruct k; discriminate.
  - destruct k as [|k]; simpl in Hk.
    + inversion Hk; subst. split; reflexivity.
    + destruct (IH k Hk) as [H1 H2].
      replace (2 * S k)%nat with (S (S (2 * k))) by lia.
      replace (S (S (2 * k)) + 1)%nat with (S (S (2 * k + 1))) by lia.
      split; assumption.
Qed.

Lemma nth_error_app_Some {A} (l l' : list A) (n : nat) (x : A) :
  nth_error l n = Some x -> nth_error (l ++ l') n = Some x.
Proof.
  intro H. rewrite nth_error_app1; [exact H|].
  apply nth_error_Some. congruence.
Qed.

(** The input map holds the clips of [broll_inputs], the [k]-th one under
    [k + 1]. *)
Lemma input_map_nth (l : list string) (k : nat) (id : string) :
  NoDup l -> nth_error l k = Some id ->
  Py.get (input_map l) id = Some (S k).
Proof.
  intros Hnd Hk. exact (index_fold_nth l [] 1 k id Hnd Hk).
Qed.

Lemma input_map_absent (l : list string) (id : string) :
  ~ In id l -> Py.get (input_map l) id = None.
Proof.
  intro H. exact (index_fold_other l [] 1 id H).
Qed.

Lemma input_map_lookup (l : list string) (id : string) (n : nat) :
  NoDup l -> Py.get (input_map l) id = Some n ->
  exists k, n = S k /\ nth_error l k = Some id.
Proof.
  intros Hnd G. destruct (in_dec string_dec id l) as [Hin|Hnot].
  - apply In_nth_error in Hin. destruct Hin as [k Hk]. exists k.
    rewrite (input_map_nth l k id Hnd Hk) in G. inversion G.
    split; [reflexivity | exact Hk].
  - rewrite input_map_absent in G by exact Hnot. discriminate.
Qed.

Section Command.
Variable ffmpeg_path : string.
Variable float_str : Q -> string.
Variable aroll_video_path : string.
Variable broll_paths : Py.dict string.
Variable timeline_segments : list TimelineSegment.

Local Abbreviation the_inputs :=
  (inputs ffmpeg_path aroll_video_path broll_paths timeline_segments).

Lemma inputs_invariant :
  input_invariant broll_paths [ffmpeg_path; "-i"%string; aroll_video_path]
                  the_inputs.
Proof.
  unfold inputs. apply input_fold_invariant. unfold input_invariant.
  split; [tauto|]. split; [constructor|]. split; [constructor|].
  reflexivity.
Qed.

Lemma inputs_members (id : string) :
  In id (snd the_inputs) <->
  (exists s, In s timeline_segments /\ is_a_roll s = false /\
             TimelineStatistics.source s = id) /\
  Py.get broll_paths id <> None.
Proof.
  unfold inputs. rewrite input_fold_members by (simpl; tauto).
  cbn [snd]. rewrite in_map_iff. unfold broll_segments. split.
  - intros [[]|[(s & Hs & Hin) Hp]].
    apply filter_In in Hin. destruct Hin as [Hin Hb].
    split; [|exact Hp]. exists s. split; [exact Hin|]. split; [|exact Hs].
    destruct (is_a_roll s); [discriminate | reflexivity].
  - intros [(s & Hin & Hb & Hs) Hp]. right. split; [|exact Hp].
    exists s. split; [exact Hs|]. apply filter_In.
    split; [exact Hin | rewrite Hb; reflexivity].
Qed.

(** Under the input map of the command, the segments that get an overlay
    filter are the B-roll segments whose clip has a path. *)
Lemma overlaid_inputs (s : TimelineSegment) :
  In s timeline_segments ->
  overlaid (input_map (snd the_inputs)) s = with_path broll_paths s.
Proof.
  intro Hin. pose proof inputs_invariant as Hinv.
  pose proof inputs_members as Hm.
  destruct the_inputs as [[cmd used] broll_inputs]. cbn [snd] in *.
  destruct Hinv as (_ & Hnd & _ & _).
  unfold overlaid, with_path.
  destruct s as [? ? ? ? ?|st e d id r c ms]; [reflexivity|].
  cbn [is_a_roll negb andb TimelineStatistics.source].
  destruct (Py.get broll_paths id) as [path|] eqn:G.
  - assert (Hid : In id broll_inputs).
    { apply Hm. split; [|congruence].
      exists (b_roll st e d id r c ms). repeat split. exact Hin. }
    apply In_nth_error in Hid. destruct Hid as [k Hk].
    rewrite (input_map_nth _ _ _ Hnd Hk). reflexivity.
  - rewrite input_map_absent; [reflexivity|].
    intro H. apply Hm in H. destruct H as [_ H]. congruence.
Qed.

Lemma overlaid_filter :
  filter (overlaid (input_map (snd the_inputs))) timeline_segments
  = filter (with_path broll_paths) timeline_segments.
Proof. apply filter_ext_in. intros s Hs. apply overlaid_inputs, Hs. Qed.

(** The overlay loop from its initial state. *)
Lemma build_overlay_filters (broll_input_map : Py.dict nat) :
  let '(final_video_label, overlay_filters) :=
    _build_overlay_filters float_str timeline_segments broll_input_map in
  List.length overlay_filters
  = List.length (filter (overlaid broll_input_map) timeline_segments) /\
  final_video_label = label (List.length overlay_filters) /\
  forall k, (k < List.length overlay_filters)%nat ->
    exists body,
      nth_error overlay_filters k
      = Some (label k ++ body ++ output_label (S k))%string.
Proof.
  unfold _build_overlay_filters.
  destruct (overlay_fold_invariant float_str broll_input_map
              timeline_segments ("[0:v]"%string, 1%nat, []))
    as [Hinv Hlen].
  { unfold overlay_invariant. cbn [List.length].
    split; [reflexivity|]. split; [reflexivity|]. intros k Hk. lia. }
  destruct (fold_left _ _ _) as [[cur idx] filters].
  cbn [snd List.length] in Hlen. destruct Hinv as (_ & Hcur & Hchain).
  split; [exact Hlen|]. split; [exact Hcur | exact Hchain].
Qed.

(** The two shapes of the command. *)
Lemma command_shape (output_path : string) :
  let command :=
    _build_ffmpeg_command ffmpeg_path float_str aroll_video_path broll_paths
                          timeline_segments output_path in
  let cmd := fst (fst the_inputs) in
  let built :=
    _build_overlay_filters float_str timeline_segments
                           (input_map (snd the_inputs)) in
  (snd built = [] /\
   command = (cmd ++ [ "-c:v"; "libx264"; "-c:a"; "copy";
                       "-map"; "0:v:0"; "-map"; "0:a:0";
                       "-y"; output_path ]%string)%list) \/
  (snd built <> [] /\
   command = (cmd ++ [ "-filter_complex"; String.concat ";" (snd built);
                       "-map"; remove "]" (remove "[" (fst built));
                       "-map"; "0:a:0";
                       "-c:v"; "libx264"; "-preset"; "medium"; "-crf"; "23";
                       "-c:a"; "copy"; "-y"; output_path ]%string)%list).
Proof.
  unfold _build_ffmpeg_command.
  destruct the_inputs as [[cmd used] broll_inputs]. cbn [fst snd].
  destruct (_build_overlay_filters _ _ _) as [final filters]. cbn [fst snd].
  destruct filters as [|f filters].
  - left. split; reflexivity.
  - right. split; [discriminate | reflexivity].
Qed.
End Command.

(** Brackets around a decimal number. *)
Lemma remove_append (c : ascii) (a b : string) :
  remove c (a ++ b) = (remove c a ++ remove c b)%string.
Proof.
  induction a as [|x a IH]; simpl; [reflexivity|].
  destruct (Ascii.eqb x c); simpl; rewrite IH; reflexivity.
Qed.

Lemma remove_uint (c : ascii) (d : Decimal.uint) :
  c = "["%char \/ c = "]"%char ->
  remove c (DecimalString.NilEmpty.string_of_uint d)
  = DecimalString.NilEmpty.string_of_uint d.
Proof.
  intro Hc. induction d; simpl; [reflexivity|..];
    rewrite IHd; destruct Hc as [-> | ->]; reflexivity.
Qed.

Lemma remove_int_str (c : ascii) (n : nat) :
  c = "["%char \/ c = "]"%char -> remove c (int_str n) = int_str n.
Proof.
  intro Hc. unfold int_str, DecimalString.NilZero.string_of_uint.
  destruct (Nat.to_uint n) eqn:E;
    try (rewrite <- E; apply remove_uint, Hc).
  destruct Hc as [-> | ->]; reflexivity.
Qed.

Lemma append_empty (a : string) : (a ++ "")%string = a.
Proof. induction a as [|x a IH]; simpl; [reflexivity | rewrite IH; reflexivity]. Qed.

Lemma label_stream (n : nat) :
  (1 <= n)%nat ->
  remove "]" (remove "[" (label n)) = ("v" ++ int_str n)%string.
Proof.
  intro Hn. destruct n as [|n]; [lia|].
  unfold label, output_label.
  rewrite !remove_append. rewrite !remove_int_str by auto.
  change (remove "]" (remove "[" "[v")) with "v"%string.
  change (remove "]" (remove "[" "]")) with ""%string.
  rewrite append_empty. reflexivity.
Qed.

(** What a successful validation checked. *)
Lemma validate_brolls_None (path_exists : string -> bool)
    (broll_paths : Py.dict string) (l : list TimelineSegment) :
  validate_brolls path_exists broll_paths l = None ->
  forall s, In s l ->
    exists path, Py.get broll_paths (TimelineStatistics.source s) = Some path /\
                 path_exists path = true.
Proof.
  induction l as [|x l IH]; intros H s Hs; [destruct Hs|].
  simpl in H.
  destruct (Py.get broll_paths (TimelineStatistics.source x))
    as [path|] eqn:G; [|discriminate].
  destruct (path_exists path) eqn:E; [|discriminate].
  destruct Hs as [<- | Hs]; [exists path; split; assumption|].
  apply IH; assumption.
Qed.
End RenderFacts.

(** X16 (the inputs of the ffmpeg command).  The command starts with the
    ffmpeg path and the A-roll video as input 0.  The B-roll inputs are the
    clips of the B-roll segments that have a file path, each once; and a
    clip that the input map numbers [n] has its file as the [n]-th [-i]
    argument of the command, so the overlay filters address the right
    file. *)
Theorem ffmpeg_command_inputs (ffmpeg_path : string) (float_str : Q -> string)
    (aroll_video_path : string) (broll_paths : Py.dict string)
    (timeline_segments : list Timeline.TimelineSegment)
    (output_path : string) :
  let command :=
    Render._build_ffmpeg_command ffmpeg_path float_str aroll_video_path
                                 broll_paths timeline_segments output_path in
  let broll_inputs :=
    snd (Render.inputs ffmpeg_path aroll_video_path broll_paths
                       timeline_segments) in
  NoDup broll_inputs /\
  (forall id,
      In id broll_inputs <->
      (exists s, In s timeline_segments /\ Timeline.is_a_roll s = false /\
                 TimelineStatistics.source s = id) /\
      Py.get broll_paths id <> None) /\
  (exists rest,
      command = ffmpeg_path :: "-i"%string :: aroll_video_path :: rest) /\
  forall id n,
    Py.get (Render.input_map broll_inputs) id = Some n ->
    (1 <= n <= List.length broll_inputs)%nat /\
    nth_error command (2 * n + 1) = Some "-i"%string /\
    nth_error command (2 * n + 2) = Py.get broll_paths id.
Proof.
  intros command broll_inputs.
  assert (Hcmd : exists tail,
             command
             = (fst (fst (Render.inputs ffmpeg_path aroll_video_path
                                        broll_paths timeline_segments))
                  ++ tail)%list).
  { destruct (RenderFacts.command_shape ffmpeg_path float_str
                aroll_video_path broll_paths timeline_segments output_path)
      as [[_ H]|[_ H]]; eexists; exact H. }
  clearbody command. subst broll_inputs.
  pose proof (RenderFacts.inputs_invariant ffmpeg_path aroll_video_path
                broll_paths timeline_segments) as Hinv.
  pose proof (RenderFacts.inputs_members ffmpeg_path aroll_video_path
                broll_paths timeline_segments) as Hm.
  destruct (Render.inputs _ _ _ _) as [[cmd used] broll_inputs].
  cbn [fst snd] in *.
  destruct Hinv as (_ & Hnd & Hp & Hc). destruct Hcmd as [tail ->].
  subst cmd.
  split; [exact Hnd|]. split; [exact Hm|].
  split; [rewrite <- app_assoc; eexists; reflexivity|].
  intros id n G. apply RenderFacts.input_map_lookup in G; [|exact Hnd].
  destruct G as (k & -> & Hk).
  split.
  { split; [lia|]. apply (proj1 (nth_error_Some broll_inputs k)).
    rewrite Hk. discriminate. }
  destruct (RenderFacts.input_arguments_nth broll_paths broll_inputs k id Hk)
    as [H1 H2].
  replace (2 * S k + 1)%nat with (S (S (S (2 * k)))) by lia.
  replace (2 * S k + 2)%nat with (S (S (S (2 * k + 1)))) by lia.
  rewrite <- app_assoc. cbn [app nth_error].
  split; [apply RenderFacts.nth_error_app_Some, H1|].
  rewrite (RenderFacts.nth_error_app_Some _ _ _ _ H2).
  apply nth_error_In in Hk.
  pose proof (proj1 (Forall_forall _ _) Hp id Hk) as Hid.
  cbv beta in Hid. unfold Py.get_default.
  destruct (Py.get broll_paths id); congruence.
Qed.

(** X17 (the overlay filters form a chain).  For any input map,
    [_build_overlay_filters] returns one filter for each B-roll segment
    whose clip is in the map; the first filter reads [[0:v]], each filter
    writes [[v<k>]] with [k] its position counted from 1, the next filter
    reads that label, and the label returned is the one the last filter
    wrote ([[0:v]] when there is no filter). *)
Theorem overlay_filters_chain (float_str : Q -> string)
    (timeline_segments : list Timeline.TimelineSegment)
    (broll_input_map : Py.dict nat) :
  let '(final_video_label, overlay_filters) :=
    Render._build_overlay_filters float_str timeline_segments
                                  broll_input_map in
  List.length overlay_filters
  = List.length (filter (Render.overlaid broll_input_map)
                        timeline_segments) /\
  final_video_label = Render.label (List.length overlay_filters) /\
  forall k, (k < List.length overlay_filters)%nat ->
    exists body,
      nth_error overlay_filters k
      = Some (Render.label k ++ body ++ Render.output_label (S k))%string.
Proof.
  exact (RenderFacts.build_overlay_filters float_str timeline_segments
           broll_input_map).
Qed.

(** X18 (nothing is skipped after validation).  When the validation loop of
    [render] raises nothing, the command built next has one overlay filter
    for each B-roll segment of the timeline, and every B-roll input is a
    clip whose file exists. *)
Theorem render_validated_overlays (ffmpeg_path : string)
    (float_str : Q -> string) (path_exists : string -> bool)
    (aroll_video_path : string) (broll_paths : Py.dict string)
    (timeline_segments : list Timeline.TimelineSegment)
    (Hvalid : Render.validate_brolls path_exists broll_paths
                (Render.broll_segments timeline_segments) = None) :
  let broll_inputs :=
    snd (Render.inputs ffmpeg_path aroll_video_path broll_paths
                       timeline_segments) in
  let overlay_filters :=
    snd (Render._build_overlay_filters float_str timeline_segments
                                       (Render.input_map broll_inputs)) in
  List.length overlay_filters
  = List.length (Render.broll_segments timeline_segments) /\
  Forall (fun id => exists path, Py.get broll_paths id = Some path /\
                                 path_exists path = true)
         broll_inputs.
Proof.
  intros broll_inputs overlay_filters.
  pose proof (RenderFacts.validate_brolls_None _ _ _ Hvalid) as Hall.
  split.
  - subst overlay_filters broll_inputs.
    pose proof (RenderFacts.build_overlay_filters float_str timeline_segments
                  (Render.input_map
                     (snd (Render.inputs ffmpeg_path aroll_video_path
                                         broll_paths timeline_segments))))
      as H.
    destruct (Render._build_overlay_filters _ _ _) as [final filters].
    destruct H as (Hlen & _). cbn [snd]. rewrite Hlen.
    rewrite RenderFacts.overlaid_filter. unfold Render.broll_segments.
    f_equal. apply filter_ext_in. intros s Hs. unfold Render.with_path.
    destruct (Timeline.is_a_roll s) eqn:Hb; [reflexivity|].
    destruct (Hall s) as (path & -> & _); [|reflexivity].
    apply filter_In. split; [exact Hs | rewrite Hb; reflexivity].
  - apply Forall_forall. intros id Hid.
    apply RenderFacts.inputs_members in Hid.
    destruct Hid as [(s & Hs & Hb & <-) _].
    apply Hall. apply filter_In. split; [exact Hs | rewrite Hb; reflexivity].
Qed.

Lemma render_validated_overlays_witness :
  let overlay_filters :=
    snd (Render._build_overlay_filters Examples.whole_seconds
           Examples.cutaway_timeline
           (Render.input_map
              (snd (Render.inputs "ffmpeg" "a_roll.mp4" Examples.clip_files
                                  Examples.cutaway_timeline)))) in
  List.length overlay_filters = 1%nat.
Proof.
  exact (proj1 (render_validated_overlays "ffmpeg" Examples.whole_seconds
                  (fun _ => true) "a_roll.mp4" Examples.clip_files
                  Examples.cutaway_timeline eq_refl)).
Defined.

(** X19 (no clip file, no overlay).  When no B-roll segment of the timeline
    has a clip with a file path, [_build_ffmpeg_command] drops every
    cutaway without an error: the command re-encodes the A-roll video alone,
    with no B-roll input and no filter. *)
Theorem ffmpeg_command_without_clips (ffmpeg_path : string)
    (float_str : Q -> string) (aroll_video_path : string)
    (broll_paths : Py.dict string)
    (timeline_segments : list Timeline.TimelineSegment)
    (output_path : string)
    (Hnone : forall s, In s timeline_segments ->
                       Render.with_path broll_paths s = false) :
  Render._build_ffmpeg_command ffmpeg_path float_str aroll_video_path
                               broll_paths timeline_segments output_path
  = [ ffmpeg_path; "-i"; aroll_video_path;
      "-c:v"; "libx264"; "-c:a"; "copy";
      "-map"; "0:v:0"; "-map"; "0:a:0"; "-y"; output_path ]%string.
Proof.
  pose proof (RenderFacts.command_shape ffmpeg_path float_str
                aroll_video_path broll_paths timeline_segments output_path)
    as Hshape.
  pose proof (RenderFacts.build_overlay_filters float_str timeline_segments
                (Render.input_map
                   (snd (Render.inputs ffmpeg_path aroll_video_path
                                       broll_paths timeline_segments))))
    as Hbuild.
  pose proof (RenderFacts.inputs_invariant ffmpeg_path aroll_video_path
                broll_paths timeline_segments) as Hinv.
  pose proof (RenderFacts.inputs_members ffmpeg_path aroll_video_path
                broll_paths timeline_segments) as Hm.
  rewrite RenderFacts.overlaid_filter in Hbuild.
  assert (Hempty : filter (Render.with_path broll_paths) timeline_segments
                   = []).
  { destruct (filter _ _) as [|s l] eqn:E; [reflexivity|].
    assert (Hs : In s (filter (Render.with_path broll_paths)
                              timeline_segments))
      by (rewrite E; left; reflexivity).
    apply filter_In in Hs. destruct Hs as [Hs Hw].
    rewrite (Hnone s Hs) in Hw. discriminate. }
  rewrite Hempty in Hbuild. cbv zeta in Hshape.
  destruct (Render._build_overlay_filters _ _ _) as [final filters].
  destruct Hbuild as (Hlen & _). cbn [fst snd] in Hshape.
  destruct filters; [|discriminate].
  destruct Hshape as [[_ ->]|[H _]]; [|contradiction].
  destruct (Render.inputs _ _ _ _) as [[cmd used] broll_inputs].
  cbn [fst snd] in *. destruct Hinv as (_ & _ & _ & ->).
  destruct broll_inputs as [|id l]; [reflexivity|].
  destruct (proj1 (Hm id) (or_introl eq_refl)) as [(s & Hs & Hb & Hsrc) Hp].
  specialize (Hnone s Hs). unfold Render.with_path in Hnone.
  rewrite Hb, Hsrc in Hnone.
  destruct (Py.get broll_paths id); [discriminate | contradiction].
Qed.

Lemma ffmpeg_command_without_clips_witness :
  Render._build_ffmpeg_command "ffmpeg" Examples.whole_seconds "a_roll.mp4"
                               [] Examples.cutaway_timeline "out.mp4"
  = [ "ffmpeg"; "-i"; "a_roll.mp4"; "-c:v"; "libx264"; "-c:a"; "copy";
      "-map"; "0:v:0"; "-map"; "0:a:0"; "-y"; "out.mp4" ]%string.
Proof.
  apply (ffmpeg_command_without_clips "ffmpeg" Examples.whole_seconds
           "a_roll.mp4" [] Examples.cutaway_timeline "out.mp4").
  intros s _. unfold Render.with_path. apply andb_false_r.
Defined.

(** X20 (the command with overlays).  When some B-roll segment has a clip
    with a file path, the command is the inputs, then [-filter_complex] with
    the overlay filters joined by [;], one for each B-roll segment whose
    clip has a path, then the mapping of the video stream [v<n>] that the
    last of the [n] filters wrote and of the A-roll audio, copied without
    re-encoding. *)
Theorem ffmpeg_command_with_clips (ffmpeg_path : string)
    (float_str : Q -> string) (aroll_video_path : string)
    (broll_paths : Py.dict string)
    (timeline_segments : list Timeline.TimelineSegment)
    (output_path : string)
    (Hsome : exists s, In s timeline_segments /\
                       Render.with_path broll_paths s = true) :
  let broll_inputs :=
    snd (Render.inputs ffmpeg_path aroll_video_path broll_paths
                       timeline_segments) in
  let overlay_filters :=
    snd (Render._build_overlay_filters float_str timeline_segments
                                       (Render.input_map broll_inputs)) in
  let n := List.length overlay_filters in
  n = List.length (filter (Render.with_path broll_paths) timeline_segments) /\
  (1 <= n)%nat /\
  Render._build_ffmpeg_command ffmpeg_path float_str aroll_video_path
                               broll_paths timeline_segments output_path
  = ([ ffmpeg_path; "-i"; aroll_video_path ]%string
       ++ Render.input_arguments broll_paths broll_inputs
       ++ [ "-filter_complex"; String.concat ";" overlay_filters;
            "-map"; "v" ++ Render.int_str n; "-map"; "0:a:0";
            "-c:v"; "libx264"; "-preset"; "medium"; "-crf"; "23";
            "-c:a"; "copy"; "-y"; output_path ]%string)%list.
Proof.
  intros broll_inputs overlay_filters n.
  pose proof (RenderFacts.command_shape ffmpeg_path float_str
                aroll_video_path broll_paths timeline_segments output_path)
    as Hshape.
  pose proof (RenderFacts.build_overlay_filters float_str timeline_segments
                (Render.input_map broll_inputs)) as Hbuild.
  pose proof (RenderFacts.inputs_invariant ffmpeg_path aroll_video_path
                broll_paths timeline_segments) as Hinv.
  unfold broll_inputs in Hbuild.
  rewrite RenderFacts.overlaid_filter in Hbuild.
  cbv zeta in Hshape. fold broll_inputs in Hshape, Hbuild.
  assert (Hfilters : overlay_filters
                     = snd (Render._build_overlay_filters float_str
                              timeline_segments
                              (Render.input_map broll_inputs)))
    by reflexivity.
  clearbody overlay_filters.
  destruct (Render._build_overlay_filters _ _ _) as [final filters].
  cbn [fst snd] in *. subst filters.
  destruct Hbuild as (Hlen & Hfinal & _). fold n in Hlen, Hfinal.
  assert (Hn : (1 <= n)%nat).
  { rewrite Hlen. destruct Hsome as (s & Hs & Hw).
    assert (Hin : In s (filter (Render.with_path broll_paths)
                               timeline_segments))
      by (apply filter_In; split; assumption).
    destruct (filter _ _); [destruct Hin | simpl; lia]. }
  split; [exact Hlen|]. split; [exact Hn|].
  destruct Hshape as [[H _]|[_ ->]].
  { exfalso. subst n. rewrite H in Hn. simpl in Hn. lia. }
  rewrite Hfinal, (RenderFacts.label_stream n Hn).
  assert (Hb : broll_inputs
               = snd (Render.inputs ffmpeg_path aroll_video_path broll_paths
                                    timeline_segments)) by reflexivity.
  clearbody broll_inputs.
  destruct (Render.inputs _ _ _ _) as [[cmd used] inputs].
  cbn [fst snd] in *. subst inputs. destruct Hinv as (_ & _ & _ & ->).
  rewrite <- app_assoc. reflexivity.
Qed.

Lemma ffmpeg_command_with_clips_witness :
  Render._build_ffmpeg_command "ffmpeg" Examples.whole_seconds "a_roll.mp4"
    Examples.clip_files Examples.cutaway_timeline "out.mp4"
  = [ "ffmpeg"; "-i"; "a_roll.mp4"; "-i"; "brolls/broll_1.mp4";
      "-filter_complex";
      "[0:v][1:v]overlay=0:0:enable='between(t,10.0,20.0)'[v1]";
      "-map"; "v1"; "-map"; "0:a:0";
      "-c:v"; "libx264"; "-preset"; "medium"; "-crf"; "23";
      "-c:a"; "copy"; "-y"; "out.mp4" ]%string.
Proof.
  apply (proj2 (proj2
    (ffmpeg_command_with_clips "ffmpeg" Examples.whole_seconds "a_roll.mp4"
       Examples.clip_files Examples.cutaway_timeline "out.mp4"
       (ex_intro _ (Timeline.b_roll 10.0 20.0 10.0 "broll_1"
                      "Highly relevant semantic match" 0.8 None)
                 (conj (or_intror (or_introl eq_refl)) eq_refl))))).
Defined.

(** * The reason of a match *)

Module ReasonFacts.
Import Matcher.

(** The texts of a potential match are those of its segment and its clip. *)
Lemma potential_matches_texts (self : SemanticMatcher)
    (similarity_matrix : Matrix) (aroll_segments : list Segment.t)
    (broll_ids : list string) (broll_descriptions : Py.dict string)
    (m : Candidate.t) :
  In m (potential_matches self similarity_matrix aroll_segments
                          broll_ids broll_descriptions) ->
  (exists segment, In segment aroll_segments /\
                   Candidate.aroll_text m = Segment.text segment) /\
  Candidate.broll_description m
  = Py.get_default broll_descriptions (Candidate.broll_id m) ""%string.
Proof.
  unfold potential_matches. intro H.
  apply in_flat_map in H. destruct H as [[seg_idx segment] [Hseg H]].
  apply in_flat_map in H. destruct H as [[broll_idx broll_id] [Hid H]].
  apply MatcherFacts.enumerate_In in Hseg.
  destruct (Py.geb _ _); simpl in H; [|contradiction].
  destruct H as [<- | []]. simpl.
  split; [|reflexivity].
  exists segment. split; [eapply nth_error_In, Hseg | reflexivity].
Qed.

(** The two forms of a reason, and the strength that goes with a
    similarity. *)
Lemma generate_reason_form (aroll_text broll_description : string)
    (similarity : Q) :
  exists strength,
    (0.85 <= similarity -> strength = "Highly relevant"%string) /\
    (0.75 <= similarity < 0.85 -> strength = "Relevant"%string) /\
    (similarity < 0.75 -> strength = "Somewhat relevant"%string) /\
    (_generate_reason aroll_text broll_description similarity
     = (strength ++ " semantic match")%string \/
     exists theme,
       In theme keywords_to_check /\
       Py.contains theme (Py.lower aroll_text) = true /\
       Py.contains theme (Py.lower broll_description) = true /\
       _generate_reason aroll_text broll_description similarity
       = (strength ++ " match: both mention '" ++ theme ++ "'")%string).
Proof.
  unfold _generate_reason. cbv zeta.
  set (common := filter _ keywords_to_check).
  assert (Hcommon : forall theme, In theme common ->
            In theme keywords_to_check /\
            Py.contains theme (Py.lower aroll_text) = true /\
            Py.contains theme (Py.lower broll_description) = true).
  { intros theme H. apply filter_In in H. destruct H as [Hin Hb].
    apply andb_true_iff in Hb. tauto. }
  clearbody common.
  assert (Hform : forall strength : string,
            match common with
            | [] => (strength ++ " semantic match")%string
            | theme :: _ =>
                (strength ++ " match: both mention '" ++ theme ++ "'")%string
            end = (strength ++ " semantic match")%string \/
            exists theme,
              In theme keywords_to_check /\
              Py.contains theme (Py.lower aroll_text) = true /\
              Py.contains theme (Py.lower broll_description) = true /\
              match common with
              | [] => (strength ++ " semantic match")%string
              | theme :: _ =>
                  (strength ++ " match: both mention '" ++ theme ++ "'")%string
              end
              = (strength ++ " match: both mention '" ++ theme ++ "'")%string).
  { intro strength. destruct common as [|theme rest]; [left; reflexivity|].
    right. exists theme.
    destruct (Hcommon theme (or_introl eq_refl)) as (H1 & H2 & H3).
    repeat split; assumption. }
  destruct (Py.geb similarity 0.85) eqn:G1;
    [|destruct (Py.geb similarity 0.75) eqn:G2].
  - apply PyFacts.geb_le in G1. exists "Highly relevant"%string.
    split; [reflexivity|]. split; [intro; lra|]. split; [intro; lra|].
    exact (Hform "Highly relevant"%string).
  - apply PyFacts.geb_lt in G1. apply PyFacts.geb_le in G2.
    exists "Relevant"%string.
    split; [intro; lra|]. split; [reflexivity|]. split; [intro; lra|].
    exact (Hform "Relevant"%string).
  - apply PyFacts.geb_lt in G1. apply PyFacts.geb_lt in G2.
    exists "Somewhat relevant"%string.
    split; [intro; lra|]. split; [intro; lra|]. split; [reflexivity|].
    exact (Hform "Somewhat relevant"%string).
Qed.

Lemma round_3_085 : Py.round 0.85 3 == 0.85.
Proof. reflexivity. Qed.

Lemma round_3_075 : Py.round 0.75 3 == 0.75.
Proof. reflexivity. Qed.

End ReasonFacts.

(** X21 (the reason agrees with the confidence).  Every insertion returned
    by [match] has a reason of one of two forms, a strength followed by
    [semantic match] or by [match: both mention '<keyword>'].  The strength
    is [Highly relevant] above confidence 0.85, [Relevant] between 0.75 and
    0.85 and [Somewhat relevant] below 0.75 (at 0.85 and 0.75 exactly the
    unrounded similarity decides); a keyword named is one of the list that
    occurs in the lower-cased text of a narration segment and in the
    lower-cased description of the clip inserted. *)
Theorem match_reason
    (relevance : list string -> list string -> Matcher.Matrix)
    (self : Matcher.SemanticMatcher) (aroll_segments : list Segment.t)
    (broll_descriptions : Py.dict string)
    (output : list Insertion.t) (ins : Insertion.t) :
  Matcher.match_ relevance self aroll_segments broll_descriptions
    = Py.Ok output ->
  In ins output ->
  exists strength,
    (0.85 < Insertion.confidence ins -> strength = "Highly relevant"%string) /\
    (0.75 < Insertion.confidence ins < 0.85 -> strength = "Relevant"%string) /\
    (Insertion.confidence ins < 0.75 ->
     strength = "Somewhat relevant"%string) /\
    (Insertion.reason ins = (strength ++ " semantic match")%string \/
     exists theme segment,
       In theme Matcher.keywords_to_check /\
       In segment aroll_segments /\
       Py.contains theme (Py.lower (Segment.text segment)) = true /\
       Py.contains theme
         (Py.lower (Py.get_default broll_descriptions
                                   (Insertion.broll_id ins) ""%string))
       = true /\
       Insertion.reason ins
       = (strength ++ " match: both mention '" ++ theme ++ "'")%string).
Proof.
  intros H Hin.
  destruct (match_insertion_origin _ _ _ _ _ _ H Hin) as [m [Hm ->]].
  apply ReasonFacts.potential_matches_texts in Hm.
  destruct Hm as [(segment & Hseg & Htext) Hdesc].
  unfold Matcher.format_match. cbn [Insertion.confidence Insertion.reason
                                     Insertion.broll_id].
  destruct (ReasonFacts.generate_reason_form (Candidate.aroll_text m)
              (Candidate.broll_description m) (Candidate.similarity m))
    as (strength & Hhigh & Hmid & Hlow & Hform).
  pose proof (PyFacts.round_mono (Candidate.similarity m) 0.85 3) as M1.
  pose proof (PyFacts.round_mono 0.85 (Candidate.similarity m) 3) as M2.
  pose proof (PyFacts.round_mono (Candidate.similarity m) 0.75 3) as M3.
  pose proof (PyFacts.round_mono 0.75 (Candidate.similarity m) 3) as M4.
  pose proof ReasonFacts.round_3_085 as E1.
  pose proof ReasonFacts.round_3_075 as E2.
  exists strength.
  split.
  { intro Hc. apply Hhigh.
    destruct (Qlt_le_dec (Candidate.similarity m) 0.85) as [Hlt|Hle];
      [|exact Hle].
    specialize (M1 (Qlt_le_weak _ _ Hlt)). lra. }
  split.
  { intros [Hc1 Hc2]. apply Hmid. split.
    - destruct (Qlt_le_dec (Candidate.similarity m) 0.75) as [Hlt|Hle];
        [|exact Hle].
      specialize (M3 (Qlt_le_weak _ _ Hlt)). lra.
    - destruct (Qlt_le_dec (Candidate.similarity m) 0.85) as [Hlt|Hle];
        [exact Hlt|].
      specialize (M2 Hle). lra. }
  split.
  { intro Hc. apply Hlow.
    destruct (Qlt_le_dec (Candidate.similarity m) 0.75) as [Hlt|Hle];
      [exact Hlt|].
    specialize (M4 Hle). lra. }
  destruct Hform as [Hf | (theme & Hk & Ha & Hb & Hf)]; [left; exact Hf|].
  right. exists theme, segment.
  rewrite Htext in Ha. rewrite Hdesc in Hb.
  repeat split; assumption.
Qed.

Lemma match_reason_witness :
  exists output ins,
    Matcher.match_ (fun _ _ => Examples.one_clip_matrix)
      Examples.default_matcher Examples.three_segments Examples.one_clip
    = Py.Ok output /\
    In ins output /\
    exists strength,
      strength = "Highly relevant"%string /\
      (Insertion.reason ins = (strength ++ " semantic match")%string \/
       exists theme segment,
         In theme Matcher.keywords_to_check /\
         In segment Examples.three_segments /\
         Py.contains theme (Py.lower (Segment.text segment)) = true /\
         Py.contains theme
           (Py.lower (Py.get_default Examples.one_clip
                                     (Insertion.broll_id ins) ""%string))
         = true /\
         Insertion.reason ins
         = (strength ++ " match: both mention '" ++ theme ++ "'")%string).
Proof.
  eexists. eexists.
  split; [vm_compute; reflexivity|].
  split; [left; reflexivity|].
  destruct (match_reason (fun _ _ => Examples.one_clip_matrix)
              Examples.default_matcher Examples.three_segments
              Examples.one_clip _ _ eq_refl (or_introl eq_refl))
    as (strength & Hhigh & _ & _ & Hform).
  exists strength.
  split; [apply Hhigh; vm_compute; reflexivity | exact Hform].
Defined.

(** * The fields read from the metadata *)

Module BRollFieldsFacts.
Import BRollAnalysis BRollFields.

Lemma fold_left_invariant {A B} (I : B -> Prop) (f : B -> A -> B)
    (l : list A) :
  (forall b x, In x l -> I b -> I (f b x)) ->
  forall b, I b -> I (fold_left f l b).
Proof.
  induction l as [|x l IH]; intros Hstep b Hb; simpl; [exact Hb|].
  apply IH.
  - intros b' y Hy. apply Hstep. right. exact Hy.
  - apply Hstep; [left; reflexivity | exact Hb].
Qed.

Lemma get_set_cases {V} (d : Py.dict V) (k k' : string) (v v' : V) :
  Py.get (Py.set d k v) k' = Some v' ->
  (k' = k /\ v' = v) \/ (k' <> k /\ Py.get d k' = Some v').
Proof.
  destruct (string_dec k k') as [<- | Hne].
  - rewrite PyFacts.get_set_same. intro H. inversion H. left. tauto.
  - rewrite PyFacts.get_set_other by exact Hne. intro H. right.
    split; [congruence | exact H].
Qed.

(** Every value of the lower-cased dictionary is the value of a key of the
    metadata with that lower-case form. *)
Lemma metadata_lower_origin (metadata : Py.dict json) (a : string)
    (v : json) :
  Py.get (metadata_lower metadata) a = Some v ->
  exists k, In (k, v) metadata /\ Py.lower k = a.
Proof.
  unfold metadata_lower. revert a v.
  apply (fold_left_invariant
           (fun d => forall a v, Py.get d a = Some v ->
                       exists k, In (k, v) metadata /\ Py.lower k = a)).
  - intros d [k v] Hin IH a v' H. unfold lower_step in H. cbn [fst snd] in H.
    apply get_set_cases in H. destruct H as [[-> ->] | [_ H]].
    + exists k. split; [exact Hin | reflexivity].
    + apply IH, H.
  - intros a v H. discriminate.
Qed.

Lemma first_value_Some (d : Py.dict json) (possible_keys : list string)
    (v : json) :
  first_value d possible_keys = Some v ->
  truthy v = true /\
  exists key, In key possible_keys /\ Py.get d (Py.lower key) = Some v.
Proof.
  induction possible_keys as [|key rest IH]; simpl; [discriminate|].
  destruct (Py.get d (Py.lower key)) as [value|] eqn:G.
  - destruct (truthy value) eqn:T.
    + intro H. inversion H; subst. split; [exact T|].
      exists key. split; [left; reflexivity | exact G].
    + intro H. destruct (IH H) as [Ht (k & Hk & Hg)].
      split; [exact Ht|]. exists k. split; [right; exact Hk | exact Hg].
  - intro H. destruct (IH H) as [Ht (k & Hk & Hg)].
    split; [exact Ht|]. exists k. split; [right; exact Hk | exact Hg].
Qed.

Lemma aliases_lower :
  Forall (fun entry => map Py.lower (snd entry) = snd entry) field_mapping.
Proof. repeat constructor. Qed.

Lemma alias_lower (key : string) (possible_keys : list string) (a : string) :
  In (key, possible_keys) field_mapping -> In a possible_keys ->
  Py.lower a = a.
Proof.
  intros He Ha.
  pose proof (proj1 (Forall_forall _ _) aliases_lower _ He) as E.
  cbn [snd] in E. apply In_nth_error in Ha. destruct Ha as [n Hn].
  assert (H : nth_error (map Py.lower possible_keys) n = Some (Py.lower a))
    by (rewrite nth_error_map, Hn; reflexivity).
  rewrite E, Hn in H. congruence.
Qed.

Lemma known_keys_In (a : string) :
  In a known_keys <->
  exists key possible_keys,
    In (key, possible_keys) field_mapping /\ In a possible_keys.
Proof.
  unfold known_keys. rewrite in_flat_map. split.
  - intros [[key keys] [He Ha]]. cbn [snd] in Ha.
    pose proof (proj1 (Forall_forall _ _) aliases_lower _ He) as E.
    cbn [snd] in E. rewrite E in Ha. exists key, keys. tauto.
  - intros (key & keys & He & Ha). exists (key, keys). split; [exact He|].
    pose proof (proj1 (Forall_forall _ _) aliases_lower _ He) as E.
    cbn [snd] in *. rewrite E. exact Ha.
Qed.

Lemma known_existsb (a : string) :
  existsb (String.eqb a) known_keys = true <-> In a known_keys.
Proof.
  rewrite existsb_exists. split.
  - intros [y [Hy E]]. apply String.eqb_eq in E. subst. exact Hy.
  - intro H. exists a. split; [exact H | apply String.eqb_refl].
Qed.

(** The loop over the standard names. *)
Lemma standard_loop_origin (metadata : Py.dict json) (key : string)
    (value : json) :
  Py.get (fold_left (standard_step (metadata_lower metadata))
                    field_mapping [])
         key = Some value ->
  truthy value = true /\ standard_field metadata key value.
Proof.
  revert key value.
  apply (fold_left_invariant
           (fun d => forall key value, Py.get d key = Some value ->
                       truthy value = true /\
                       standard_field metadata key value)).
  - intros d [name keys] He IH key value H.
    unfold standard_step in H. cbn [fst snd] in H.
    destruct (first_value (metadata_lower metadata) keys) as [v|] eqn:F;
      [|apply IH, H].
    apply get_set_cases in H. destruct H as [[-> ->] | [_ H]];
      [|apply IH, H].
    apply first_value_Some in F. destruct F as [Ht (a & Ha & G)].
    split; [exact Ht|].
    apply metadata_lower_origin in G. destruct G as (k & Hk & Hl).
    exists keys, k. split; [exact He|]. split; [exact Hk|].
    rewrite Hl, (alias_lower name keys a He Ha). exact Ha.
  - intros key value H. discriminate.
Qed.

(** The value under a standard name is decided by the first loop. *)
Lemma standard_loop_other (d : Py.dict json) (l : list (string * list string))
    (extracted : Py.dict json) (key : string) :
  ~ In key (map fst l) ->
  Py.get (fold_left (standard_step d) l extracted) key
  = Py.get extracted key.
Proof.
  revert extracted. induction l as [|[name keys] l IH]; intros extracted Hk;
    simpl; [reflexivity|].
  simpl in Hk. rewrite IH by tauto. unfold standard_step. cbn [fst snd].
  destruct (first_value d keys); [|reflexivity].
  apply PyFacts.get_set_other. tauto.
Qed.

Lemma standard_loop_get (d : Py.dict json) (l : list (string * list string))
    (extracted : Py.dict json) (key : string) (possible_keys : list string) :
  NoDup (map fst l) -> In (key, possible_keys) l ->
  Py.get (fold_left (standard_step d) l extracted) key
  = match first_value d possible_keys with
    | Some value => Some value
    | None => Py.get extracted key
    end.
Proof.
  revert extracted. induction l as [|[name keys] l IH];
    intros extracted Hnd Hin; [destruct Hin|].
  simpl in Hnd. inversion Hnd as [|? ? Hname Hnd']; subst.
  simpl. destruct Hin as [E | Hin].
  - inversion E; subst. rewrite standard_loop_other by exact Hname.
    unfold standard_step. cbn [fst snd].
    destruct (first_value d possible_keys); [|reflexivity].
    apply PyFacts.get_set_same.
  - rewrite (IH _ Hnd' Hin).
    destruct (first_value d possible_keys); [reflexivity|].
    unfold standard_step. cbn [fst snd].
    destruct (first_value d keys); [|reflexivity].
    apply PyFacts.get_set_other. intro E. subst. apply Hname.
    apply in_map_iff. exists (key, possible_keys). split; [reflexivity|exact Hin].
Qed.

Lemma remaining_loop_other (metadata : Py.dict json)
    (extracted : Py.dict json) (key : string) :
  In (Py.lower key) known_keys ->
  Py.get (fold_left remaining_step metadata extracted) key
  = Py.get extracted key.
Proof.
  intro Hk. revert extracted.
  induction metadata as [|[k v] metadata IH]; intro extracted;
    cbn [fold_left]; [reflexivity|].
  rewrite IH. unfold remaining_step.
  destruct (existsb (String.eqb (Py.lower k)) known_keys) eqn:K;
    cbn [negb]; [reflexivity|].
  destruct (is_scalar v && truthy v); [|reflexivity].
  apply PyFacts.get_set_other. intro E. subst.
  apply known_existsb in Hk. congruence.
Qed.

Lemma standard_names_known :
  Forall (fun entry => In (Py.lower (fst entry)) known_keys) field_mapping.
Proof.
  apply Forall_forall. intros entry He. apply known_existsb.
  revert entry He. apply Forall_forall. repeat constructor.
Qed.

Lemma standard_names_NoDup : NoDup (map fst field_mapping).
Proof.
  repeat constructor; simpl; intuition discriminate.
Qed.

Lemma extract_standard (metadata : Py.dict json) (key : string)
    (possible_keys : list string) :
  In (key, possible_keys) field_mapping ->
  Py.get (_extract_key_fields metadata) key
  = first_value (metadata_lower metadata) possible_keys.
Proof.
  intro He. unfold _extract_key_fields. cbv zeta.
  rewrite remaining_loop_other
    by exact (proj1 (Forall_forall _ _) standard_names_known _ He).
  rewrite (standard_loop_get _ _ _ _ _ standard_names_NoDup He).
  destruct (first_value _ _); reflexivity.
Qed.

End BRollFieldsFacts.

(** X22 (extracted fields are non-empty metadata values).  Every field that
    [_extract_key_fields] returns has a truthy value.  It is either stored
    under one of the nine standard names, and is then the value of a
    metadata key whose lower-case form is one of the names listed for it;
    or it is a string or number of the metadata (a boolean counts as a
    number) stored under its own key, whose lower-case form is none of the
    listed names. *)
Theorem extracted_fields_origin (metadata : Py.dict BRollAnalysis.json)
    (key : string) (value : BRollAnalysis.json) :
  Py.get (BRollFields._extract_key_fields metadata) key = Some value ->
  BRollFields.truthy value = true /\
  (BRollFields.standard_field metadata key value \/
   BRollFields.remaining_field metadata key value).
Proof.
  unfold BRollFields._extract_key_fields. cbv zeta. revert key value.
  apply (BRollFieldsFacts.fold_left_invariant
           (fun d => forall key value, Py.get d key = Some value ->
                       BRollFields.truthy value = true /\
                       (BRollFields.standard_field metadata key value \/
                        BRollFields.remaining_field metadata key value))).
  - intros d [k v] Hin IH key value H.
    unfold BRollFields.remaining_step in H.
    destruct (existsb (String.eqb (Py.lower k)) BRollFields.known_keys)
      eqn:K; cbn [negb] in H; [apply IH, H|].
    destruct (BRollFields.is_scalar v) eqn:S; cbn [andb] in H;
      [|apply IH, H].
    destruct (BRollFields.truthy v) eqn:T; [|apply IH, H].
    apply BRollFieldsFacts.get_set_cases in H.
    destruct H as [[-> ->] | [_ H]]; [|apply IH, H].
    split; [exact T|]. right. split; [exact Hin|]. split; [exact S|].
    intro Hk. apply BRollFieldsFacts.known_existsb in Hk. congruence.
  - intros key value H.
    destruct (BRollFieldsFacts.standard_loop_origin metadata key value H)
      as [Ht Hs].
    split; [exact Ht | left; exact Hs].
Qed.

Lemma extracted_fields_origin_witness :
  BRollFields.truthy (BRollAnalysis.JString "Office Environment") = true /\
  (BRollFields.standard_field Examples.office_metadata "title"
     (BRollAnalysis.JString "Office Environment") \/
   BRollFields.remaining_field Examples.office_metadata "title"
     (BRollAnalysis.JString "Office Environment")).
Proof.
  apply (extracted_fields_origin Examples.office_metadata "title"
           (BRollAnalysis.JString "Office Environment")).
  reflexivity.
Defined.

(** X23 (standard fields follow the order of their names).  For each of the
    nine standard names, the field that [_extract_key_fields] returns under
    it is the value of the first of its listed names that the metadata has,
    compared in lower case, with a truthy value; there is no such field when
    no listed name has one.  The fields copied afterwards never replace
    it. *)
Theorem extracted_standard_fields (metadata : Py.dict BRollAnalysis.json) :
  Forall (fun entry =>
            Py.get (BRollFields._extract_key_fields metadata) (fst entry)
            = BRollFields.first_value (BRollFields.metadata_lower metadata)
                                      (snd entry))
         BRollFields.field_mapping.
Proof.
  apply Forall_forall. intros [key possible_keys] He.
  apply BRollFieldsFacts.extract_standard, He.
Qed.

(** * The guarded cosine similarity *)

Module CosineFacts.
Import Relevance.

Lemma dot_zero (n : nat) :
  fold_left (fun acc xy => (acc + fst xy * snd xy)%float)
            (combine (repeat 0%float n) (repeat 0%float n)) 0%float
  = 0%float.
Proof.
  induction n as [|n IH]; [reflexivity|]. simpl repeat. simpl combine.
  cbn [fold_left fst snd]. exact IH.
Qed.

Lemma norm_zero (n : nat) : norm (repeat 0%float n) = 0%float.
Proof. unfold norm, dot. rewrite (dot_zero n). reflexivity. Qed.

End CosineFacts.

(** X24 (the guard of the pairwise cosine).  [_cosine_similarity] returns
    0.0 whenever one of the two vectors is the zero vector, of any
    dimension and whatever the other vector holds: the test on the norms
    comes before the division. *)
Theorem cosine_similarity_zero_vector (n : nat) (v : list float) :
  Relevance._cosine_similarity (repeat 0%float n) v = 0%float /\
  Relevance._cosine_similarity v (repeat 0%float n) = 0%float.
Proof.
  unfold Relevance._cosine_similarity. cbv zeta.
  rewrite CosineFacts.norm_zero.
  change (PrimFloat.eqb 0 0) with true.
  rewrite orb_true_r. split; reflexivity.
Qed.

(** * The length of the timeline *)

Module DurationFacts.
Import Timeline TimelineStatistics TimelineInvariants.

Lemma hundredths_round (x : Q) : hundredths x -> Py.round x 2 == x.
Proof.
  intros [k Hk]. apply (RoundFacts.round_of_decimal x 2 k).
  rewrite Hk. unfold Qeq. simpl. lia.
Qed.

Lemma hundredths_plus (x y : Q) :
  hundredths x -> hundredths y -> hundredths (x + y).
Proof.
  intros [a Ha] [b Hb]. exists (a + b)%Z. rewrite Ha, Hb.
  unfold Qeq. simpl. lia.
Qed.

Lemma hundredths_minus (x y : Q) :
  hundredths x -> hundredths y -> hundredths (x - y).
Proof.
  intros [a Ha] [b Hb]. exists (a - b)%Z. rewrite Ha, Hb.
  unfold Qeq. simpl. lia.
Qed.

Lemma total_duration_from (l : list TimelineSegment) (acc acc' : Totals) :
  total_duration acc == total_duration acc' ->
  total_duration (fold_left count l acc)
  == total_duration (fold_left count l acc').
Proof.
  revert acc acc'. induction l as [|s l IH]; intros acc acc' H; simpl;
    [exact H|].
  apply IH. destruct s; simpl; rewrite H; reflexivity.
Qed.

Lemma totals_snoc (l : list TimelineSegment) (s : TimelineSegment) :
  total_duration (totals (l ++ [s]))
  == total_duration (totals l) + duration s.
Proof.
  unfold totals. rewrite fold_left_app. cbn [fold_left].
  destruct s; reflexivity.
Qed.

Lemma step_measured (aroll_segments : list Segment.t) (i : Insertion.t)
    (state : Q * list TimelineSegment) :
  rounded i -> fst state <= Insertion.start_sec i ->
  measured state ->
  fst (step aroll_segments i state) = Spec.insertion_end i /\
  measured (step aroll_segments i state).
Proof.
  destruct state as [cur acc]. unfold measured, step. cbn [fst snd].
  intros [Hs Hd] Hle [Hcur Htot].
  pose proof (hundredths_round _ Hd) as Rd.
  pose proof (hundredths_round _ (hundredths_minus _ _ Hs Hcur)) as Rg.
  destruct (Py.ltb cur (Insertion.start_sec i)) eqn:E; cbn [fst snd].
  - split; [reflexivity|]. split; [apply hundredths_plus; assumption|].
    rewrite !totals_snoc. cbn [duration]. rewrite Htot, Rd, Rg. ring.
  - apply PyFacts.ltb_ge in E.
    split; [reflexivity|]. split; [apply hundredths_plus; assumption|].
    rewrite totals_snoc. cbn [duration]. rewrite Htot, Rd.
    assert (Heq : cur == Insertion.start_sec i) by (apply Qle_antisym; assumption).
    rewrite Heq. reflexivity.
Qed.

Lemma loop_measured (aroll_segments : list Segment.t) (total : Q)
    (insertions : list Insertion.t) (state : Q * list TimelineSegment) :
  Spec.chronological insertions ->
  Forall rounded insertions ->
  Forall (fun i => Spec.insertion_end i <= total) insertions ->
  Invariants.ready (fst state) insertions ->
  measured state ->
  measured (loop aroll_segments insertions state) /\
  (insertions <> [] ->
   fst (loop aroll_segments insertions state) <= total).
Proof.
  revert state.
  induction insertions as [|i rest IH]; intros state Hch Hr Hin Hready Hm;
    cbn [loop]; [split; [exact Hm | intro H; contradiction]|].
  inversion Hr as [|? ? Hi Hr']; subst.
  inversion Hin as [|? ? Hend Hin']; subst.
  destruct (step_measured aroll_segments i state Hi Hready Hm) as [Hcur Hm'].
  destruct Hch as [Hnext Hch].
  destruct (IH (step aroll_segments i state) Hch Hr' Hin') as [H1 H2];
    [|exact Hm'|].
  { destruct rest as [|j rest]; [exact I|]. simpl. rewrite Hcur. exact Hnext. }
  split; [exact H1|]. intros _.
  destruct rest as [|j rest]; [cbn [loop]; rewrite Hcur; exact Hend|].
  apply H2. discriminate.
Qed.

(** The durations of the timeline add up to the length of the narration. *)
Lemma create_measured (aroll_segments : list Segment.t)
    (broll_matches : list Insertion.t) :
  aroll_segments <> [] ->
  broll_matches <> [] ->
  Spec.non_overlapping broll_matches ->
  Spec.contained (Spec.total_duration aroll_segments) broll_matches ->
  hundredths (Spec.total_duration aroll_segments) ->
  Forall rounded broll_matches ->
  total_duration
    (totals (_create_timeline_segments aroll_segments broll_matches))
  == Spec.total_duration aroll_segments.
Proof.
  intros Hsegs Hins Hno Hin HT Hr.
  destruct aroll_segments as [|first rest]; [contradiction|].
  unfold _create_timeline_segments, Spec.total_duration in *.
  rewrite (last_first_default first (Segment.Build 0 0 "")).
  set (total := Segment.end_time (last (first :: rest) (Segment.Build 0 0 "")))
    in *.
  unfold Spec.non_overlapping in Hno.
  assert (Hne : Py.sorted_by Insertion.start_sec broll_matches <> []).
  { intro E. apply PyFacts.sort_nil in E. contradiction. }
  assert (Hin' : Spec.contained total
                   (Py.sorted_by Insertion.start_sec broll_matches)).
  { eapply Permutation_Forall; [|exact Hin].
    apply Permutation_sym, PyFacts.sort_perm. }
  assert (Hr' : Forall rounded
                  (Py.sorted_by Insertion.start_sec broll_matches)).
  { eapply Permutation_Forall; [|exact Hr].
    apply Permutation_sym, PyFacts.sort_perm. }
  set (insertions := Py.sorted_by Insertion.start_sec broll_matches) in *.
  assert (Hend : Forall (fun i => Spec.insertion_end i <= total) insertions).
  { eapply Forall_impl; [|exact Hin']. intros j [_ H]. exact H. }
  assert (Hready : Invariants.ready 0.0 insertions).
  { destruct insertions as [|i l]; [exact I|].
    inversion Hin' as [|? ? [H0 _] _]; subst. simpl. lra. }
  destruct (loop_measured (first :: rest) total insertions (0.0, [])
              Hno Hr' Hend Hready) as [Hm Hcur].
  { split; [exists 0%Z; reflexivity | reflexivity]. }
  specialize (Hcur Hne).
  destruct (loop (first :: rest) insertions (0.0, []))
    as [current_time timeline_segments].
  destruct Hm as [Hc Htot]. cbn [fst snd] in *.
  destruct insertions as [|i l]; [contradiction Hne; reflexivity|].
  destruct (Py.ltb current_time total) eqn:L.
  - rewrite totals_snoc. cbn [duration].
    rewrite Htot, (hundredths_round _ (hundredths_minus _ _ HT Hc)). ring.
  - apply PyFacts.ltb_ge in L. rewrite Htot.
    apply Qle_antisym; assumption.
Qed.

End DurationFacts.

(** X25 (the timeline is as long as the narration).  For a non-empty
    segment list whose last [end_time] is a whole number of hundredths, and
    a non-empty list of insertions that is non-overlapping, contained in the
    narration span and has starts and durations in whole hundredths (as
    [process_segments] and [match] return them), the [total_duration] of the
    statistics equals [original_aroll_duration], the end of the narration:
    the cutaways replace narration video and add no time. *)
Theorem statistics_total_duration (aroll_segments : list Segment.t)
    (broll_matches : list Insertion.t) :
  aroll_segments <> [] ->
  broll_matches <> [] ->
  Spec.non_overlapping broll_matches ->
  Spec.contained (Spec.total_duration aroll_segments) broll_matches ->
  TimelineInvariants.hundredths (Spec.total_duration aroll_segments) ->
  Forall TimelineInvariants.rounded broll_matches ->
  let stats :=
    TimelineStatistics.create_timeline_statistics aroll_segments
                                                  broll_matches in
  TimelineStatistics.stat_total_duration stats
  == TimelineStatistics.stat_original_aroll_duration stats /\
  TimelineStatistics.stat_total_duration stats
  == Spec.total_duration aroll_segments.
Proof.
  intros Hsegs Hins Hno Hin HT Hr stats.
  pose proof (DurationFacts.create_measured aroll_segments broll_matches
                Hsegs Hins Hno Hin HT Hr) as Htot.
  assert (Horig : TimelineStatistics.stat_original_aroll_duration stats
                  == Spec.total_duration aroll_segments).
  { subst stats.
    unfold TimelineStatistics.create_timeline_statistics,
      TimelineStatistics._calculate_statistics.
    cbn [TimelineStatistics.stat_original_aroll_duration].
    destruct aroll_segments as [|first rest]; [contradiction|].
    rewrite (last_first_default first (Segment.Build 0 0 "")).
    apply DurationFacts.hundredths_round, HT. }
  assert (Hstat : TimelineStatistics.stat_total_duration stats
                  == Spec.total_duration aroll_segments).
  { subst stats.
    unfold TimelineStatistics.create_timeline_statistics,
      TimelineStatistics._calculate_statistics.
    cbn [TimelineStatistics.stat_total_duration].
    rewrite (PyFacts.round_comp _ _ 2 Htot).
    apply DurationFacts.hundredths_round, HT. }
  split; [rewrite Hstat, Horig; reflexivity | exact Hstat].
Qed.

Lemma statistics_total_duration_witness :
  let stats :=
    TimelineStatistics.create_timeline_statistics Examples.ten_segments
                                                  Examples.three_insertions in
  TimelineStatistics.stat_total_duration stats
  == TimelineStatistics.stat_original_aroll_duration stats /\
  TimelineStatistics.stat_total_duration stats
  == Spec.total_duration Examples.ten_segments.
Proof.
  apply (statistics_total_duration Examples.ten_segments
           Examples.three_insertions).
  - discriminate.
  - discriminate.
  - vm_compute. repeat split; discriminate.
  - repeat constructor; vm_compute; discriminate.
  - exists 4020%Z. reflexivity.
  - apply Forall_cons;
      [split; [exists 2730%Z | exists 370%Z]; reflexivity|].
    apply Forall_cons;
      [split; [exists 3100%Z | exists 460%Z]; reflexivity|].
    apply Forall_cons;
      [split; [exists 3560%Z | exists 460%Z]; reflexivity|].
    apply Forall_nil.
Defined.

(** * The matcher's output on a narration *)

Module PipelineFacts.
Import TimelineInvariants.

Lemma sorted_nth {A} (R : A -> A -> Prop) (l : list A) (i j : nat) (a b : A) :
  StronglySorted R l -> (i < j)%nat ->
  nth_error l i = Some a -> nth_error l j = Some b -> R a b.
Proof.
  intro Hs. revert i j. induction Hs as [|x l Hs IH Hx]; intros i j Hij Hi Hj.
  - destruct i; discriminate.
  - destruct j as [|j]; [lia|]. cbn [nth_error] in Hj.
    destruct i as [|i]; cbn [nth_error] in Hi.
    + inversion Hi; subst.
      exact (proj1 (Forall_forall _ _) Hx b (nth_error_In _ _ Hj)).
    + apply (IH i j); [lia | exact Hi | exact Hj].
Qed.

Lemma narration_last (l : list Segment.t) (d s : Segment.t) :
  narration l -> In s l ->
  Segment.end_time s <= Segment.end_time (last l d).
Proof.
  intros [Hall Hs]. revert Hall. induction Hs as [|x l Hs IH Hx];
    intros Hall Hin; [destruct Hin|].
  inversion Hall as [|? ? _ Hall']; subst.
  destruct l as [|y l]; [destruct Hin as [<- | []]; apply Qle_refl|].
  change (last (x :: y :: l) d) with (last (y :: l) d).
  destruct Hin as [<- | Hin]; [|apply (IH Hall' Hin)].
  pose proof (RoundFacts.last_In y d l) as Hlast.
  pose proof (proj1 (Forall_forall _ _) Hx _ Hlast) as H1.
  pose proof (proj1 (Forall_forall _ _) Hall' _ Hlast) as (_ & _ & _ & H2).
  cbv beta in H1. lra.
Qed.

Lemma ordered_pairs_map {A B} (f : A -> B) (key : A -> nat)
    (P : B -> B -> Prop) (l : list A) :
  NoDup (map key l) ->
  (forall a b, In a l -> In b l -> key a <> key b -> P (f a) (f b)) ->
  ForallOrdPairs P (map f l).
Proof.
  induction l as [|a l IH]; intros Hnd HP; [constructor|].
  cbn [map] in *. inversion Hnd as [|? ? Ha Hnd']; subst.
  constructor.
  - apply Forall_forall. intros y Hy. apply in_map_iff in Hy.
    destruct Hy as [b [<- Hb]].
    apply HP; [left; reflexivity | right; exact Hb|].
    intro E. apply Ha. rewrite E. apply in_map, Hb.
  - apply IH; [exact Hnd'|].
    intros x y Hx Hy. apply HP; right; assumption.
Qed.

Section Formatted.
Variable aroll_segments : list Segment.t.
Hypothesis Hnarration : narration aroll_segments.

(** The insertion formatted for a candidate spans its segment exactly. *)
Lemma format_span (m : Candidate.t) (segment : Segment.t) :
  nth_error aroll_segments (Candidate.segment_idx m) = Some segment ->
  Insertion.start_sec (Matcher.format_match aroll_segments m)
  == Segment.start_time segment /\
  Insertion.duration_sec (Matcher.format_match aroll_segments m)
  == Segment.end_time segment - Segment.start_time segment /\
  rounded (Matcher.format_match aroll_segments m).
Proof.
  intro Hseg. destruct Hnarration as [Hall _].
  pose proof (proj1 (Forall_forall _ _) Hall _ (nth_error_In _ _ Hseg))
    as (Hs & He & _).
  unfold Matcher.format_match, rounded.
  cbn [Insertion.start_sec Insertion.duration_sec].
  rewrite (nth_error_nth _ _ _ Hseg).
  split; [apply DurationFacts.hundredths_round, Hs|].
  split; [apply DurationFacts.hundredths_round,
            DurationFacts.hundredths_minus; assumption|].
  split; apply PyFacts.round_2.
Qed.

Lemma format_disjoint (a b : Candidate.t) (sa sb : Segment.t) :
  nth_error aroll_segments (Candidate.segment_idx a) = Some sa ->
  nth_error aroll_segments (Candidate.segment_idx b) = Some sb ->
  Candidate.segment_idx a <> Candidate.segment_idx b ->
  Spec.disjoint (Matcher.format_match aroll_segments a)
                (Matcher.format_match aroll_segments b).
Proof.
  intros Ha Hb Hne.
  destruct (format_span a sa Ha) as (Sa & Da & _).
  destruct (format_span b sb Hb) as (Sb & Db & _).
  destruct Hnarration as [_ Hsorted].
  unfold Spec.disjoint, Spec.insertion_end.
  destruct (Nat.lt_total (Candidate.segment_idx a) (Candidate.segment_idx b))
    as [Hlt | [Heq | Hgt]]; [|contradiction|].
  - left. pose proof (sorted_nth _ _ _ _ _ _ Hsorted Hlt Ha Hb) as H.
    cbv beta in H. rewrite Sa, Da, Sb. lra.
  - right. pose proof (sorted_nth _ _ _ _ _ _ Hsorted Hgt Hb Ha) as H.
    cbv beta in H. rewrite Sa, Sb, Db. lra.
Qed.
End Formatted.

(** The insertions that [match] returns on a narration. *)
Lemma match_on_narration
    (relevance : list string -> list string -> Matcher.Matrix)
    (self : Matcher.SemanticMatcher) (aroll_segments : list Segment.t)
    (broll_descriptions : Py.dict string) (broll_matches : list Insertion.t) :
  narration aroll_segments ->
  Matcher.match_ relevance self aroll_segments broll_descriptions
    = Py.Ok broll_matches ->
  Forall rounded broll_matches /\
  Forall (fun i => 0 < Insertion.duration_sec i) broll_matches /\
  ForallOrdPairs Spec.disjoint broll_matches /\
  Spec.contained (Spec.total_duration aroll_segments) broll_matches.
Proof.
  intros Hn H. apply match_returns in H. destruct H as (_ & _ & ->).
  set (selected := Matcher._select_best_matches _ _ _ _ _).
  assert (Hseg : forall m, In m selected ->
            exists segment,
              nth_error aroll_segments (Candidate.segment_idx m)
              = Some segment).
  { intros m Hm.
    assert (Hp : In m (Matcher.potential_matches self
                         (Matcher.similarity_matrix_in_match relevance
                            aroll_segments broll_descriptions)
                         aroll_segments (Py.keys broll_descriptions)
                         broll_descriptions)).
    { apply MatcherFacts.selected_potential.
      eapply Permutation_in; [apply MatcherFacts.output_perm | exact Hm]. }
    apply MatcherFacts.potential_matches_In in Hp.
    destruct Hp as (segment & _ & Hs & _). exists segment. exact Hs. }
  assert (Hnd : NoDup (map Candidate.segment_idx selected)).
  { eapply Permutation_NoDup.
    - apply Permutation_map, Permutation_sym, MatcherFacts.output_perm.
    - apply SelectorFacts.selection_indexed. }
  pose proof Hn as [Hall _].
  split; [|split; [|split]].
  - apply Forall_forall. intros i Hi. apply in_map_iff in Hi.
    destruct Hi as [m [<- Hm]]. destruct (Hseg m Hm) as [segment Hs].
    apply (format_span aroll_segments Hn m segment Hs).
  - apply Forall_forall. intros i Hi. apply in_map_iff in Hi.
    destruct Hi as [m [<- Hm]]. destruct (Hseg m Hm) as [segment Hs].
    destruct (format_span aroll_segments Hn m segment Hs) as (_ & -> & _).
    pose proof (proj1 (Forall_forall _ _) Hall _ (nth_error_In _ _ Hs))
      as (_ & _ & _ & Hlt).
    lra.
  - apply (ordered_pairs_map _ Candidate.segment_idx); [exact Hnd|].
    intros a b Ha Hb Hne.
    destruct (Hseg a Ha) as [sa Hsa]. destruct (Hseg b Hb) as [sb Hsb].
    apply (format_disjoint aroll_segments Hn a b sa sb Hsa Hsb Hne).
  - apply Forall_forall. intros i Hi. apply in_map_iff in Hi.
    destruct Hi as [m [<- Hm]]. destruct (Hseg m Hm) as [segment Hs].
    destruct (format_span aroll_segments Hn m segment Hs) as (S1 & D1 & _).
    pose proof (proj1 (Forall_forall _ _) Hall _ (nth_error_In _ _ Hs))
      as (_ & _ & H0 & _).
    pose proof (narration_last aroll_segments (Segment.Build 0 0 "")
                  segment Hn (nth_error_In _ _ Hs)) as Hlast.
    unfold Spec.insertion_end, Spec.total_duration.
    rewrite S1, D1. split; lra.
Qed.

End PipelineFacts.

(** X26 (the pipeline's timeline tiles the narration).  For a narration
    (times in whole hundredths, no segment starting before 0, each of
    positive length and ending no later than the later ones start) the
    insertions that [match] returns span their segments exactly, so they are
    non-overlapping and contained in the narration span; when there is at
    least one, the timeline built from them tiles the span exactly: it
    starts at 0, is contiguous and ends at the last segment's [end_time]. *)
Theorem pipeline_timeline_tiles
    (relevance : list string -> list string -> Matcher.Matrix)
    (self : Matcher.SemanticMatcher) (aroll_segments : list Segment.t)
    (broll_descriptions : Py.dict string) (broll_matches : list Insertion.t) :
  TimelineInvariants.narration aroll_segments ->
  Matcher.match_ relevance self aroll_segments broll_descriptions
    = Py.Ok broll_matches ->
  broll_matches <> [] ->
  Spec.non_overlapping broll_matches /\
  Spec.contained (Spec.total_duration aroll_segments) broll_matches /\
  Spec.tiles (Spec.total_duration aroll_segments)
    (Timeline._create_timeline_segments aroll_segments broll_matches).
Proof.
  intros Hn H Hne.
  destruct (PipelineFacts.match_on_narration _ _ _ _ _ Hn H)
    as (_ & Hpos & Hpairs & Hin).
  pose proof (TimelineFacts.pairwise_disjoint_non_overlapping _ Hpos Hpairs)
    as Hno.
  apply match_returns in H. destruct H as (Hsegs & _ & _).
  split; [exact Hno|]. split; [exact Hin|].
  apply TimelineFacts.tiles_covers.
  eapply TimelineFacts.covers_comp;
    [|apply RoundFacts.create_covers; assumption].
  apply DurationFacts.hundredths_round.
  destruct Hn as [Hall _]. unfold Spec.total_duration.
  destruct aroll_segments as [|first rest]; [contradiction|].
  pose proof (RoundFacts.last_In first (Segment.Build 0 0 "") rest) as Hlast.
  exact (proj1 (proj2 (proj1 (Forall_forall _ _) Hall _ Hlast))).
Qed.

Lemma pipeline_timeline_tiles_witness :
  exists broll_matches,
    Matcher.match_ (fun _ _ => Examples.one_clip_matrix)
      Examples.default_matcher Examples.three_segments Examples.one_clip
    = Py.Ok broll_matches /\
    Spec.tiles (Spec.total_duration Examples.three_segments)
      (Timeline._create_timeline_segments Examples.three_segments
                                          broll_matches).
Proof.
  assert (Hn : TimelineInvariants.narration Examples.three_segments).
  { split.
    - apply Forall_cons.
      { split; [exists 0%Z; reflexivity|].
        split; [exists 1000%Z; reflexivity|].
        split; [vm_compute; discriminate | vm_compute; reflexivity]. }
      apply Forall_cons.
      { split; [exists 1000%Z; reflexivity|].
        split; [exists 2000%Z; reflexivity|].
        split; [vm_compute; discriminate | vm_compute; reflexivity]. }
      apply Forall_cons; [|apply Forall_nil].
      split; [exists 2000%Z; reflexivity|].
      split; [exists 3000%Z; reflexivity|].
      split; [vm_compute; discriminate | vm_compute; reflexivity].
    - repeat constructor; vm_compute; discriminate. }
  eexists. split; [vm_compute; reflexivity|].
  apply (pipeline_timeline_tiles (fun _ _ => Examples.one_clip_matrix)
           Examples.default_matcher Examples.three_segments
           Examples.one_clip _ Hn eq_refl).
  discriminate.
Defined.
